(** * telegram-bot-audio-find-spotify: the message pipeline of [main.go]

    A shallow embedding of the bot's handlers ([handleAudioMessage],
    [handleUnknownMessage], [HandleAnything]), of the helpers
    [buildSpotifyUserSearchURL] and [buildResultText], and of the parts of
    the Go standard library and of gotgbot's dispatcher they run on.

    Go strings are byte sequences: [gostring] is [list ascii], and the
    library functions that look at runes decode UTF-8 the way package
    [unicode/utf8] does. *)

From Stdlib Require Import ZArith Ascii String List Lia Bool.
From stdpp Require Import base list strings gmap.

Local Open Scope Z_scope.

(** ** Bytes and strings *)

Abbreviation gostring := (list ascii).

(** A Go string literal. *)
Definition str (s : string) : gostring := list_ascii_of_string s.

(** The numeric value of a byte, [0 .. 255]. *)
Definition byteZ (c : ascii) : Z := Z.of_N (N_of_ascii c).

Definition byte_of_Z (z : Z) : ascii := ascii_of_N (Z.to_N z).

(** The double quote character. *)
Definition dquote : ascii := "034"%char.

(** [lo <= c && c <= hi] on bytes. *)
Definition in_range (lo hi c : ascii) : bool :=
  (byteZ lo <=? byteZ c) && (byteZ c <=? byteZ hi).

(** [c] is one of the bytes of [l] (a [switch] over byte constants, or
    [strings.IndexByte(l, c) >= 0]). *)
Definition is_one_of (c : ascii) (l : gostring) : bool :=
  bool_decide (c ∈ l).

(** ** Package [unicode/utf8] *)

Module utf8.

Definition RuneError : Z := 0xFFFD.
Definition RuneSelf : Z := 0x80.
Definition UTFMax : Z := 4.

Definition maskx : Z := 0x3F.
Definition mask2 : Z := 0x1F.
Definition mask3 : Z := 0x0F.
Definition mask4 : Z := 0x07.
Definition locb : Z := 0x80.
Definition hicb : Z := 0xBF.

(** The entries of the table [first]: [as] for ASCII, [xx] for an
    invalid lead byte, otherwise the size in the low three bits and the
    index of the accept range in the high four. *)
Definition xx : Z := 0xF1.
Definition as_ : Z := 0xF0.
Definition s1 : Z := 0x02.
Definition s2 : Z := 0x13.
Definition s3 : Z := 0x03.
Definition s4 : Z := 0x23.
Definition s5 : Z := 0x34.
Definition s6 : Z := 0x04.
Definition s7 : Z := 0x44.

Definition first (b : Z) : Z :=
  if b <? 0x80 then as_
  else if b <? 0xC2 then xx
  else if b <? 0xE0 then s1
  else if b =? 0xE0 then s2
  else if b <? 0xED then s3
  else if b =? 0xED then s4
  else if b <? 0xF0 then s3
  else if b =? 0xF0 then s5
  else if b <? 0xF4 then s6
  else if b =? 0xF4 then s7
  else xx.

Definition acceptRanges (i : Z) : Z * Z :=
  if i =? 0 then (locb, hicb)
  else if i =? 1 then (0xA0, hicb)
  else if i =? 2 then (locb, 0x9F)
  else if i =? 3 then (0x90, hicb)
  else if i =? 4 then (locb, 0x8F)
  else (0, 0).

(** [utf8.DecodeRuneInString]: the first rune of [s] and its width in
    bytes; [(RuneError, 0)] on the empty string and [(RuneError, 1)] on
    an invalid encoding. *)
Definition DecodeRuneInString (s : gostring) : Z * nat :=
  match s with
  | [] => (RuneError, 0%nat)
  | c0 :: t0 =>
    let b0 := byteZ c0 in
    let x := first b0 in
    if as_ <=? x then
      (* the mask trick of the source: [as] keeps the byte, [xx] gives
         RuneError *)
      (if Z.odd x then RuneError else b0, 1%nat)
    else
      let sz := Z.land x 7 in
      let '(lo, hi) := acceptRanges (Z.shiftr x 4) in
      if Z.of_nat (length s) <? sz then (RuneError, 1%nat)
      else
        match t0 with
        | [] => (RuneError, 1%nat)
        | c1 :: t1 =>
          let b1 := byteZ c1 in
          if (b1 <? lo) || (hi <? b1) then (RuneError, 1%nat)
          else if sz <=? 2 then
            (Z.lor (Z.shiftl (Z.land b0 mask2) 6) (Z.land b1 maskx), 2%nat)
          else
            match t1 with
            | [] => (RuneError, 1%nat)
            | c2 :: t2 =>
              let b2 := byteZ c2 in
              if (b2 <? locb) || (hicb <? b2) then (RuneError, 1%nat)
              else if sz <=? 3 then
                (Z.lor (Z.lor (Z.shiftl (Z.land b0 mask3) 12)
                              (Z.shiftl (Z.land b1 maskx) 6))
                       (Z.land b2 maskx), 3%nat)
              else
                match t2 with
                | [] => (RuneError, 1%nat)
                | c3 :: _ =>
                  let b3 := byteZ c3 in
                  if (b3 <? locb) || (hicb <? b3) then (RuneError, 1%nat)
                  else
                    (Z.lor (Z.lor (Z.lor (Z.shiftl (Z.land b0 mask4) 18)
                                         (Z.shiftl (Z.land b1 maskx) 12))
                                  (Z.shiftl (Z.land b2 maskx) 6))
                           (Z.land b3 maskx), 4%nat)
                end
            end
        end
  end.

(** [utf8.RuneStart]: not a continuation byte. *)
Definition RuneStart (b : Z) : bool := negb (Z.land b 0xC0 =? 0x80).

(** The byte [s[i]], for an index in range. *)
Definition at_ (s : gostring) (i : Z) : Z :=
  byteZ (nth (Z.to_nat i) s "000"%char).

(** The loop [for start--; start >= lim; start-- { if RuneStart(s[start])
    { break } }] of [DecodeLastRuneInString]; [n] bounds the number of
    iterations, at most [UTFMax]. *)
Fixpoint scanRuneStart (n : nat) (s : gostring) (lim start : Z) : Z :=
  match n with
  | O => start
  | S n' =>
    if start <? lim then start
    else if RuneStart (at_ s start) then start
    else scanRuneStart n' s lim (start - 1)
  end.

(** [utf8.DecodeLastRuneInString]: the last rune of [s] and its width. *)
Definition DecodeLastRuneInString (s : gostring) : Z * nat :=
  let end_ := Z.of_nat (length s) in
  if end_ =? 0 then (RuneError, 0%nat)
  else
    let start := end_ - 1 in
    let r := at_ s start in
    if r <? RuneSelf then (r, 1%nat)
    else
      let lim := end_ - UTFMax in
      let lim := if lim <? 0 then 0 else lim in
      let start := scanRuneStart (Z.to_nat UTFMax) s lim (start - 1) in
      let start := if start <? 0 then 0 else start in
      let '(r, size) := DecodeRuneInString (drop (Z.to_nat start) s) in
      if negb (start + Z.of_nat size =? end_) then (RuneError, 1%nat)
      else (r, size).

End utf8.

(** ** Package [unicode] *)

Module unicode.

Definition MaxLatin1 : Z := 0xFF.

(** The 16-bit ranges of the table [White_Space]; its [LatinOffset] is 4. *)
Definition White_Space_R16 : list (Z * Z) :=
  [ (0x0009, 0x000d); (0x0020, 0x0020); (0x0085, 0x0085); (0x00a0, 0x00a0);
    (0x1680, 0x1680); (0x2000, 0x200a); (0x2028, 0x2029); (0x202f, 0x202f);
    (0x205f, 0x205f); (0x3000, 0x3000) ].
Definition White_Space_LatinOffset : nat := 4.

Definition isExcludingLatin (r : Z) : bool :=
  existsb (fun '(lo, hi) => (lo <=? r) && (r <=? hi))
          (drop White_Space_LatinOffset White_Space_R16).

(** [unicode.IsSpace]. *)
Definition IsSpace (r : Z) : bool :=
  if r <=? MaxLatin1 then
    (r =? 9) || (r =? 10) || (r =? 11) || (r =? 12) || (r =? 13)
    || (r =? 32) || (r =? 0x85) || (r =? 0xA0)
  else isExcludingLatin r.

End unicode.

(** ** Package [strings] *)

Module strings.

(** The table [asciiSpace]. *)
Definition asciiSpace (c : ascii) : bool :=
  let b := byteZ c in
  (b =? 9) || (b =? 10) || (b =? 11) || (b =? 12) || (b =? 13) || (b =? 32).

(** [indexFunc(s, f, truth)]: the loop [for i, r := range s], which
    decodes one rune after the other; [None] is the source's [-1].  The
    first argument bounds the number of iterations. *)
Fixpoint indexFunc_go (n : nat) (f : Z -> bool) (truth : bool)
    (s : gostring) (i : nat) : option nat :=
  match n with
  | O => None
  | S n' =>
    match s with
    | [] => None
    | _ :: _ =>
      let '(r, size) := utf8.DecodeRuneInString s in
      if eqb (f r) truth then Some i
      else indexFunc_go n' f truth (drop size s) (i + size)
    end
  end.

Definition indexFunc (s : gostring) (f : Z -> bool) (truth : bool) : option nat :=
  indexFunc_go (length s) f truth s 0.

(** [lastIndexFunc(s, f, truth)]: the loop [for i := len(s); i > 0;],
    decoding backwards. *)
Fixpoint lastIndexFunc_go (n : nat) (f : Z -> bool) (truth : bool)
    (s : gostring) (i : nat) : option nat :=
  match n with
  | O => None
  | S n' =>
    if (0 <? i)%nat then
      let '(r, size) := utf8.DecodeLastRuneInString (take i s) in
      let i := (i - size)%nat in
      if eqb (f r) truth then Some i
      else lastIndexFunc_go n' f truth s i
    else None
  end.

Definition lastIndexFunc (s : gostring) (f : Z -> bool) (truth : bool) : option nat :=
  lastIndexFunc_go (length s) f truth s (length s).

Definition TrimLeftFunc (s : gostring) (f : Z -> bool) : gostring :=
  match indexFunc s f false with
  | None => []
  | Some i => drop i s
  end.

Definition TrimRightFunc (s : gostring) (f : Z -> bool) : gostring :=
  match lastIndexFunc s f false with
  | Some i =>
    if utf8.RuneSelf <=? utf8.at_ s (Z.of_nat i) then
      let '(_, wid) := utf8.DecodeRuneInString (drop i s) in
      take (i + wid) s
    else take (i + 1) s
  | None => take 0 s
  end.

Definition TrimFunc (s : gostring) (f : Z -> bool) : gostring :=
  TrimRightFunc (TrimLeftFunc s f) f.

(** The second loop of [TrimSpace], over [s[start:stop]] from its end;
    the argument is that slice reversed. *)
Fixpoint TrimSpace_stop (r : gostring) : gostring :=
  match r with
  | [] => []
  | c :: r' =>
    if utf8.RuneSelf <=? byteZ c then TrimRightFunc (reverse r) unicode.IsSpace
    else if asciiSpace c then TrimSpace_stop r'
    else reverse r
  end.

(** The first loop of [TrimSpace], over [s[start:]]. *)
Fixpoint TrimSpace_start (s : gostring) : gostring :=
  match s with
  | [] => []
  | c :: s' =>
    if utf8.RuneSelf <=? byteZ c then TrimFunc s unicode.IsSpace
    else if asciiSpace c then TrimSpace_start s'
    else TrimSpace_stop (reverse s)
  end.

(** [strings.TrimSpace]. *)
Definition TrimSpace (s : gostring) : gostring := TrimSpace_start s.

(** [strings.HasSuffix]. *)
Definition HasSuffix (s suffix : gostring) : bool :=
  (length suffix <=? length s)%nat
  && bool_decide (drop (length s - length suffix) s = suffix).

(** [strings.TrimSuffix]. *)
Definition TrimSuffix (s suffix : gostring) : gostring :=
  if HasSuffix s suffix then take (length s - length suffix) s else s.

(** [strings.Join]. *)
Definition Join (elems : list gostring) (sep : gostring) : gostring :=
  match elems with
  | [] => []
  | e :: rest => foldl (fun b s => b ++ sep ++ s) e rest
  end.

(** [strings.Cut(s, sep)] for a separator of one byte. *)
Fixpoint Cut (s : gostring) (sep : ascii) : gostring * gostring * bool :=
  match s with
  | [] => ([], [], false)
  | c :: s' =>
    if bool_decide (c = sep) then ([], s', true)
    else let '(before, after, found) := Cut s' sep in (c :: before, after, found)
  end.

(** [strings.Contains(s, substr)] for a substring of one byte. *)
Definition ContainsByte (s : gostring) (c : ascii) : bool := is_one_of c s.

(** [strings.ToLower] on the ASCII letters. *)
Definition ToLower (s : gostring) : gostring :=
  map (fun c => if in_range "A" "Z" c then byte_of_Z (byteZ c + 32) else c) s.

(** [unicode.SimpleFold] on the orbits that meet ASCII: a letter and its
    other case, with U+017F (long s) in the orbit of [s] and U+212A
    (Kelvin sign) in the orbit of [k].  Runes outside these orbits are
    mapped to themselves: [EqualFold] below is exact whenever one of its
    operands is ASCII. *)
Definition SimpleFold (r : Z) : Z :=
  if r =? 0x6B then 0x212A
  else if r =? 0x73 then 0x17F
  else if r =? 0x212A then 0x4B
  else if r =? 0x17F then 0x53
  else if (0x41 <=? r) && (r <=? 0x5A) then r + 32
  else if (0x61 <=? r) && (r <=? 0x7A) then r - 32
  else r.

(** The comparison of two runes in [EqualFold]. *)
Definition foldEq (sr tr : Z) : bool :=
  if tr =? sr then true
  else
    let lo := Z.min sr tr in
    let hi := Z.max sr tr in
    if hi <? utf8.RuneSelf then
      (0x41 <=? lo) && (lo <=? 0x5A) && (hi =? lo + 32)
    else
      (* r := SimpleFold(sr); for r != sr && r < tr { r = SimpleFold(r) } *)
      let next r := if negb (r =? lo) && (r <? hi) then SimpleFold r else r in
      next (next (next (SimpleFold lo))) =? hi.

Fixpoint EqualFold_go (n : nat) (s t : gostring) : bool :=
  match n with
  | O => bool_decide (s = []) && bool_decide (t = [])
  | S n' =>
    match s, t with
    | [], _ => bool_decide (t = [])
    | _ :: _, [] => false
    | _ :: _, _ :: _ =>
      let '(sr, ssize) := utf8.DecodeRuneInString s in
      let '(tr, tsize) := utf8.DecodeRuneInString t in
      if foldEq sr tr then EqualFold_go n' (drop ssize s) (drop tsize t)
      else false
    end
  end.

(** [strings.EqualFold]. *)
Definition EqualFold (s t : gostring) : bool := EqualFold_go (length s) s t.

(** [strings.ToLower] rune by rune.  ASCII capitals are lowered, and so
    are the two runes outside ASCII whose lower case is ASCII: U+0130
    (capital I with dot, lowered to [i]) and U+212A (Kelvin sign, lowered
    to [k]); an invalid byte becomes U+FFFD.  Other runes are copied, so
    the result is exact whenever it is compared with an ASCII word, as
    [logrus.ParseLevel] does.  The first argument bounds the number of
    runes. *)
Fixpoint ToLowerRunes_go (n : nat) (s : gostring) : gostring :=
  match n with
  | O => []
  | S n' =>
    match s with
    | [] => []
    | _ :: _ =>
      let '(r, size) := utf8.DecodeRuneInString s in
      (if r <? utf8.RuneSelf then
         [byte_of_Z (if (0x41 <=? r) && (r <=? 0x5A) then r + 32 else r)]
       else if r =? 0x130 then [byte_of_Z 0x69]
       else if r =? 0x212A then [byte_of_Z 0x6B]
       else if (r =? utf8.RuneError) && (size =? 1)%nat then
         [byte_of_Z 0xEF; byte_of_Z 0xBF; byte_of_Z 0xBD]
       else take size s)
        ++ ToLowerRunes_go n' (drop size s)
    end
  end.

Definition ToLowerRunes (s : gostring) : gostring := ToLowerRunes_go (length s) s.

End strings.

(** ** Package [fmt] *)

Module fmt.

(** [fmt.Sprintf] on string operands.  The verbs [%s] and [%v] print the
    operand and [%%] a percent sign; flags, widths and the other verbs
    are not used by the program and are rendered as Go renders a verb it
    does not know. *)
Fixpoint Sprintf (format : gostring) (args : list gostring) : gostring :=
  match format with
  | [] =>
    match args with
    | [] => []
    | _ :: _ =>
      str "%!(EXTRA "
        ++ strings.Join (map (fun a => str "string=" ++ a) args) (str ", ")
        ++ str ")"
    end
  | "%"%char :: [] => str "%!(NOVERB)"
  | "%"%char :: "%"%char :: rest => "%"%char :: Sprintf rest args
  | "%"%char :: v :: rest =>
    match args with
    | [] => str "%!" ++ [v] ++ str "(MISSING)" ++ Sprintf rest []
    | a :: args' =>
      (if bool_decide (v = "s"%char) || bool_decide (v = "v"%char) then a
       else str "%!" ++ [v] ++ str "(string=" ++ a ++ str ")")
        ++ Sprintf rest args'
    end
  | c :: rest => c :: Sprintf rest args
  end.

End fmt.

(** ** Errors *)

(** Go [error] values: the two sentinels of gotgbot's [ext] package, an
    error made by [errors.New] or by [fmt.Errorf] without [%w], and an
    error that wraps another one ([fmt.Errorf] with [%w]). *)
Inductive error : Type :=
| ContinueGroups
| EndGroups
| errorString (msg : gostring)
| wrapError (msg : gostring) (err : error).

(** The method [Error()]. *)
Definition Error_ (e : error) : gostring :=
  match e with
  | ContinueGroups => str "group iteration continued"
  | EndGroups => str "group iteration ended"
  | errorString msg => msg
  | wrapError msg _ => msg
  end.

Global Instance error_eq_dec : EqDecision error.
Proof. solve_decision. Defined.

(** [errors.Is]: [target] occurs on the chain of wrapped errors. *)
Fixpoint errors_Is (err target : error) : bool :=
  bool_decide (err = target)
  || match err with
     | wrapError _ inner => errors_Is inner target
     | _ => false
     end.

(** [fmt.Errorf(prefix + ": %w", err)]. *)
Definition Errorf_w (prefix : gostring) (err : error) : error :=
  wrapError (fmt.Sprintf (prefix ++ str ": %s") [Error_ err]) err.

(** A Go result pair [(value, error)] of which one side is meaningful. *)
Inductive result (A : Type) : Type :=
| Ok (a : A)
| Err (e : error).
Arguments Ok {A} a.
Arguments Err {A} e.

(** ** Package [net/url] *)

Module url.

(** The two modes this development needs; [PathEscape] uses the first. *)
Inductive encoding := encodePathSegment | encodeQueryComponent.

Global Instance encoding_eq_dec : EqDecision encoding.
Proof. solve_decision. Defined.

(** [shouldEscape(c, mode)]. *)
Definition shouldEscape (c : ascii) (mode : encoding) : bool :=
  if in_range "a" "z" c || in_range "A" "Z" c || in_range "0" "9" c then false
  else if is_one_of c (str "-_.~") then false
  else if is_one_of c (str "$&+,/:;=?@") then
    match mode with
    | encodePathSegment => is_one_of c (str "/;,?")
    | encodeQueryComponent => true
    end
  else true.

Definition upperhex : gostring := str "0123456789ABCDEF".

Definition hexdigit (table : gostring) (n : Z) : ascii :=
  nth (Z.to_nat n) table "000"%char.

(** [escape(s, mode)]: the counting pass. *)
Fixpoint escape_count (s : gostring) (mode : encoding) : nat * nat :=
  match s with
  | [] => (0, 0)%nat
  | c :: s' =>
    let '(spaceCount, hexCount) := escape_count s' mode in
    if shouldEscape c mode then
      if bool_decide (c = " "%char) && bool_decide (mode = encodeQueryComponent)
      then (S spaceCount, hexCount)
      else (spaceCount, S hexCount)
    else (spaceCount, hexCount)
  end.

(** [escape(s, mode)]: the writing pass. *)
Fixpoint escape_write (s : gostring) (mode : encoding) : gostring :=
  match s with
  | [] => []
  | c :: s' =>
    if bool_decide (c = " "%char) && bool_decide (mode = encodeQueryComponent)
    then "+"%char :: escape_write s' mode
    else if shouldEscape c mode then
      "%"%char :: hexdigit upperhex (Z.shiftr (byteZ c) 4)
               :: hexdigit upperhex (Z.land (byteZ c) 15)
               :: escape_write s' mode
    else c :: escape_write s' mode
  end.

Definition escape (s : gostring) (mode : encoding) : gostring :=
  let '(spaceCount, hexCount) := escape_count s mode in
  if (spaceCount =? 0)%nat && (hexCount =? 0)%nat then s
  else escape_write s mode.

(** [url.PathEscape]. *)
Definition PathEscape (s : gostring) : gostring := escape s encodePathSegment.

Definition ishex (c : ascii) : bool :=
  in_range "0" "9" c || in_range "a" "f" c || in_range "A" "F" c.

Definition unhex (c : ascii) : Z :=
  if in_range "0" "9" c then byteZ c - byteZ "0"
  else if in_range "a" "f" c then byteZ c - byteZ "a" + 10
  else if in_range "A" "F" c then byteZ c - byteZ "A" + 10
  else 0.

(** [EscapeError(s)] with its message (the operand is quoted as
    [strconv.Quote] quotes printable text). *)
Definition EscapeError (s : gostring) : error :=
  errorString (str "invalid URL escape " ++ [dquote] ++ s ++ [dquote]).

(** [unescape(s, mode)]: the checking pass; [Ok (n, hasPlus)] or the
    escape error. *)
Fixpoint unescape_check (s : gostring) (mode : encoding) : result (nat * bool) :=
  match s with
  | [] => Ok (0%nat, false)
  | c :: s' =>
    if bool_decide (c = "%"%char) then
      match s' with
      | a :: b :: s'' =>
        if ishex a && ishex b then
          match unescape_check s'' mode with
          | Ok (n, hasPlus) => Ok (S n, hasPlus)
          | Err e => Err e
          end
        else Err (EscapeError (take 3 s))
      | _ => Err (EscapeError (take 3 s))
      end
    else
      match unescape_check s' mode with
      | Ok (n, hasPlus) =>
        Ok (n, if bool_decide (c = "+"%char)
               then bool_decide (mode = encodeQueryComponent) || hasPlus
               else hasPlus)
      | Err e => Err e
      end
  end.

(** [unescape(s, mode)]: the writing pass, run on a checked string. *)
Fixpoint unescape_write (s : gostring) (mode : encoding) : gostring :=
  match s with
  | [] => []
  | c :: s' =>
    if bool_decide (c = "%"%char) then
      match s' with
      | a :: b :: s'' =>
        byte_of_Z (Z.lor (Z.shiftl (unhex a) 4) (unhex b)) :: unescape_write s'' mode
      | _ => []
      end
    else if bool_decide (c = "+"%char) then
      (if bool_decide (mode = encodeQueryComponent) then " "%char else "+"%char)
        :: unescape_write s' mode
    else c :: unescape_write s' mode
  end.

Definition unescape (s : gostring) (mode : encoding) : result gostring :=
  match unescape_check s mode with
  | Err e => Err e
  | Ok (n, hasPlus) =>
    if (n =? 0)%nat && negb hasPlus then Ok s
    else Ok (unescape_write s mode)
  end.

(** [url.PathUnescape]. *)
Definition PathUnescape (s : gostring) : result gostring :=
  unescape s encodePathSegment.

End url.

(** ** Packages [text/template] and [html/template]

    The fragment the program uses: templates whose actions are field
    references [{{.Field}}], inside HTML made of elements with quoted
    attributes.  A construct outside the fragment is reported as an error,
    so a result [Ok] is a result of the real engine. *)

Module template.

(** The escapers [html/template] adds to a pipeline. *)
Inductive escaper :=
| htmlescaper | attrescaper | urlfilter | urlnormalizer | urlescaper.

Inductive Node :=
| TextNode (text : gostring)
| ActionNode (field : gostring) (pipe : list escaper).

Definition unsupported (what : string) : error :=
  errorString (str "template: not in the modelled fragment: " ++ str what).

(** *** The lexer and parser of [text/template] *)

(** The text up to the next left delimiter, and what follows it. *)
Fixpoint lexText (s : gostring) : gostring * option gostring :=
  match s with
  | [] => ([], None)
  | c :: s' =>
    match s' with
    | c' :: rest =>
      if bool_decide (c = "{"%char) && bool_decide (c' = "{"%char)
      then ([], Some rest)
      else let '(t, r) := lexText s' in (c :: t, r)
    | [] => ([c], None)
    end
  end.

(** The inside of an action up to the right delimiter, and what follows. *)
Fixpoint lexInsideAction (s : gostring) : option (gostring * gostring) :=
  match s with
  | [] => None
  | c :: s' =>
    match s' with
    | c' :: rest =>
      if bool_decide (c = "}"%char) && bool_decide (c' = "}"%char)
      then Some ([], rest)
      else match lexInsideAction s' with
           | Some (a, r) => Some (c :: a, r)
           | None => None
           end
    | [] => None
    end
  end.

Definition isSpace (c : ascii) : bool := is_one_of c [" "; "009"; "013"; "010"]%char.

Fixpoint skipSpace (s : gostring) : gostring :=
  match s with
  | c :: s' => if isSpace c then skipSpace s' else s
  | [] => []
  end.

Definition isAlphaNumeric (c : ascii) : bool :=
  bool_decide (c = "_"%char)
  || in_range "a" "z" c || in_range "A" "Z" c || in_range "0" "9" c.

(** An action that is one field reference [.Name]. *)
Definition parseField (action : gostring) : option gostring :=
  match reverse (skipSpace (reverse (skipSpace action))) with
  | c :: name =>
    if bool_decide (c = "."%char) && negb (bool_decide (name = []))
       && forallb isAlphaNumeric name
    then Some name else None
  | [] => None
  end.

Fixpoint parse_go (n : nat) (s : gostring) : result (list Node) :=
  match n with
  | O => Ok []
  | S n' =>
    let '(text, rest) := lexText s in
    let pre := if bool_decide (text = []) then [] else [TextNode text] in
    match rest with
    | None => Ok pre
    | Some r =>
      match lexInsideAction r with
      | None => Err (errorString (str "template: unclosed action"))
      | Some (action, r') =>
        match parseField action with
        | None => Err (unsupported "action")
        | Some field =>
          match parse_go n' r' with
          | Ok ns => Ok (pre ++ ActionNode field [] :: ns)
          | Err e => Err e
          end
        end
      end
    end
  end.

(** [template.New(name).Parse(text)]. *)
Definition Parse (text : gostring) : result (list Node) :=
  parse_go (S (length text)) text.

(** *** The contexts of [html/template] *)

Inductive state :=
| stateText | stateTag | stateAttrName | stateAfterName | stateBeforeValue
| stateAttr | stateURL | stateError.
Inductive delim :=
| delimNone | delimDoubleQuote | delimSingleQuote | delimSpaceOrTagEnd.
Inductive urlPart :=
| urlPartNone | urlPartPreQuery | urlPartQueryOrFrag | urlPartUnknown.
Inductive attr := attrNone | attrURL.

Record context := mkContext {
  c_state : state;
  c_delim : delim;
  c_urlPart : urlPart;
  c_attr : attr;
  c_err : option error
}.

Global Instance state_eq_dec : EqDecision state.
Proof. solve_decision. Defined.
Global Instance delim_eq_dec : EqDecision delim.
Proof. solve_decision. Defined.
Global Instance urlPart_eq_dec : EqDecision urlPart.
Proof. solve_decision. Defined.

Definition inState (st : state) : context :=
  mkContext st delimNone urlPartNone attrNone None.

Definition errorContext (e : error) : context :=
  mkContext stateError delimNone urlPartNone attrNone (Some e).

Definition asciiAlpha (c : ascii) : bool :=
  in_range "A" "Z" c || in_range "a" "z" c.
Definition asciiAlphaNum (c : ascii) : bool :=
  asciiAlpha c || in_range "0" "9" c.

(** [eatWhiteSpace]. *)
Fixpoint eatWhiteSpace (s : gostring) : gostring :=
  match s with
  | c :: s' =>
    if is_one_of c [" "; "009"; "010"; "012"; "013"]%char then eatWhiteSpace s' else s
  | [] => []
  end.

(** [eatTagName] after its first letter: the name and the rest. *)
Fixpoint eatTagNameTail (s : gostring) : gostring * gostring :=
  match s with
  | [] => ([], [])
  | x :: s' =>
    if asciiAlphaNum x then
      let '(name, r) := eatTagNameTail s' in (x :: name, r)
    else
      match s' with
      | y :: s'' =>
        if (bool_decide (x = ":"%char) || bool_decide (x = "-"%char)) && asciiAlphaNum y
        then let '(name, r) := eatTagNameTail s'' in (x :: y :: name, r)
        else ([], s)
      | [] => ([], s)
      end
  end.

Definition eatTagName (s : gostring) : gostring * gostring :=
  match s with
  | c :: s' =>
    if asciiAlpha c then let '(name, r) := eatTagNameTail s' in (c :: name, r)
    else ([], s)
  | [] => ([], [])
  end.

(** The elements whose content is not ordinary text. *)
Definition specialElement (name : gostring) : bool :=
  bool_decide (name ∈ [str "script"; str "style"; str "textarea"; str "title"]).

(** [tText]: in text, up to the next tag. *)
Fixpoint tText (c : context) (s : gostring) : context * gostring :=
  match s with
  | [] => (c, [])
  | x :: rest =>
    if bool_decide (x = "<"%char) then
      let '(isEnd, r1) :=
        match rest with
        | y :: r => if bool_decide (y = "/"%char) then (true, r) else (false, rest)
        | [] => (false, rest)
        end in
      let '(name, r2) := eatTagName r1 in
      if bool_decide (name = []) then
        (errorContext (unsupported "a < that does not start a tag"), [])
      else if negb isEnd && specialElement (strings.ToLower name) then
        (errorContext (unsupported "element"), [])
      else (inState stateTag, r2)
    else tText c rest
  end.

(** [eatAttrName]: the attribute name and the rest, or the error for a
    quote or [<] in the name. *)
Fixpoint eatAttrName (s : gostring) : option (gostring * gostring) :=
  match s with
  | [] => Some ([], [])
  | c :: s' =>
    if is_one_of c [" "; "009"; "010"; "012"; "013"; "="; ">"]%char then Some ([], s)
    else if is_one_of c ["'"%char; dquote; "<"%char] then None
    else match eatAttrName s' with
         | Some (name, r) => Some (c :: name, r)
         | None => None
         end
  end.

(** [attrType], for the attribute of the fragment. *)
Definition attrType (name : gostring) : option attr :=
  if bool_decide (name = str "href") then Some attrURL else None.

(** [tTag]: inside a tag, before an attribute name or the closing [>]. *)
Definition tTag (c : context) (s : gostring) : context * gostring :=
  match eatWhiteSpace s with
  | [] => (c, [])
  | x :: r =>
    if bool_decide (x = ">"%char) then (inState stateText, r)
    else
      match eatAttrName (x :: r) with
      | None => (errorContext (errorString (str "html/template: bad character in attribute name")), [])
      | Some (name, r2) =>
        if bool_decide (name = []) then
          (errorContext (errorString (str "html/template: expected space, attr name, or end of tag")), [])
        else
          match attrType (strings.ToLower name) with
          | None => (errorContext (unsupported "attribute"), [])
          | Some a =>
            (mkContext (if bool_decide (r2 = []) then stateAttrName else stateAfterName)
                       delimNone urlPartNone a None, r2)
          end
      end
  end.

(** [tAfterName]. *)
Definition tAfterName (c : context) (s : gostring) : context * gostring :=
  match eatWhiteSpace s with
  | [] => (c, [])
  | x :: r =>
    if bool_decide (x = "="%char)
    then (mkContext stateBeforeValue (c_delim c) (c_urlPart c) (c_attr c) (c_err c), r)
    else (mkContext stateTag (c_delim c) (c_urlPart c) (c_attr c) (c_err c), x :: r)
  end.

(** [attrStartStates]. *)
Definition attrStartStates (a : attr) : state :=
  match a with attrNone => stateAttr | attrURL => stateURL end.

(** [tBeforeValue]. *)
Definition tBeforeValue (c : context) (s : gostring) : context * gostring :=
  match eatWhiteSpace s with
  | [] => (c, [])
  | x :: r =>
    if bool_decide (x = "'"%char) then
      (mkContext (attrStartStates (c_attr c)) delimSingleQuote (c_urlPart c) (c_attr c) (c_err c), r)
    else if bool_decide (x = dquote) then
      (mkContext (attrStartStates (c_attr c)) delimDoubleQuote (c_urlPart c) (c_attr c) (c_err c), r)
    else
      (mkContext (attrStartStates (c_attr c)) delimSpaceOrTagEnd (c_urlPart c) (c_attr c) (c_err c),
       x :: r)
  end.

(** [tURL], on a chunk that holds no character reference. *)
Definition tURL (c : context) (s : gostring) : context * gostring :=
  if existsb (fun x => is_one_of x (str "#?")) s then
    (mkContext (c_state c) (c_delim c) urlPartQueryOrFrag (c_attr c) (c_err c), [])
  else if negb (bool_decide (eatWhiteSpace s = []))
          && bool_decide (c_urlPart c = urlPartNone) then
    (mkContext (c_state c) (c_delim c) urlPartPreQuery (c_attr c) (c_err c), [])
  else (c, []).

(** [contextAfterText]: one transition, and the text left. *)
Definition contextAfterText (c : context) (s : gostring) : context * gostring :=
  match c_delim c with
  | delimNone =>
    match c_state c with
    | stateText => tText c s
    | stateTag => tTag c s
    | stateAfterName => tAfterName c s
    | stateBeforeValue => tBeforeValue c s
    | _ => (errorContext (unsupported "state"), [])
    end
  | delimSpaceOrTagEnd => (errorContext (unsupported "unquoted attribute value"), [])
  | d =>
    let q := if bool_decide (d = delimDoubleQuote) then dquote else "'"%char in
    let '(_, after, found) := strings.Cut s q in
    if found then (inState stateTag, after)
    else if is_one_of "&"%char s then
      (errorContext (unsupported "character reference in an attribute value"), [])
    else
      match c_state c with
      | stateURL => tURL c s
      | _ => (c, [])
      end
  end.

(** The loop of [escapeText]; [n] bounds the number of transitions. *)
Fixpoint escapeText_go (n : nat) (c : context) (s : gostring) : context :=
  match s with
  | [] => c
  | _ :: _ =>
    match n with
    | O => errorContext (errorString (str "html/template: infinite loop"))
    | S n' =>
      let '(c1, rest) := contextAfterText c s in
      escapeText_go n' c1 rest
    end
  end.

Definition escapeText (c : context) (s : gostring) : context :=
  escapeText_go (2 * length s + 2) c s.

(** [escapeAction]: the escapers for an action met in context [c]. *)
Definition escapeAction (c : context) : result (list escaper) :=
  let byState :=
    match c_state c with
    | stateText => Ok [htmlescaper]
    | stateAttr => Ok []
    | stateURL =>
      match c_urlPart c with
      | urlPartNone => Ok [urlfilter; urlnormalizer]
      | urlPartPreQuery => Ok [urlnormalizer]
      | urlPartQueryOrFrag => Ok [urlescaper]
      | urlPartUnknown =>
        Err (errorString (str "html/template: action appears in an ambiguous context within a URL"))
      end
    | stateError => Err (default (unsupported "state") (c_err c))
    | _ => Err (unsupported "action inside a tag")
    end in
  match byState with
  | Err e => Err e
  | Ok l =>
    match c_delim c with
    | delimNone => Ok l
    | delimSpaceOrTagEnd => Err (unsupported "unquoted attribute value")
    | _ => Ok (l ++ [attrescaper])
    end
  end.

Fixpoint escapeList (c : context) (ns : list Node) : result (list Node) :=
  match ns with
  | [] =>
    if bool_decide (c_state c = stateText) then Ok []
    else Err (default (errorString (str "html/template: ends in a non-text context")) (c_err c))
  | TextNode text :: ns' =>
    match escapeList (escapeText c text) ns' with
    | Ok r => Ok (TextNode text :: r)
    | Err e => Err e
    end
  | ActionNode field pipe :: ns' =>
    match escapeAction c with
    | Err e => Err e
    | Ok esc =>
      match escapeList c ns' with
      | Ok r => Ok (ActionNode field (pipe ++ esc) :: r)
      | Err e => Err e
      end
    end
  end.

(** The escaping pass that the first [Execute] runs on the parsed tree. *)
Definition escapeTemplate (ns : list Node) : result (list Node) :=
  escapeList (inState stateText) ns.

(** *** The escapers *)

(** [htmlReplacementTable]; an empty entry means no replacement. *)
Definition htmlReplacementTable (c : ascii) : gostring :=
  if bool_decide (c = "000"%char) then [byte_of_Z 0xEF; byte_of_Z 0xBF; byte_of_Z 0xBD]
  else if bool_decide (c = dquote) then str "&#34;"
  else if bool_decide (c = "&"%char) then str "&amp;"
  else if bool_decide (c = "'"%char) then str "&#39;"
  else if bool_decide (c = "+"%char) then str "&#43;"
  else if bool_decide (c = "<"%char) then str "&lt;"
  else if bool_decide (c = ">"%char) then str "&gt;"
  else [].

(** [htmlReplacer(s, htmlReplacementTable, true)].  The source walks the
    runes of [s]; every rune the table replaces is one ASCII byte and no
    byte of another rune is ASCII, so the walk is a walk over bytes. *)
Fixpoint htmlReplacer (s : gostring) : gostring :=
  match s with
  | [] => []
  | c :: s' =>
    (if bool_decide (htmlReplacementTable c = []) then [c] else htmlReplacementTable c)
      ++ htmlReplacer s'
  end.

(** [htmlEscaper] and [attrEscaper] on a plain string. *)
Definition htmlEscaper (s : gostring) : gostring := htmlReplacer s.
Definition attrEscaper (s : gostring) : gostring := htmlReplacer s.

Definition lowerhex : gostring := str "0123456789abcdef".

Definition isHex (c : ascii) : bool :=
  in_range "0" "9" c || in_range "a" "f" c || in_range "A" "F" c.

(** [processURLOnto(s, norm, b)]: the bytes written to [b]. *)
Fixpoint processURLOnto (s : gostring) (norm : bool) : gostring :=
  match s with
  | [] => []
  | c :: s' =>
    let keep :=
      if is_one_of c (str "!#$&*+,/:;=?@[]") then norm
      else if is_one_of c (str "-._~") then true
      else if bool_decide (c = "%"%char) then
        norm && match s' with
                | a :: b :: _ => isHex a && isHex b
                | _ => false
                end
      else in_range "a" "z" c || in_range "A" "Z" c || in_range "0" "9" c in
    (if keep then [c]
     else ["%"%char; nth (Z.to_nat (Z.shiftr (byteZ c) 4)) lowerhex "0"%char;
           nth (Z.to_nat (Z.land (byteZ c) 15)) lowerhex "0"%char])
      ++ processURLOnto s' norm
  end.

(** [urlNormalizer] and [urlEscaper] on a plain string. *)
Definition urlNormalizer (s : gostring) : gostring := processURLOnto s true.
Definition urlEscaper (s : gostring) : gostring := processURLOnto s false.

(** [isSafeURL]. *)
Definition isSafeURL (s : gostring) : bool :=
  let '(protocol, _, ok) := strings.Cut s ":"%char in
  if ok && negb (strings.ContainsByte protocol "/"%char) then
    if negb (strings.EqualFold protocol (str "http"))
       && negb (strings.EqualFold protocol (str "https"))
       && negb (strings.EqualFold protocol (str "mailto"))
    then false else true
  else true.

Definition filterFailsafe : gostring := str "ZgotmplZ".

(** [urlFilter] on a plain string. *)
Definition urlFilter (s : gostring) : gostring :=
  if negb (isSafeURL s) then str "#" ++ filterFailsafe else s.

Definition runEscaper (e : escaper) (s : gostring) : gostring :=
  match e with
  | htmlescaper => htmlEscaper s
  | attrescaper => attrEscaper s
  | urlfilter => urlFilter s
  | urlnormalizer => urlNormalizer s
  | urlescaper => urlEscaper s
  end.

(** *** Execution *)

(** The data of a template: a struct of string fields, looked up by
    field name. *)
Definition data := gostring -> option gostring.

Fixpoint exec (ns : list Node) (d : data) : result gostring :=
  match ns with
  | [] => Ok []
  | TextNode text :: ns' =>
    match exec ns' d with
    | Ok out => Ok (text ++ out)
    | Err e => Err e
    end
  | ActionNode field pipe :: ns' =>
    match d field with
    | None => Err (errorString (str "template: can't evaluate field " ++ field))
    | Some v =>
      match exec ns' d with
      | Ok out => Ok (foldl (fun v e => runEscaper e v) v pipe ++ out)
      | Err e => Err e
      end
    end
  end.

(** [tpl.Execute(&buf, data)] into an empty buffer: the text written, or
    the error of the escaping pass or of the evaluation. *)
Definition Execute (tpl : list Node) (d : data) : result gostring :=
  match escapeTemplate tpl with
  | Err e => Err e
  | Ok ns => exec ns d
  end.

End template.

(** ** Package [spotify] (github.com/zmb3/spotify/v2): the data read *)

Module spotify.

Module SimpleArtist.
Record t := mk { Name : gostring }.
End SimpleArtist.

Module FullTrack.
Record t := mk {
  Name : gostring;
  Artists : list SimpleArtist.t;
  ExternalURLs : gmap gostring gostring
}.
End FullTrack.

Module FullTrackPage.
Record t := mk {
  Total : Z;
  Tracks : list FullTrack.t
}.
End FullTrackPage.

(** [SearchResult.Tracks] is a pointer: [None] is [nil]. *)
Module SearchResult.
Record t := mk { Tracks : option FullTrackPage.t }.
End SearchResult.

End spotify.

(** ** Package [gotgbot]: the data read and written *)

Module gotgbot.

Module Audio.
Record t := mk {
  Title : gostring;
  Performer : gostring;
  FileName : gostring
}.
End Audio.

(** [Message.Audio] is a pointer: [None] is [nil]. *)
Module Message.
Record t := mk {
  MessageId : Z;
  Text : gostring;
  Audio : option Audio.t
}.
End Message.

Module Update.
Record t := mk {
  UpdateId : Z;
  Message : option Message.t;
  EditedMessage : option Message.t;
  ChannelPost : option Message.t;
  EditedChannelPost : option Message.t
}.
End Update.

Module InlineKeyboardButton.
Record t := mk { Text : gostring; Url : gostring }.
End InlineKeyboardButton.

Module InlineKeyboardMarkup.
Record t := mk { InlineKeyboard : list (list InlineKeyboardButton.t) }.
End InlineKeyboardMarkup.

Module LinkPreviewOptions.
Record t := mk { PreferSmallMedia : bool; ShowAboveText : bool }.
End LinkPreviewOptions.

Module SendMessageOpts.
Record t := mk {
  ParseMode : gostring;
  LinkPreviewOptions : option LinkPreviewOptions.t;
  ReplyMarkup : option InlineKeyboardMarkup.t
}.
End SendMessageOpts.

End gotgbot.

Module parsemode.
Definition Html : gostring := str "HTML".
End parsemode.

(** ** Effects

    A handler talks to Telegram, to Spotify and to the logger.  What they
    answer is given by a [World]; what the handler did is recorded, in
    order, as a list of [Event]s.  A computation either returns or panics
    (a nil dereference, an index out of range).

    The errors of the libraries are values of their own types, told apart
    here by their messages: none of them is a sentinel of gotgbot. *)

Inductive answer (A : Type) : Type :=
| Answer (a : A)
| Failure (msg : gostring).
Arguments Answer {A} a.
Arguments Failure {A} msg.

Definition toResult {A} (r : answer A) : result A :=
  match r with
  | Answer a => Ok a
  | Failure msg => Err (errorString msg)
  end.

Record World := mkWorld {
  (** [log.IsLevelEnabled(log.DebugLevel)] *)
  debugEnabled : bool;
  (** [json.Marshal(&ctx.Update)] *)
  jsonMarshal : gotgbot.Update.t -> answer gostring;
  (** [spotifyClient.Search(ctx, query, spotify.SearchTypeTrack)] *)
  spotifySearch : gostring -> answer spotify.SearchResult.t;
  (** the error of [msg.Reply(bot, text, opts)], [None] for [nil] *)
  sendMessage : gotgbot.Message.t -> gostring -> option gotgbot.SendMessageOpts.t
                -> option gostring
}.

Inductive Event :=
| Replied (to : gotgbot.Message.t) (text : gostring) (opts : option gotgbot.SendMessageOpts.t)
| Searched (query : gostring)
| LoggedError (msg : gostring) (err : error)
| LoggedDebug (msg : gostring) (data : gostring).

Inductive outcome (A : Type) : Type :=
| Returned (a : A)
| Panicked (msg : gostring).
Arguments Returned {A} a.
Arguments Panicked {A} msg.

Definition M (A : Type) : Type := list Event -> outcome A * list Event.

Definition ret {A} (a : A) : M A := fun tr => (Returned a, tr).

Definition bind {A B} (m : M A) (k : A -> M B) : M B :=
  fun tr =>
    match m tr with
    | (Returned a, tr') => k a tr'
    | (Panicked msg, tr') => (Panicked msg, tr')
    end.

Definition emit (e : Event) : M unit := fun tr => (Returned tt, tr ++ [e]).

Definition panic {A} (msg : string) : M A := fun tr => (Panicked (str msg), tr).

Notation "x <- m ;; k" := (bind m (fun x => k))
  (at level 100, m at next level, right associativity).
Notation "m ;;; k" := (bind m (fun _ => k))
  (at level 100, right associativity).

(** Dereferencing a pointer. *)
Definition deref {A} (p : option A) : M A :=
  match p with
  | Some a => ret a
  | None => panic "runtime error: invalid memory address or nil pointer dereference"
  end.

(** [l[i]] on a slice. *)
Definition index {A} (l : list A) (i : nat) : M A :=
  match l !! i with
  | Some a => ret a
  | None => panic "runtime error: index out of range"
  end.

(** ** Package [ext] of gotgbot: contexts, handlers and the dispatcher *)

Module ext.

(** [ext.Context] embeds the update; [EffectiveMessage] is the message
    the update carries, whatever its kind. *)
Module Context.
Record t := mk {
  Update : gotgbot.Update.t;
  EffectiveMessage : option gotgbot.Message.t
}.
End Context.

Definition firstSome {A} (l : list (option A)) : option A :=
  foldr (fun o acc => match o with Some a => Some a | None => acc end) None l.

(** [ext.NewContext]. *)
Definition NewContext (u : gotgbot.Update.t) : Context.t :=
Context.mk u
    (firstSome [gotgbot.Update.Message u; gotgbot.Update.EditedMessage u;
                gotgbot.Update.ChannelPost u; gotgbot.Update.EditedChannelPost u]).

(** The interface [ext.Handler]. *)
Module Handler.
Record t := mk {
  CheckUpdate : Context.t -> bool;
  HandleUpdate : World -> Context.t -> M (option error);
  Name : gostring
}.
End Handler.

Inductive DispatcherAction :=
| DispatcherActionNoop
| DispatcherActionContinueGroups
| DispatcherActionEndGroups.

(** The dispatcher: its error callback and its handler groups, kept in
    increasing order of group number. *)
Module Dispatcher.
Record t := mk {
  Error : Context.t -> error -> M DispatcherAction;
  handlers : list (Z * list Handler.t)
}.
End Dispatcher.

Definition NewDispatcher (onError : Context.t -> error -> M DispatcherAction) : Dispatcher.t :=
  Dispatcher.mk onError [].

(** [handlerMapping.add]: append to the group, which is created in its
    place in the order of group numbers when it is new. *)
Fixpoint addToGroups (gs : list (Z * list Handler.t)) (h : Handler.t) (group : Z)
    : list (Z * list Handler.t) :=
  match gs with
  | [] => [(group, [h])]
  | (g, hs) :: gs' =>
    if group <? g then (group, [h]) :: gs
    else if group =? g then (g, hs ++ [h]) :: gs'
    else (g, hs) :: addToGroups gs' h group
  end.

Definition AddHandlerToGroup (d : Dispatcher.t) (h : Handler.t) (group : Z) : Dispatcher.t :=
  Dispatcher.mk (Dispatcher.Error d) (addToGroups (Dispatcher.handlers d) h group).

Definition AddHandler (d : Dispatcher.t) (h : Handler.t) : Dispatcher.t :=
  AddHandlerToGroup d h 0.

(** What the inner loop of [iterateOverHandlerGroups] decides. *)
Inductive groupResult := NextGroup | StopGroups.

(** The inner loop: the handlers of one group, in order. *)
Fixpoint iterateGroup (d : Dispatcher.t) (w : World) (ctx : Context.t)
    (hs : list Handler.t) : M groupResult :=
  match hs with
  | [] => ret NextGroup
  | h :: hs' =>
    if negb (Handler.CheckUpdate h ctx) then iterateGroup d w ctx hs'
    else
      err <- Handler.HandleUpdate h w ctx ;;
      match err with
      | None => ret NextGroup
      | Some e =>
        if errors_Is e ContinueGroups then iterateGroup d w ctx hs'
        else if errors_Is e EndGroups then ret StopGroups
        else
          action <- Dispatcher.Error d ctx e ;;
          match action with
          | DispatcherActionNoop => ret NextGroup
          | DispatcherActionContinueGroups => iterateGroup d w ctx hs'
          | DispatcherActionEndGroups => ret StopGroups
          end
      end
  end.

(** The outer loop, over the groups. *)
Fixpoint iterateGroups (d : Dispatcher.t) (w : World) (ctx : Context.t)
    (gs : list (Z * list Handler.t)) : M (option error) :=
  match gs with
  | [] => ret None
  | (_, hs) :: gs' =>
    r <- iterateGroup d w ctx hs ;;
    match r with
    | NextGroup => iterateGroups d w ctx gs'
    | StopGroups => ret None
    end
  end.

Definition iterateOverHandlerGroups (d : Dispatcher.t) (w : World) (ctx : Context.t)
    : M (option error) :=
  iterateGroups d w ctx (Dispatcher.handlers d).

Definition ErrPanicRecovered : error := errorString (str "panic recovered").

(** [Dispatcher.ProcessUpdate] without a panic callback: a panic of a
    handler is recovered and returned as an error. *)
Definition ProcessUpdate (d : Dispatcher.t) (w : World) (u : gotgbot.Update.t)
    : list Event -> option error * list Event :=
  fun tr =>
    match iterateOverHandlerGroups d w (NewContext u) tr with
    | (Returned err, tr') => (err, tr')
    | (Panicked msg, tr') => (Some (wrapError (Error_ ErrPanicRecovered ++ str ": " ++ msg) ErrPanicRecovered), tr')
    end.

(** [handlers.NewMessage(filter, response)]: matches new messages only
    (edited messages and channel posts are not allowed by default). *)
Definition NewMessage (filter : gotgbot.Message.t -> bool)
    (response : World -> Context.t -> M (option error)) : Handler.t :=
  Handler.mk
    (fun ctx =>
       match gotgbot.Update.Message (Context.Update ctx) with
       | Some m => filter m
       | None => false
       end)
    response
    (str "message").

End ext.

(** The filters of package [message]. *)
Module message.
Definition Audio (msg : gotgbot.Message.t) : bool :=
  bool_decide (gotgbot.Message.Audio msg <> None).
Definition All (_ : gotgbot.Message.t) : bool := true.
End message.

(** ** The program: [main.go] *)

(** [msg.Reply(bot, text, opts)]: the call is recorded and its error
    returned. *)
Definition sendError (w : World) (msg : gotgbot.Message.t) (text : gostring)
    (opts : option gotgbot.SendMessageOpts.t) : option error :=
  errorString <$> sendMessage w msg text opts.

Definition Reply (w : World) (msg : gotgbot.Message.t) (text : gostring)
    (opts : option gotgbot.SendMessageOpts.t) : M (option error) :=
  emit (Replied msg text opts) ;;; ret (sendError w msg text opts).

Definition checkSendMsgErr (err : option error) : M unit :=
  match err with
  | None => ret tt
  | Some e => emit (LoggedError (str "Failed to send message") e)
  end.

Definition searchSpotify (w : World) (query : gostring) : M (result spotify.SearchResult.t) :=
  emit (Searched query) ;;; ret (toResult (spotifySearch w query)).

(** [buildSpotifyUserSearchURL]. *)
Definition buildSpotifyUserSearchURL (query : gostring) : gostring :=
  let baseURL := str "https://open.spotify.com/search" in
  fmt.Sprintf (str "%s/%s") [baseURL; url.PathEscape query].

Record trackData := mkTrackData {
  td_Name : gostring;
  td_Artists : gostring;
  td_URL : gostring
}.

(** The fields of [trackData] by name, as the template engine finds them. *)
Definition trackData_field (td : trackData) : template.data :=
  fun name =>
    if bool_decide (name = str "Name") then Some (td_Name td)
    else if bool_decide (name = str "Artists") then Some (td_Artists td)
    else if bool_decide (name = str "URL") then Some (td_URL td)
    else None.

(** The template text of [buildResultText]. *)
Definition trackTemplate : gostring :=
  str "<a href=" ++ [dquote] ++ str "{{.URL}}" ++ [dquote] ++ str ">{{.Name}}</a>"
    ++ ["010"%char] ++ str "by <b>{{.Artists}}</b>".

(** [buildResultText]: the pair [(text, err)]. *)
Definition buildResultText (track : spotify.FullTrack.t) : gostring * option error :=
  let artists := map spotify.SimpleArtist.Name (spotify.FullTrack.Artists track) in
  match template.Parse trackTemplate with
  | Err err => ([], Some err)
  | Ok tpl =>
    let td := {|
      td_Name := spotify.FullTrack.Name track;
      td_Artists := strings.Join artists (str ", ");
      td_URL := default [] (spotify.FullTrack.ExternalURLs track !! str "spotify")
    |} in
    match template.Execute tpl (trackData_field td) with
    | Err err => ([], Some err)
    | Ok text => (text, None)
    end
  end.

(** Lines 198-206 of [handleAudioMessage]: the search query of an audio
    attachment, empty when there is nothing to search for. *)
Definition audioQuery (a : gotgbot.Audio.t) : gostring :=
  let title := strings.TrimSpace (gotgbot.Audio.Title a) in
  let author := strings.TrimSpace (gotgbot.Audio.Performer a) in
  let query := strings.TrimSpace (fmt.Sprintf (str "%s %s") [title; author]) in
  if bool_decide (query = []) then
    let query := gotgbot.Audio.FileName a in
    let query := strings.TrimSuffix query (str ".mp3") in
    strings.TrimSpace query
  else query.

Definition searchBtn (query : gostring) : gotgbot.InlineKeyboardButton.t :=
  {| gotgbot.InlineKeyboardButton.Text := str "Search";
     gotgbot.InlineKeyboardButton.Url := buildSpotifyUserSearchURL query |}.

Definition searchMarkup (query : gostring) : gotgbot.InlineKeyboardMarkup.t :=
  {| gotgbot.InlineKeyboardMarkup.InlineKeyboard := [[searchBtn query]] |}.

(** The options of the reply that carries no track. *)
Definition noResultOpts (query : gostring) : gotgbot.SendMessageOpts.t :=
  {| gotgbot.SendMessageOpts.ParseMode := [];
     gotgbot.SendMessageOpts.LinkPreviewOptions := None;
     gotgbot.SendMessageOpts.ReplyMarkup := Some (searchMarkup query) |}.

(** The options of the reply that carries a track. *)
Definition trackOpts (query : gostring) : gotgbot.SendMessageOpts.t :=
  {| gotgbot.SendMessageOpts.ParseMode := parsemode.Html;
     gotgbot.SendMessageOpts.LinkPreviewOptions :=
       Some {| gotgbot.LinkPreviewOptions.PreferSmallMedia := true;
               gotgbot.LinkPreviewOptions.ShowAboveText := true |};
     gotgbot.SendMessageOpts.ReplyMarkup := Some (searchMarkup query) |}.

(** [handleAudioMessage]. *)
Definition handleAudioMessage (w : World) (ctx : ext.Context.t) : M (option error) :=
  msg <- deref (ext.Context.EffectiveMessage ctx) ;;
  audio <- deref (gotgbot.Message.Audio msg) ;;
  let query := audioQuery audio in
  if bool_decide (query = []) then
    errSendMsg <- Reply w msg (str "Audio metadata or filename is missing.") None ;;
    checkSendMsgErr errSendMsg ;;;
    ret (Some (errorString (str "audio metadata or filename is missing")))
  else
    res <- searchSpotify w query ;;
    match res with
    | Err err =>
      errSendMsg <- Reply w msg (str "Failed to search Spotify.") None ;;
      checkSendMsgErr errSendMsg ;;;
      ret (Some err)
    | Ok results =>
      page <- deref (spotify.SearchResult.Tracks results) ;;
      let total := spotify.FullTrackPage.Total page in
      if total =? 0 then
        let text := fmt.Sprintf (str "No results found on Spotify by query `%s`") [query] in
        Reply w msg text (Some (noResultOpts query))
      else
        track <- index (spotify.FullTrackPage.Tracks page) 0 ;;
        match buildResultText track with
        | (_, Some err) => ret (Some err)
        | (text, None) => Reply w msg text (Some (trackOpts query))
        end
    end.

(** [handleUnknownMessage]. *)
Definition handleUnknownMessage (w : World) (ctx : ext.Context.t) : M (option error) :=
  msg <- deref (ext.Context.EffectiveMessage ctx) ;;
  Reply w msg (str "Send me an audio file to search on Spotify.") None.

(** The handler [HandleAnything]. *)
Module HandleAnything.

Definition CheckUpdate (ctx : ext.Context.t) : bool := true.

Definition HandleUpdate (w : World) (ctx : ext.Context.t) : M (option error) :=
  if debugEnabled w then
    match toResult (jsonMarshal w (ext.Context.Update ctx)) with
    | Err err => ret (Some (Errorf_w (str "failed to marshal update") err))
    | Ok raw =>
      emit (LoggedDebug (str "Handling update") raw) ;;;
      ret (Some ContinueGroups)
    end
  else ret (Some ContinueGroups).

Definition Name : gostring := str "anything".

Definition handler : ext.Handler.t := ext.Handler.mk CheckUpdate HandleUpdate Name.

End HandleAnything.

(** The error callback that [main] gives to [ext.NewDispatcher]. *)
Definition dispatcherError (ctx : ext.Context.t) (err : error) : M ext.DispatcherAction :=
  emit (LoggedError (str "An error occurred while handling update") err) ;;;
  ret ext.DispatcherActionEndGroups.

(** The dispatcher as [main] builds it. *)
Definition dispatcher : ext.Dispatcher.t :=
  let d := ext.NewDispatcher dispatcherError in
  let d := ext.AddHandlerToGroup d HandleAnything.handler (-1) in
  let d := ext.AddHandler d (ext.NewMessage message.Audio handleAudioMessage) in
  ext.AddHandler d (ext.NewMessage message.All handleUnknownMessage).

(** ** Telegram's HTML style, the format of a reply sent with
    [parsemode.Html]

    In text and in attribute values the characters [<], [>] and [&] stand
    only inside character references; tags are [<name>],
    [<name attr="value">] and [</name>], properly nested. *)

Module richtext.

Fixpoint isPrefix (p s : gostring) : bool :=
  match p, s with
  | [], _ => true
  | _ :: _, [] => false
  | a :: p', b :: s' => bool_decide (a = b) && isPrefix p' s'
  end.

(** One or more digits, then a semicolon. *)
Fixpoint digitsSemi (isDigit : ascii -> bool) (seen : bool) (s : gostring) : bool :=
  match s with
  | [] => false
  | c :: s' =>
    if isDigit c then digitsSemi isDigit true s'
    else bool_decide (c = ";"%char) && seen
  end.

(** [s] starts with a character reference: one of the four named ones
    that Telegram knows, or a numeric one. *)
Definition startsEntity (s : gostring) : bool :=
  isPrefix (str "&lt;") s || isPrefix (str "&gt;") s
  || isPrefix (str "&amp;") s || isPrefix (str "&quot;") s
  || match s with
     | a :: h :: x :: s' =>
       bool_decide (a = "&"%char) && bool_decide (h = "#"%char)
       && (if bool_decide (x = "x"%char) then digitsSemi template.isHex false s'
           else digitsSemi (in_range "0" "9") false (x :: s'))
     | _ => false
     end.

Inductive mode :=
| inText
| tagStart
| openName (name : gostring)
| closeName (name : gostring)
| inTag (name : gostring)
| attrName (name : gostring)
| attrEq (name : gostring)
| attrValue (name : gostring).

Definition nameChar (c : ascii) : bool :=
  template.asciiAlphaNum c || bool_decide (c = "-"%char).

(** The scanner: [m] is where it stands, [open] the elements that are
    open, innermost first. *)
Fixpoint wellFormed_go (m : mode) (open : list gostring) (s : gostring) : bool :=
  match s with
  | [] =>
    match m with
    | inText => bool_decide (open = [])
    | _ => false
    end
  | c :: s' =>
    match m with
    | inText =>
      if bool_decide (c = "<"%char) then wellFormed_go tagStart open s'
      else if bool_decide (c = ">"%char) then false
      else if bool_decide (c = "&"%char) then
        startsEntity s && wellFormed_go inText open s'
      else wellFormed_go inText open s'
    | tagStart =>
      if bool_decide (c = "/"%char) then wellFormed_go (closeName []) open s'
      else if template.asciiAlpha c then wellFormed_go (openName [c]) open s'
      else false
    | openName n =>
      if nameChar c then wellFormed_go (openName (n ++ [c])) open s'
      else if bool_decide (c = ">"%char) then wellFormed_go inText (n :: open) s'
      else if bool_decide (c = " "%char) then wellFormed_go (inTag n) open s'
      else false
    | closeName n =>
      if nameChar c then wellFormed_go (closeName (n ++ [c])) open s'
      else if bool_decide (c = ">"%char) then
        match open with
        | top :: open' => bool_decide (top = n) && wellFormed_go inText open' s'
        | [] => false
        end
      else false
    | inTag n =>
      if bool_decide (c = " "%char) then wellFormed_go (inTag n) open s'
      else if bool_decide (c = ">"%char) then wellFormed_go inText (n :: open) s'
      else if template.asciiAlpha c then wellFormed_go (attrName n) open s'
      else false
    | attrName n =>
      if nameChar c then wellFormed_go (attrName n) open s'
      else if bool_decide (c = "="%char) then wellFormed_go (attrEq n) open s'
      else false
    | attrEq n =>
      if bool_decide (c = dquote) then wellFormed_go (attrValue n) open s'
      else false
    | attrValue n =>
      if bool_decide (c = dquote) then wellFormed_go (inTag n) open s'
      else if bool_decide (c = "<"%char) || bool_decide (c = ">"%char) then false
      else if bool_decide (c = "&"%char) then
        startsEntity s && wellFormed_go (attrValue n) open s'
      else wellFormed_go (attrValue n) open s'
    end
  end.

Definition wellFormed (s : gostring) : bool := wellFormed_go inText [] s.

End richtext.

(** ** Package [logrus]: levels *)

Module logrus.

Inductive Level :=
| PanicLevel | FatalLevel | ErrorLevel | WarnLevel | InfoLevel | DebugLevel | TraceLevel.

(** The numeric value of a level: the more verbose, the larger. *)
Definition levelNum (l : Level) : Z :=
  match l with
  | PanicLevel => 0
  | FatalLevel => 1
  | ErrorLevel => 2
  | WarnLevel => 3
  | InfoLevel => 4
  | DebugLevel => 5
  | TraceLevel => 6
  end.

(** [logrus.ParseLevel]; the message of the error quotes the operand as
    [%q] quotes printable text. *)
Definition ParseLevel (lvl : gostring) : result Level :=
  let l := strings.ToLowerRunes lvl in
  if bool_decide (l = str "panic") then Ok PanicLevel
  else if bool_decide (l = str "fatal") then Ok FatalLevel
  else if bool_decide (l = str "error") then Ok ErrorLevel
  else if bool_decide (l = str "warn") || bool_decide (l = str "warning") then Ok WarnLevel
  else if bool_decide (l = str "info") then Ok InfoLevel
  else if bool_decide (l = str "debug") then Ok DebugLevel
  else if bool_decide (l = str "trace") then Ok TraceLevel
  else Err (errorString (str "not a valid logrus Level: " ++ [dquote] ++ lvl ++ [dquote])).

(** [logger.IsLevelEnabled(level)] for a logger set to [loggerLevel]. *)
Definition IsLevelEnabled (loggerLevel level : Level) : bool :=
  levelNum level <=? levelNum loggerLevel.

End logrus.

(** ** Package [os] and package [godotenv]: the environment *)

Module os.

(** [os.Getenv]: the value of the variable, empty when it is not set. *)
Definition Getenv (environ : gmap gostring gostring) (key : gostring) : gostring :=
  default [] (environ !! key).

End os.

Module godotenv.

(** [godotenv.Load()]: the variables of the file [.env] are set in the
    environment, except those the environment has already; the error of
    reading the file is returned. *)
Definition Load (environ : gmap gostring gostring)
    (file : answer (gmap gostring gostring)) : answer (gmap gostring gostring) :=
  match file with
  | Failure msg => Failure msg
  | Answer vars => Answer (environ ∪ vars)
  end.

End godotenv.

(** ** The start of the program: [exit], [getEnvOrFatal] and [main] *)

Definition EnvProduction : gostring := str "PROD".
Definition EnvDevelopment : gostring := str "DEV".

(** The flags after [flag.Parse()]. *)
Record Flags := mkFlags {
  logLevel : gostring;
  timeout : Z
}.

(** The defaults of the two flags. *)
Definition defaultFlags : Flags := mkFlags (str "debug") 0.

(** What the outside of the process answers at the start. *)
Record Outside := mkOutside {
  (** the environment of the process *)
  environ : gmap gostring gostring;
  (** the variables of the file [.env], or the error of reading it *)
  dotenvFile : answer (gmap gostring gostring);
  (** [gotgbot.NewBot(token, nil)]: the user name of the bot *)
  newBot : gostring -> answer gostring;
  (** the error of [config.Token(ctx)] for a client id and secret *)
  spotifyToken : gostring -> gostring -> option gostring;
  (** the error of [updater.StartPolling(bot, opts)] *)
  startPolling : Z -> Z -> option gostring
}.

(** What [main] does that can be seen, in order. *)
Inductive MainEvent :=
| WroteStderr (line : gostring)
| SetLevel (level : logrus.Level)
| SetTextFormatter
| Logged (level : logrus.Level) (msg : gostring) (err : option gostring)
| CalledNewBot (token : gostring)
| RequestedToken (clientID clientSecret : gostring)
| StartedPolling (pollTimeout requestTimeout : Z)
| InstalledSignalHandler.

(** How [main] ends: [os.Exit(code)], or the idle loop of the updater. *)
Inductive Ending :=
| Exited (code : Z)
| Idle.

(** A run of [main] from some point on. *)
Definition Run : Type := list MainEvent * Ending.

Definition andThen (e : MainEvent) (k : Run) : Run := (e :: fst k, snd k).

(** [exit]: a line on the standard error stream and [os.Exit(1)]; what
    follows the call in the source does not run. *)
Definition exit (msg : gostring) : Run := ([WroteStderr msg], Exited 1).

(** A log entry, written when the logger's level enables it. *)
Definition logThen (logger level : logrus.Level) (msg : gostring)
    (err : option gostring) (k : Run) : Run :=
  if logrus.IsLevelEnabled logger level then andThen (Logged level msg err) k else k.

(** [log.WithError(err).Fatal(msg)]: the entry, then [os.Exit(1)]. *)
Definition fatal (logger : logrus.Level) (msg err : gostring) : Run :=
  logThen logger logrus.FatalLevel msg (Some err) ([], Exited 1).

(** [getEnvOrFatal]; [k] is what the caller does with the value. *)
Definition getEnvOrFatal (env : gmap gostring gostring) (key : gostring)
    (k : gostring -> Run) : Run :=
  let value := os.Getenv env key in
  if bool_decide (value = []) then
    exit (fmt.Sprintf (str "Environment variable not set: %s") [key])
  else k value.

(** A value of type [int64], with its wrap-around. *)
Definition int64 (z : Z) : Z := (z + 2 ^ 63) mod 2 ^ 64 - 2 ^ 63.

(** [time.Second], in nanoseconds. *)
Definition Second : Z := 1000000000.

(** [time.Second * time.Duration(timeout+10)]. *)
Definition requestTimeout (timeout : Z) : Z := int64 (Second * int64 (timeout + 10)).

(** [main], up to the idle loop of the updater.  The dispatcher that
    lines 108-118 build is [dispatcher] above; of the goroutine that waits
    for a shutdown signal only the installation is recorded. *)
Definition main (flags : Flags) (o : Outside) : Run :=
  if timeout flags <? 0 then exit (str "Timeout value must be greater than 0")
  else
    match logrus.ParseLevel (logLevel flags) with
    | Err _ => exit (fmt.Sprintf (str "Unknown log level: %s") [logLevel flags])
    | Ok level =>
      andThen (SetLevel level)
        match godotenv.Load (environ o) (dotenvFile o) with
        | Failure err => fatal level (str "Error loading .env file") err
        | Answer env =>
          let environment := os.Getenv env (str "ENVIRONMENT") in
          let environment :=
            if bool_decide (environment = []) then EnvDevelopment else environment in
          (if bool_decide (environment <> EnvProduction)
           then andThen SetTextFormatter else fun k => k)
            (logThen level logrus.DebugLevel (str "Environment: " ++ environment) None
               (getEnvOrFatal env (str "TELEGRAM_TOKEN") (fun telegramToken =>
                getEnvOrFatal env (str "SPOTIFY_CLIENT_ID") (fun spotifyClientID =>
                getEnvOrFatal env (str "SPOTIFY_CLIENT_SECRET") (fun spotifyClientSecret =>
                andThen (CalledNewBot telegramToken)
                  match newBot o telegramToken with
                  | Failure err => fatal level (str "Failed to create new bot") err
                  | Answer username =>
                    andThen (RequestedToken spotifyClientID spotifyClientSecret)
                      match spotifyToken o spotifyClientID spotifyClientSecret with
                      | Some err =>
                        fatal level (str "Error during Spotify token creation") err
                      | None =>
                        andThen (StartedPolling (timeout flags)
                                   (requestTimeout (timeout flags)))
                          match startPolling o (timeout flags)
                                  (requestTimeout (timeout flags)) with
                          | Some err => fatal level (str "Failed to start polling") err
                          | None =>
                            logThen level logrus.InfoLevel
                              (str "Bot started: https://t.me/" ++ username) None
                              (if bool_decide (environment = EnvProduction)
                               then andThen InstalledSignalHandler ([], Idle)
                               else ([], Idle))
                          end
                      end
                  end)))))
        end
    end.

(** ** Notions of the specification *)

(** A blank string: nothing is left of it once trimmed. *)
Definition blank (s : gostring) : Prop := strings.TrimSpace s = [].

(** A result page is consistent when its total is zero exactly when it
    lists no track: the page then stands for the ranked sequence of tracks
    of the specification's [SearchResult]. *)
Definition consistent (page : spotify.FullTrackPage.t) : Prop :=
  spotify.FullTrackPage.Total page = 0 <-> spotify.FullTrackPage.Tracks page = [].

(** Follows the specification's words: the conventional audio-file
    suffixes it names, in any case. *)
Definition audioSuffixes : list gostring := [str ".mp3"; str ".wav"; str ".flac"].

Definition audioSuffix (suffix : gostring) : bool :=
  bool_decide (strings.ToLower suffix ∈ audioSuffixes).

(** The error the specification calls [EmptyQuery]. *)
Definition EmptyQuery : error := errorString (str "audio metadata or filename is missing").

(** A search result is well formed when it holds a page of tracks and
    the page is consistent. *)
Definition wellFormedResult (r : spotify.SearchResult.t) : Prop :=
  exists page, spotify.SearchResult.Tracks r = Some page /\ consistent page.

(** The observer fails on an update when debug logging is on and the
    update cannot be encoded. *)
Definition observerFails (w : World) (u : gotgbot.Update.t) : bool :=
  debugEnabled w
  && match jsonMarshal w u with
     | Failure _ => true
     | Answer _ => false
     end.

(** What the observer logs when it does not fail. *)
Definition observerLog (w : World) (u : gotgbot.Update.t) : list Event :=
  if debugEnabled w then
    match jsonMarshal w u with
    | Answer raw => [LoggedDebug (str "Handling update") raw]
    | Failure _ => []
    end
  else [].

(** The two message handlers that [main] registers in group 0. *)
Definition audioHandler : ext.Handler.t := ext.NewMessage message.Audio handleAudioMessage.
Definition unknownHandler : ext.Handler.t := ext.NewMessage message.All handleUnknownMessage.

(** The replies sent during a run, in order. *)
Definition replies (tr : list Event) : list (gostring * option gotgbot.SendMessageOpts.t) :=
  omap (fun e => match e with Replied _ text opts => Some (text, opts) | _ => None end) tr.

(** The queries sent to the catalog during a run. *)
Definition searches (tr : list Event) : list gostring :=
  omap (fun e => match e with Searched q => Some q | _ => None end) tr.

(** Sample data: the scenarios of the specification. *)
Module sample.

Definition imagine : gotgbot.Audio.t :=
  gotgbot.Audio.mk (str "  Imagine  ") (str " John Lennon ") (str "whatever.mp3").

Definition mySong : gotgbot.Audio.t :=
  gotgbot.Audio.mk [] [] (str "My Song.mp3").

Definition mySongWav : gotgbot.Audio.t :=
  gotgbot.Audio.mk [] [] (str "My Song.wav").

Definition nothing : gotgbot.Audio.t := gotgbot.Audio.mk [] [] [].

Definition audioMessage (a : gotgbot.Audio.t) : gotgbot.Message.t :=
  gotgbot.Message.mk 7 [] (Some a).

Definition textMessage : gotgbot.Message.t :=
  gotgbot.Message.mk 8 (str "hello") None.

Definition update (m : gotgbot.Message.t) : gotgbot.Update.t :=
  gotgbot.Update.mk 1 (Some m) None None None.

Definition track : spotify.FullTrack.t :=
  spotify.FullTrack.mk (str "Imagine <Remastered>")
    [spotify.SimpleArtist.mk (str "John Lennon"); spotify.SimpleArtist.mk (str "Yoko & Band")]
    {[ str "spotify" := str "https://open.spotify.com/track/7pKfPomDEeI4TPT6EOYjn9" ]}.

Definition otherTrack : spotify.FullTrack.t :=
  spotify.FullTrack.mk (str "Imagine (Live)") [spotify.SimpleArtist.mk (str "Somebody")] ∅.

Definition found : spotify.SearchResult.t :=
  spotify.SearchResult.mk (Some (spotify.FullTrackPage.mk 2 [track; otherTrack])).

Definition notFound : spotify.SearchResult.t :=
  spotify.SearchResult.mk (Some (spotify.FullTrackPage.mk 0 [])).

(** A world that answers every search with [r], delivers every reply and
    logs at debug level. *)
Definition world (r : answer spotify.SearchResult.t) : World :=
  mkWorld true (fun _ => Answer (str "{}")) (fun _ => r) (fun _ _ _ => None).

(** The same world with an encoder that fails. *)
Definition worldMarshalFails (r : answer spotify.SearchResult.t) : World :=
  mkWorld true (fun _ => Failure (str "json: unsupported value"))
          (fun _ => r) (fun _ _ _ => None).

End sample.

(** ** Notions used in the proofs *)

(** A byte that is not ASCII. *)
Definition high (c : ascii) : Prop := utf8.RuneSelf <= byteZ c.

(** The decoding of a sequence of [sz] bytes whose second byte lies in
    [lo .. hi]: the part of [DecodeRuneInString] after the table lookups. *)
Definition decodeSeq (sz lo hi : Z) (s : gostring) : Z * nat :=
  match s with
  | [] => (utf8.RuneError, 0%nat)
  | c0 :: t0 =>
    let b0 := byteZ c0 in
    if Z.of_nat (length s) <? sz then (utf8.RuneError, 1%nat)
    else
      match t0 with
      | [] => (utf8.RuneError, 1%nat)
      | c1 :: t1 =>
        let b1 := byteZ c1 in
        if (b1 <? lo) || (hi <? b1) then (utf8.RuneError, 1%nat)
        else if sz <=? 2 then
          (Z.lor (Z.shiftl (Z.land b0 utf8.mask2) 6) (Z.land b1 utf8.maskx), 2%nat)
        else
          match t1 with
          | [] => (utf8.RuneError, 1%nat)
          | c2 :: t2 =>
            let b2 := byteZ c2 in
            if (b2 <? utf8.locb) || (utf8.hicb <? b2) then (utf8.RuneError, 1%nat)
            else if sz <=? 3 then
              (Z.lor (Z.lor (Z.shiftl (Z.land b0 utf8.mask3) 12)
                            (Z.shiftl (Z.land b1 utf8.maskx) 6))
                     (Z.land b2 utf8.maskx), 3%nat)
            else
              match t2 with
              | [] => (utf8.RuneError, 1%nat)
              | c3 :: _ =>
                let b3 := byteZ c3 in
                if (b3 <? utf8.locb) || (utf8.hicb <? b3) then (utf8.RuneError, 1%nat)
                else
                  (Z.lor (Z.lor (Z.lor (Z.shiftl (Z.land b0 utf8.mask4) 18)
                                       (Z.shiftl (Z.land b1 utf8.maskx) 12))
                                (Z.shiftl (Z.land b2 utf8.maskx) 6))
                         (Z.land b3 utf8.maskx), 4%nat)
              end
          end
      end
  end.

(** The string starts with a rune that is not a space. *)
Definition leadsNonSpace (s : gostring) : Prop :=
  s <> [] /\ unicode.IsSpace (fst (utf8.DecodeRuneInString s)) = false.

(** The string ends with an ASCII byte that is not a space. *)
Definition endsNonSpace (s : gostring) : Prop :=
  exists s0 z, s = s0 ++ [z] /\ byteZ z < utf8.RuneSelf /\ strings.asciiSpace z = false.

(** What [html/template] makes of the three fields of [trackData]. *)
Definition hrefEscape (u : gostring) : gostring :=
  template.attrEscaper (template.urlNormalizer (template.urlFilter u)).

Definition trackURL (track : spotify.FullTrack.t) : gostring :=
  default [] (spotify.FullTrack.ExternalURLs track !! str "spotify").

Definition artistLine (track : spotify.FullTrack.t) : gostring :=
  strings.Join (map spotify.SimpleArtist.Name (spotify.FullTrack.Artists track)) (str ", ").

(** The two lines of the reply for a track. *)
Definition resultText (track : spotify.FullTrack.t) : gostring :=
  str "<a href=" ++ [dquote] ++ hrefEscape (trackURL track) ++ [dquote] ++ str ">"
    ++ template.htmlEscaper (spotify.FullTrack.Name track) ++ str "</a>"
    ++ ["010"%char]
    ++ str "by <b>" ++ template.htmlEscaper (artistLine track) ++ str "</b>".

(** The bytes that the URL normaliser and the attribute escaper keep. *)
Definition plainURLByte (c : ascii) : bool :=
  in_range "a" "z" c || in_range "A" "Z" c || in_range "0" "9" c
  || is_one_of c (str "-._~!#$*,/:;=?@[]").

(** The bytes that the HTML escaper keeps. *)
Definition plainTextByte (c : ascii) : bool :=
  bool_decide (template.htmlReplacementTable c = []).

(** What is logged when a reply could not be sent. *)
Definition sendLog (err : option error) : list Event :=
  match err with
  | Some e => [LoggedError (str "Failed to send message") e]
  | None => []
  end.

Definition missingText : gostring := str "Audio metadata or filename is missing.".
Definition failedText : gostring := str "Failed to search Spotify.".
Definition noResultText (query : gostring) : gostring :=
  str "No results found on Spotify by query `" ++ query ++ str "`".

(** The errors a handler of [main] returns: none, or one that is no
    sentinel. *)
Definition plainError (err : option error) : Prop :=
  err = None \/ exists s, err = Some (errorString s).

(** What the dispatcher logs when a handler returns an error. *)
Definition dispatchLog (err : option error) : list Event :=
  match err with
  | Some e => [LoggedError (str "An error occurred while handling update") e]
  | None => []
  end.

(** The two panics of the audio handler, and the error that
    [ProcessUpdate] makes of a recovered panic. *)
Definition nilDereference : gostring :=
  str "runtime error: invalid memory address or nil pointer dereference".
Definition indexOutOfRange : gostring := str "runtime error: index out of range".

Definition recovered (msg : gostring) : error :=
  wrapError (str "panic recovered: " ++ msg) ext.ErrPanicRecovered.

(** A search result on which the audio handler panics: it holds no page,
    or a page that reports a total and lists no track. *)
Definition brokenResult (r : spotify.SearchResult.t) : Prop :=
  match spotify.SearchResult.Tracks r with
  | None => True
  | Some page =>
    spotify.FullTrackPage.Total page <> 0 /\ spotify.FullTrackPage.Tracks page = []
  end.

(** More sample data. *)
Module sample2.

(** An update that carries an edited message. *)
Definition edited (m : gotgbot.Message.t) : gotgbot.Update.t :=
  gotgbot.Update.mk 2 None (Some m) None None.

(** A world that logs at info level and in which no reply can be sent. *)
Definition worldSendFails (r : answer spotify.SearchResult.t) : World :=
  mkWorld false (fun _ => Answer (str "{}")) (fun _ => r)
          (fun _ _ _ => Some (str "Forbidden: bot was blocked by the user")).

(** A result without a page of tracks. *)
Definition noPage : spotify.SearchResult.t := spotify.SearchResult.mk None.

(** A page that reports no track and lists one. *)
Definition zeroTotal : spotify.SearchResult.t :=
  spotify.SearchResult.mk (Some (spotify.FullTrackPage.mk 0 [sample.track])).

(** Two tracks with the same name and different lists of artists. *)
Definition duo : spotify.FullTrack.t :=
  spotify.FullTrack.mk (str "Under Pressure")
    [spotify.SimpleArtist.mk (str "Queen"); spotify.SimpleArtist.mk (str "David Bowie")] ∅.

Definition duoJoined : spotify.FullTrack.t :=
  spotify.FullTrack.mk (str "Under Pressure")
    [spotify.SimpleArtist.mk (str "Queen, David Bowie")] ∅.

End sample2.

(** ** Notions about the start of the program *)

(** The events of [main] that reach Telegram or Spotify. *)
Definition isNetwork (e : MainEvent) : bool :=
  match e with
  | CalledNewBot _ | RequestedToken _ _ | StartedPolling _ _ => true
  | _ => false
  end.

Definition touchesNetwork (r : Run) : bool := existsb isNetwork (fst r).

(** The three variables [main] requires, in the order it reads them. *)
Definition requiredVariables : list gostring :=
  [str "TELEGRAM_TOKEN"; str "SPOTIFY_CLIENT_ID"; str "SPOTIFY_CLIENT_SECRET"].

(** The flags are valid, the file [.env] is read, and with it the
    environment holds the three variables. *)
Definition configured (flags : Flags) (o : Outside) : Prop :=
  0 <= timeout flags
  /\ (exists level, logrus.ParseLevel (logLevel flags) = Ok level)
  /\ exists env,
       godotenv.Load (environ o) (dotenvFile o) = Answer env
       /\ Forall (fun key => os.Getenv env key <> []) requiredVariables.


(** The environment [main] runs in: the value of [ENVIRONMENT], or
    [DEV] when it is empty. *)
Definition environmentOf (env : gmap gostring gostring) : gostring :=
  if bool_decide (os.Getenv env (str "ENVIRONMENT") = []) then EnvDevelopment
  else os.Getenv env (str "ENVIRONMENT").

(** A log entry, when the level of the logger enables it. *)
Definition logEntry (logger level : logrus.Level) (msg : gostring) (err : option gostring)
    : list MainEvent :=
  if logrus.IsLevelEnabled logger level then [Logged level msg err] else [].

(** What [main] does between the flags and the three variables. *)
Definition prelude (level : logrus.Level) (env : gmap gostring gostring) : list MainEvent :=
  SetLevel level
    :: (if bool_decide (environmentOf env <> EnvProduction) then [SetTextFormatter] else [])
    ++ logEntry level logrus.DebugLevel (str "Environment: " ++ environmentOf env) None.

(** The runs of [main], one constructor for each way it ends. *)
Inductive MainRun (flags : Flags) (o : Outside) : Run -> Prop :=
| RunTimeout :
    timeout flags < 0 ->
    MainRun flags o ([WroteStderr (str "Timeout value must be greater than 0")], Exited 1)
| RunLevel e :
    0 <= timeout flags ->
    logrus.ParseLevel (logLevel flags) = Err e ->
    MainRun flags o ([WroteStderr (str "Unknown log level: " ++ logLevel flags)], Exited 1)
| RunDotenv level e :
    0 <= timeout flags ->
    logrus.ParseLevel (logLevel flags) = Ok level ->
    godotenv.Load (environ o) (dotenvFile o) = Failure e ->
    MainRun flags o
      (SetLevel level
         :: logEntry level logrus.FatalLevel (str "Error loading .env file") (Some e),
       Exited 1)
| RunMissing level env key :
    0 <= timeout flags ->
    logrus.ParseLevel (logLevel flags) = Ok level ->
    godotenv.Load (environ o) (dotenvFile o) = Answer env ->
    find (fun key => bool_decide (os.Getenv env key = [])) requiredVariables = Some key ->
    MainRun flags o
      (prelude level env ++ [WroteStderr (str "Environment variable not set: " ++ key)],
       Exited 1)
| RunNewBot level env e :
    0 <= timeout flags ->
    logrus.ParseLevel (logLevel flags) = Ok level ->
    godotenv.Load (environ o) (dotenvFile o) = Answer env ->
    Forall (fun key => os.Getenv env key <> []) requiredVariables ->
    newBot o (os.Getenv env (str "TELEGRAM_TOKEN")) = Failure e ->
    MainRun flags o
      (prelude level env
         ++ CalledNewBot (os.Getenv env (str "TELEGRAM_TOKEN"))
         :: logEntry level logrus.FatalLevel (str "Failed to create new bot") (Some e),
       Exited 1)
| RunToken level env username e :
    0 <= timeout flags ->
    logrus.ParseLevel (logLevel flags) = Ok level ->
    godotenv.Load (environ o) (dotenvFile o) = Answer env ->
    Forall (fun key => os.Getenv env key <> []) requiredVariables ->
    newBot o (os.Getenv env (str "TELEGRAM_TOKEN")) = Answer username ->
    spotifyToken o (os.Getenv env (str "SPOTIFY_CLIENT_ID"))
      (os.Getenv env (str "SPOTIFY_CLIENT_SECRET")) = Some e ->
    MainRun flags o
      (prelude level env
         ++ CalledNewBot (os.Getenv env (str "TELEGRAM_TOKEN"))
         :: RequestedToken (os.Getenv env (str "SPOTIFY_CLIENT_ID"))
              (os.Getenv env (str "SPOTIFY_CLIENT_SECRET"))
         :: logEntry level logrus.FatalLevel (str "Error during Spotify token creation")
              (Some e),
       Exited 1)
| RunPolling level env username e :
    0 <= timeout flags ->
    logrus.ParseLevel (logLevel flags) = Ok level ->
    godotenv.Load (environ o) (dotenvFile o) = Answer env ->
    Forall (fun key => os.Getenv env key <> []) requiredVariables ->
    newBot o (os.Getenv env (str "TELEGRAM_TOKEN")) = Answer username ->
    spotifyToken o (os.Getenv env (str "SPOTIFY_CLIENT_ID"))
      (os.Getenv env (str "SPOTIFY_CLIENT_SECRET")) = None ->
    startPolling o (timeout flags) (requestTimeout (timeout flags)) = Some e ->
    MainRun flags o
      (prelude level env
         ++ CalledNewBot (os.Getenv env (str "TELEGRAM_TOKEN"))
         :: RequestedToken (os.Getenv env (str "SPOTIFY_CLIENT_ID"))
              (os.Getenv env (str "SPOTIFY_CLIENT_SECRET"))
         :: StartedPolling (timeout flags) (requestTimeout (timeout flags))
         :: logEntry level logrus.FatalLevel (str "Failed to start polling") (Some e),
       Exited 1)
| RunIdle level env username :
    0 <= timeout flags ->
    logrus.ParseLevel (logLevel flags) = Ok level ->
    godotenv.Load (environ o) (dotenvFile o) = Answer env ->
    Forall (fun key => os.Getenv env key <> []) requiredVariables ->
    newBot o (os.Getenv env (str "TELEGRAM_TOKEN")) = Answer username ->
    spotifyToken o (os.Getenv env (str "SPOTIFY_CLIENT_ID"))
      (os.Getenv env (str "SPOTIFY_CLIENT_SECRET")) = None ->
    startPolling o (timeout flags) (requestTimeout (timeout flags)) = None ->
    MainRun flags o
      (prelude level env
         ++ CalledNewBot (os.Getenv env (str "TELEGRAM_TOKEN"))
         :: RequestedToken (os.Getenv env (str "SPOTIFY_CLIENT_ID"))
              (os.Getenv env (str "SPOTIFY_CLIENT_SECRET"))
         :: StartedPolling (timeout flags) (requestTimeout (timeout flags))
         :: logEntry level logrus.InfoLevel (str "Bot started: https://t.me/" ++ username)
              None
         ++ (if bool_decide (environmentOf env = EnvProduction)
             then [InstalledSignalHandler] else []),
       Idle).

(** Sample data for the start of the program. *)
Module sample3.

Definition environment : gmap gostring gostring :=
  {[ str "TELEGRAM_TOKEN" := str "123:abc" ]}.

Definition dotenv : gmap gostring gostring :=
  {[ str "TELEGRAM_TOKEN" := str "999:zzz";
     str "SPOTIFY_CLIENT_ID" := str "id";
     str "SPOTIFY_CLIENT_SECRET" := str "secret" ]}.

(** Telegram and Spotify accept everything. *)
Definition outside (env : gmap gostring gostring)
    (file : answer (gmap gostring gostring)) : Outside :=
  mkOutside env file (fun _ => Answer (str "find_spotify_bot")) (fun _ _ => None)
            (fun _ _ => None).

End sample3.

(** A byte of a path segment as [url.PathEscape] writes it: a letter, a
    digit, one of the marks it leaves alone, or a byte of an escape. *)
Definition segmentByte (c : ascii) : bool :=
  in_range "a" "z" c || in_range "A" "Z" c || in_range "0" "9" c
  || is_one_of c (str "-_.~$&+:=@%").

(** A track whose fields hold nothing that an escaper changes. *)
Definition plainTrack (track : spotify.FullTrack.t) : Prop :=
  template.isSafeURL (trackURL track) = true
  /\ forallb plainURLByte (trackURL track) = true
  /\ forallb plainTextByte (spotify.FullTrack.Name track) = true
  /\ forallb plainTextByte (artistLine track) = true.

(** The character references that the HTML escaper writes, read back:
    what a reader of the markup makes of escaped text. *)
Fixpoint readReferences (s : gostring) : gostring :=
  match s with
  | [] => []
  | "&"%char :: "#"%char :: "3"%char :: "4"%char :: ";"%char :: r => dquote :: readReferences r
  | "&"%char :: "#"%char :: "3"%char :: "9"%char :: ";"%char :: r =>
    "'"%char :: readReferences r
  | "&"%char :: "#"%char :: "4"%char :: "3"%char :: ";"%char :: r =>
    "+"%char :: readReferences r
  | "&"%char :: "a"%char :: "m"%char :: "p"%char :: ";"%char :: r =>
    "&"%char :: readReferences r
  | "&"%char :: "l"%char :: "t"%char :: ";"%char :: r => "<"%char :: readReferences r
  | "&"%char :: "g"%char :: "t"%char :: ";"%char :: r => ">"%char :: readReferences r
  | c :: r => c :: readReferences r
  end.

(** * Properties *)

(** ** URL escaping *)

Section url_facts.

Import url.

Lemma shouldEscape_percent mode : shouldEscape "%" mode = true.
Proof. destruct mode; reflexivity. Qed.

Lemma hex_byte_roundtrip (c : ascii) :
  byte_of_Z (Z.lor (Z.shiftl (unhex (hexdigit upperhex (Z.shiftr (byteZ c) 4))) 4)
                   (unhex (hexdigit upperhex (Z.land (byteZ c) 15)))) = c.
Proof. destruct c as [[] [] [] [] [] [] [] []]; vm_compute; reflexivity. Qed.

Lemma ishex_upperhex (c : ascii) :
  ishex (hexdigit upperhex (Z.shiftr (byteZ c) 4)) = true
  /\ ishex (hexdigit upperhex (Z.land (byteZ c) 15)) = true.
Proof. destruct c as [[] [] [] [] [] [] [] []]; vm_compute; split; reflexivity. Qed.

(** Decoding undoes the writing pass of the encoder, byte by byte. *)
Lemma unescape_write_escape_write (s : gostring) :
  unescape_write (escape_write s encodePathSegment) encodePathSegment = s.
Proof.
  induction s as [|c s IH]; [reflexivity|].
  cbn [escape_write]. rewrite andb_false_r.
  destruct (shouldEscape c encodePathSegment) eqn:Hesc.
  - cbn [unescape_write]. rewrite bool_decide_eq_true_2 by reflexivity.
    rewrite hex_byte_roundtrip, IH. reflexivity.
  - cbn [unescape_write].
    rewrite (bool_decide_eq_false_2 (c = "%"%char)).
    2:{ intros ->. rewrite shouldEscape_percent in Hesc. discriminate. }
    rewrite IH. destruct (bool_decide (c = "+"%char)) eqn:Hplus; [|reflexivity].
    apply bool_decide_eq_true_1 in Hplus. subst c. reflexivity.
Qed.

(** The output of the encoder passes the check of the decoder. *)
Lemma unescape_check_escape_write (s : gostring) :
  exists n, unescape_check (escape_write s encodePathSegment) encodePathSegment
            = Ok (n, false).
Proof.
  induction s as [|c s [n IH]]; [exists 0%nat; reflexivity|].
  cbn [escape_write]. rewrite andb_false_r.
  destruct (shouldEscape c encodePathSegment) eqn:Hesc.
  - exists (S n). cbn [unescape_check].
    rewrite bool_decide_eq_true_2 by reflexivity.
    destruct (ishex_upperhex c) as [-> ->]. cbn [andb]. rewrite IH. reflexivity.
  - exists n. cbn [unescape_check].
    rewrite (bool_decide_eq_false_2 (c = "%"%char)).
    2:{ intros ->. rewrite shouldEscape_percent in Hesc. discriminate. }
    rewrite IH. destruct (bool_decide (c = "+"%char)); reflexivity.
Qed.

(** Without a percent sign there is nothing to decode in a path segment. *)
Lemma unescape_write_no_escape (s : gostring) hasPlus :
  unescape_check s encodePathSegment = Ok (0%nat, hasPlus) ->
  unescape_write s encodePathSegment = s.
Proof.
  revert hasPlus.
  induction s as [|c s IH]; intros hasPlus H; [reflexivity|].
  cbn [unescape_check unescape_write] in *.
  destruct (bool_decide (c = "%"%char)).
  - destruct s as [|a [|b s'']]; try discriminate.
    destruct (ishex a && ishex b); [|discriminate].
    destruct (unescape_check s'' encodePathSegment) as [[n hp]|]; discriminate.
  - destruct (unescape_check s encodePathSegment) as [[n hp]|] eqn:Hc; [|discriminate].
    injection H as -> _. rewrite (IH hp eq_refl).
    destruct (bool_decide (c = "+"%char)) eqn:Hplus; [|reflexivity].
    apply bool_decide_eq_true_1 in Hplus. subst c. reflexivity.
Qed.

Lemma unescape_checked (s : gostring) n hasPlus :
  unescape_check s encodePathSegment = Ok (n, hasPlus) ->
  PathUnescape s = Ok (unescape_write s encodePathSegment).
Proof.
  intros H. unfold PathUnescape, unescape. rewrite H.
  destruct (n =? 0)%nat eqn:Hn; [|reflexivity].
  apply Nat.eqb_eq in Hn. subst n.
  destruct hasPlus; cbn [negb andb]; [reflexivity|].
  rewrite (unescape_write_no_escape s false H). reflexivity.
Qed.

(** When the counting pass finds nothing to escape the writing pass
    copies its input: the early return of [escape] returns the same
    string. *)
Lemma escape_write_nothing (s : gostring) sc :
  escape_count s encodePathSegment = (sc, 0%nat) ->
  escape_write s encodePathSegment = s.
Proof.
  revert sc. induction s as [|c s IH]; intros sc H; [reflexivity|].
  cbn [escape_count escape_write] in *. rewrite andb_false_r in *.
  destruct (escape_count s encodePathSegment) as [sc' hc'] eqn:Hc.
  destruct (shouldEscape c encodePathSegment); [discriminate|].
  injection H as -> ->. rewrite (IH _ eq_refl). reflexivity.
Qed.

Lemma PathEscape_escape_write (s : gostring) :
  PathEscape s = escape_write s encodePathSegment.
Proof.
  unfold PathEscape, escape.
  destruct (escape_count s encodePathSegment) as [sc hc] eqn:Hc.
  destruct (sc =? 0)%nat eqn:Hsc; [|reflexivity].
  destruct (hc =? 0)%nat eqn:Hhc; [|reflexivity].
  apply Nat.eqb_eq in Hhc. subst hc. cbn [andb].
  symmetry. eapply escape_write_nothing. exact Hc.
Qed.

Lemma PathUnescape_PathEscape (s : gostring) :
  PathUnescape (PathEscape s) = Ok s.
Proof.
  rewrite PathEscape_escape_write.
  destruct (unescape_check_escape_write s) as [n Hn].
  rewrite (unescape_checked _ _ _ Hn), unescape_write_escape_write. reflexivity.
Qed.

End url_facts.

Lemma buildSpotifyUserSearchURL_eq (query : gostring) :
  buildSpotifyUserSearchURL query
  = str "https://open.spotify.com/search/" ++ url.PathEscape query.
Proof.
  unfold buildSpotifyUserSearchURL. cbn. rewrite app_nil_r. reflexivity.
Qed.

(** C9. Round trip of the search link: the link is the fixed prefix
    followed by the path-escaped query, and decoding that path segment
    gives the query back, whatever bytes -- reserved ones such as the
    space, [&] and [?] included -- it holds. *)
Theorem search_url_roundtrip (query : gostring) :
  buildSpotifyUserSearchURL query
    = str "https://open.spotify.com/search/" ++ url.PathEscape query
  /\ url.PathUnescape (url.PathEscape query) = Ok query.
Proof.
  split; [apply buildSpotifyUserSearchURL_eq | apply PathUnescape_PathEscape].
Qed.

Example search_url_reserved :
  buildSpotifyUserSearchURL (str "AC/DC & friends?")
    = str "https://open.spotify.com/search/AC%2FDC%20&%20friends%3F"
  /\ url.PathUnescape (str "AC%2FDC%20&%20friends%3F") = Ok (str "AC/DC & friends?").
Proof. split; vm_compute; reflexivity. Qed.

(** ** The result text *)

Lemma trackTemplate_parse :
  template.Parse trackTemplate
  = Ok [template.TextNode (str "<a href=" ++ [dquote]);
        template.ActionNode (str "URL") [];
        template.TextNode ([dquote] ++ str ">");
        template.ActionNode (str "Name") [];
        template.TextNode (str "</a>" ++ ["010"%char] ++ str "by <b>");
        template.ActionNode (str "Artists") [];
        template.TextNode (str "</b>")].
Proof. vm_compute. reflexivity. Qed.

Lemma trackTemplate_escape :
  template.escapeTemplate
       [template.TextNode (str "<a href=" ++ [dquote]);
        template.ActionNode (str "URL") [];
        template.TextNode ([dquote] ++ str ">");
        template.ActionNode (str "Name") [];
        template.TextNode (str "</a>" ++ ["010"%char] ++ str "by <b>");
        template.ActionNode (str "Artists") [];
        template.TextNode (str "</b>")]
  = Ok [template.TextNode (str "<a href=" ++ [dquote]);
        template.ActionNode (str "URL")
          [template.urlfilter; template.urlnormalizer; template.attrescaper];
        template.TextNode ([dquote] ++ str ">");
        template.ActionNode (str "Name") [template.htmlescaper];
        template.TextNode (str "</a>" ++ ["010"%char] ++ str "by <b>");
        template.ActionNode (str "Artists") [template.htmlescaper];
        template.TextNode (str "</b>")].
Proof. vm_compute. reflexivity. Qed.

Lemma buildResultText_eq (track : spotify.FullTrack.t) :
  buildResultText track = (resultText track, None).
Proof.
  unfold buildResultText. rewrite trackTemplate_parse.
  unfold template.Execute. rewrite trackTemplate_escape.
  reflexivity.
Qed.

(** ** The escapers keep the markup well formed *)

Section escaping_facts.

Import richtext.

(** Escaped text is read through without leaving the text. *)
Lemma wellFormed_text_escaped (s rest : gostring) (open : list gostring) :
  wellFormed_go inText open (template.htmlReplacer s ++ rest)
  = wellFormed_go inText open rest.
Proof.
  induction s as [|c s IH]; [reflexivity|].
  destruct c as [[] [] [] [] [] [] [] []]; cbn; exact IH.
Qed.

(** Escaped text is read through without leaving the attribute value. *)
Lemma wellFormed_attr_escaped (s rest : gostring) (open : list gostring) (n : gostring) :
  wellFormed_go (attrValue n) open (template.htmlReplacer s ++ rest)
  = wellFormed_go (attrValue n) open rest.
Proof.
  induction s as [|c s IH]; [reflexivity|].
  destruct c as [[] [] [] [] [] [] [] []]; cbn; exact IH.
Qed.

End escaping_facts.

Section result_markup.

Import richtext.

Lemma scan_link_open (X : gostring) :
  wellFormed_go inText [] (str "<a href=" ++ [dquote] ++ X)
  = wellFormed_go (attrValue (str "a")) [] X.
Proof. reflexivity. Qed.

Lemma scan_link_text (X : gostring) :
  wellFormed_go (attrValue (str "a")) [] ([dquote] ++ str ">" ++ X)
  = wellFormed_go inText [str "a"] X.
Proof. reflexivity. Qed.

Lemma scan_artist_open (X : gostring) :
  wellFormed_go inText [str "a"] (str "</a>" ++ ["010"%char] ++ str "by <b>" ++ X)
  = wellFormed_go inText [str "b"] X.
Proof. reflexivity. Qed.

Lemma resultText_wellFormed (track : spotify.FullTrack.t) :
  wellFormed (resultText track) = true.
Proof.
  unfold resultText, wellFormed, hrefEscape, template.attrEscaper, template.htmlEscaper.
  rewrite scan_link_open, wellFormed_attr_escaped.
  rewrite scan_link_text, wellFormed_text_escaped.
  rewrite scan_artist_open, wellFormed_text_escaped.
  vm_compute. reflexivity.
Qed.

End result_markup.

(** C10. [buildResultText] returns a nil error for every track -- any
    name, any list of artists, any map of URLs: the template parses, every
    action stands in a context the escaper knows, and the three fields it
    names exist.  For a map without the key [spotify], which is any map
    with that key deleted, the result is the text with an empty link
    target, and no error either. *)
Theorem buildResultText_no_error (track : spotify.FullTrack.t)
    (name : gostring) (artists : list spotify.SimpleArtist.t)
    (urls : gmap gostring gostring) :
  snd (buildResultText track) = None
  /\ buildResultText (spotify.FullTrack.mk name artists (delete (str "spotify") urls))
     = (str "<a href=" ++ [dquote] ++ [dquote] ++ str ">"
          ++ template.htmlEscaper name ++ str "</a>" ++ ["010"%char]
          ++ str "by <b>"
          ++ template.htmlEscaper
               (strings.Join (map spotify.SimpleArtist.Name artists) (str ", "))
          ++ str "</b>",
        None).
Proof.
  rewrite !buildResultText_eq. split; [reflexivity|].
  unfold resultText, trackURL, artistLine.
  cbn [spotify.FullTrack.ExternalURLs spotify.FullTrack.Name spotify.FullTrack.Artists].
  rewrite lookup_delete_eq. reflexivity.
Qed.

Example buildResultText_no_artist_no_url :
  buildResultText (spotify.FullTrack.mk (str "Untitled") [] ∅)
  = (str "<a href=" ++ [dquote] ++ [dquote] ++ str ">Untitled</a>" ++ ["010"%char]
       ++ str "by <b></b>", None).
Proof. vm_compute. reflexivity. Qed.

(** A URL whose scheme is not [http], [https] or [mailto] does not reach
    the reply: the URL filter puts its fail-safe text in its place. *)
Example hrefEscape_unsafe_scheme :
  hrefEscape (str "javascript:alert(1)") = str "#ZgotmplZ".
Proof. vm_compute. reflexivity. Qed.

(** C6. Every field of the track reaches the reply through an escaper --
    the name and the artists through the HTML escaper, the URL through the
    URL filter, the URL normaliser and the attribute escaper -- and the
    reply is well-formed markup whatever the fields hold. *)
Theorem buildResultText_escaped (track : spotify.FullTrack.t) :
  fst (buildResultText track)
    = str "<a href=" ++ [dquote]
        ++ template.attrEscaper (template.urlNormalizer (template.urlFilter (trackURL track)))
        ++ [dquote] ++ str ">"
        ++ template.htmlEscaper (spotify.FullTrack.Name track) ++ str "</a>"
        ++ ["010"%char]
        ++ str "by <b>" ++ template.htmlEscaper (artistLine track) ++ str "</b>"
  /\ richtext.wellFormed (fst (buildResultText track)) = true.
Proof.
  rewrite buildResultText_eq. cbn [fst]. split; [reflexivity|].
  apply resultText_wellFormed.
Qed.

Example buildResultText_sample :
  fst (buildResultText sample.track)
  = str "<a href=" ++ [dquote] ++ str "https://open.spotify.com/track/7pKfPomDEeI4TPT6EOYjn9"
      ++ [dquote] ++ str ">Imagine &lt;Remastered&gt;</a>" ++ ["010"%char]
      ++ str "by <b>John Lennon, Yoko &amp; Band</b>".
Proof. vm_compute. reflexivity. Qed.

(** ** Plain fields are embedded as they are *)

Lemma htmlReplacer_plain (s : gostring) :
  forallb plainTextByte s = true -> template.htmlReplacer s = s.
Proof.
  induction s as [|c s IH]; [reflexivity|].
  cbn [forallb template.htmlReplacer]. intros H.
  apply andb_true_iff in H as [Hc Hs]. unfold plainTextByte in Hc.
  rewrite Hc, (IH Hs). reflexivity.
Qed.

Lemma plainURLByte_text (c : ascii) : plainURLByte c = true -> plainTextByte c = true.
Proof. destruct c as [[] [] [] [] [] [] [] []]; vm_compute; congruence. Qed.

Lemma processURLOnto_plain (s : gostring) :
  forallb plainURLByte s = true -> template.processURLOnto s true = s.
Proof.
  induction s as [|c s IH]; [reflexivity|].
  cbn [forallb template.processURLOnto]. intros H.
  apply andb_true_iff in H as [Hc Hs]. rewrite (IH Hs).
  revert Hc. destruct c as [[] [] [] [] [] [] [] []]; vm_compute; congruence.
Qed.

(** A URL with a safe scheme that is made of letters, digits and the
    punctuation of URLs other than [&], [+] and [%] is the link target,
    byte for byte. *)
Lemma hrefEscape_plain (u : gostring) :
  template.isSafeURL u = true -> forallb plainURLByte u = true ->
  hrefEscape u = u.
Proof.
  intros Hsafe Hplain.
  unfold hrefEscape, template.urlFilter, template.urlNormalizer, template.attrEscaper.
  rewrite Hsafe. cbn [negb]. rewrite processURLOnto_plain by exact Hplain.
  apply htmlReplacer_plain.
  apply forallb_forall. intros c Hc. apply plainURLByte_text.
  revert c Hc. apply forallb_forall. exact Hplain.
Qed.

Example hrefEscape_sample :
  hrefEscape (trackURL sample.track)
  = str "https://open.spotify.com/track/7pKfPomDEeI4TPT6EOYjn9".
Proof. apply hrefEscape_plain; reflexivity. Qed.

(** ** UTF-8 decoding *)

Section utf8_facts.

Import utf8.

Lemma byteZ_range (c : ascii) : 0 <= byteZ c < 256.
Proof. destruct c as [[] [] [] [] [] [] [] []]; vm_compute; split; congruence. Qed.

Lemma IsSpace_RuneError : unicode.IsSpace RuneError = false.
Proof. reflexivity. Qed.

(** The classes of lead bytes in the table [first]: ASCII, invalid, or
    the lead of a sequence with its size and the range of its second
    byte. *)
Lemma first_cases (b : Z) :
  0 <= b < 256 ->
  (b < 0x80 /\ first b = as_)
  \/ (0x80 <= b /\ first b = xx)
  \/ (0x80 <= b /\ (first b = s1 \/ first b = s2 \/ first b = s3 \/ first b = s4
                    \/ first b = s5 \/ first b = s6 \/ first b = s7)).
Proof.
  intros R. unfold first.
  repeat match goal with
         | |- context [if ?c then _ else _] => destruct c eqn:?
         end; try lia; auto 12.
Qed.

Lemma DecodeRuneInString_seq (c0 : ascii) (t0 : gostring) :
  0x80 <= byteZ c0 -> first (byteZ c0) <> xx ->
  exists sz lo hi, 2 <= sz <= 4 /\ 0x80 <= lo
    /\ forall t, DecodeRuneInString (c0 :: t) = decodeSeq sz lo hi (c0 :: t).
Proof.
  intros Hge Hxx.
  destruct (first_cases _ (byteZ_range c0)) as [[Hlt _]|[[_ Hf]|[_ Hf]]];
    [lia|contradiction|].
  destruct Hf as [Hf|[Hf|[Hf|[Hf|[Hf|[Hf|Hf]]]]]].
  all: match goal with
       | Hf : first _ = ?k |- _ =>
         let sz := eval vm_compute in (Z.land k 7) in
         let r := eval vm_compute in (acceptRanges (Z.shiftr k 4)) in
         exists sz, (fst r), (snd r)
       end.
  all: split; [lia|]; split; [vm_compute; congruence|].
  all: intros t; unfold DecodeRuneInString; rewrite Hf; reflexivity.
Qed.

Ltac to_Z :=
  repeat match goal with
         | H : (_ || _) = false |- _ => apply orb_false_elim in H; destruct H
         | H : (_ <? _) = false |- _ => apply Z.ltb_ge in H
         | H : (_ <? _) = true |- _ => apply Z.ltb_lt in H
         | H : (_ <=? _) = false |- _ => apply Z.leb_gt in H
         | H : (_ <=? _) = true |- _ => apply Z.leb_le in H
         end.

Lemma decodeSeq_cases (sz lo hi : Z) (c0 : ascii) (t0 : gostring) :
  2 <= sz <= 4 -> 0x80 <= lo -> 0x80 <= byteZ c0 ->
  decodeSeq sz lo hi (c0 :: t0) = (RuneError, 1%nat)
  \/ exists r n, (2 <= n <= length (c0 :: t0))%nat
       /\ decodeSeq sz lo hi (c0 :: t0) = (r, n)
       /\ Forall high (take n (c0 :: t0))
       /\ forall v, decodeSeq sz lo hi (take n (c0 :: t0) ++ v) = (r, n).
Proof.
  intros Hsz Hlo Hc0. unfold decodeSeq.
  destruct t0 as [|c1 t1].
  { left. cbn [length]. destruct (_ <? _); reflexivity. }
  destruct (Z.of_nat (length (c0 :: c1 :: t1)) <? sz) eqn:Hlen; [left; reflexivity|].
  destruct ((byteZ c1 <? lo) || (hi <? byteZ c1)) eqn:H1; [left; reflexivity|].
  destruct (sz <=? 2) eqn:Hs2.
  { right. eexists _, 2%nat. split; [cbn [length]; lia|]. split; [reflexivity|].
    split.
    - to_Z. rewrite ?firstn_cons, ?firstn_O. repeat constructor; unfold high, RuneSelf; lia.
    - intros v. rewrite ?firstn_cons, ?firstn_O. cbn [app length]. rewrite H1.
      apply Z.leb_le in Hs2.
      replace (_ <? sz) with false by (symmetry; apply Z.ltb_ge; lia).
      reflexivity. }
  destruct t1 as [|c2 t2]; [left; reflexivity|].
  destruct ((byteZ c2 <? locb) || (hicb <? byteZ c2)) eqn:H2; [left; reflexivity|].
  destruct (sz <=? 3) eqn:Hs3.
  { right. eexists _, 3%nat. split; [cbn [length]; lia|]. split; [reflexivity|].
    split.
    - to_Z. unfold locb, hicb in *. rewrite ?firstn_cons, ?firstn_O.
      repeat constructor; unfold high, RuneSelf; lia.
    - intros v. rewrite ?firstn_cons, ?firstn_O. cbn [app length]. rewrite H1, H2.
      apply Z.leb_le in Hs3.
      replace (_ <? sz) with false by (symmetry; apply Z.ltb_ge; lia).
      reflexivity. }
  destruct t2 as [|c3 t3]; [left; reflexivity|].
  destruct ((byteZ c3 <? locb) || (hicb <? byteZ c3)) eqn:H3; [left; reflexivity|].
  right. eexists _, 4%nat. split; [cbn [length]; lia|]. split; [reflexivity|].
  split.
  - to_Z. unfold locb, hicb in *. rewrite ?firstn_cons, ?firstn_O.
    repeat constructor; unfold high, RuneSelf; lia.
  - intros v. rewrite ?firstn_cons, ?firstn_O. cbn [app length]. rewrite H1, H2, H3.
    replace (_ <? sz) with false by (symmetry; apply Z.ltb_ge; lia).
    reflexivity.
Qed.

(** The shapes of a decoding: nothing to decode, an ASCII byte, an
    invalid byte, or a sequence of [n] bytes, none of them ASCII, that
    decodes the same whatever follows it. *)
Lemma DecodeRuneInString_cases (s : gostring) :
  (s = [] /\ DecodeRuneInString s = (RuneError, 0%nat))
  \/ (exists c t, s = c :: t /\ byteZ c < RuneSelf
                  /\ DecodeRuneInString s = (byteZ c, 1%nat))
  \/ (exists c t, s = c :: t /\ RuneSelf <= byteZ c
                  /\ DecodeRuneInString s = (RuneError, 1%nat))
  \/ (exists r n, (2 <= n <= length s)%nat
                  /\ DecodeRuneInString s = (r, n)
                  /\ Forall high (take n s)
                  /\ forall v, DecodeRuneInString (take n s ++ v) = (r, n)).
Proof.
  destruct s as [|c0 t0]; [left; split; reflexivity|]. right.
  destruct (first_cases _ (byteZ_range c0)) as [[Hlt Hf]|[[Hge Hf]|[Hge Hf]]].
  - left. exists c0, t0. split; [reflexivity|]. split; [exact Hlt|].
    unfold DecodeRuneInString. rewrite Hf. reflexivity.
  - right. left. exists c0, t0. split; [reflexivity|]. split; [exact Hge|].
    unfold DecodeRuneInString. rewrite Hf. reflexivity.
  - right.
    destruct (DecodeRuneInString_seq c0 t0 Hge) as (sz & lo & hi & Hsz & Hlo & Hdec).
    { intros E. rewrite E in Hf. vm_compute in Hf. intuition congruence. }
    destruct (decodeSeq_cases sz lo hi c0 t0 Hsz Hlo Hge) as [E|(r & n & Hn & E & Hh & Hv)].
    + left. exists c0, t0. rewrite Hdec. auto.
    + right. exists r, n. rewrite Hdec. repeat split; try tauto; try lia.
      intros v. specialize (Hv v).
      destruct n as [|n]; [lia|]. rewrite firstn_cons in *. cbn [app] in *. rewrite Hdec. exact Hv.
Qed.

Lemma DecodeRuneInString_ascii (c : ascii) (t : gostring) :
  byteZ c < RuneSelf -> DecodeRuneInString (c :: t) = (byteZ c, 1%nat).
Proof.
  intros Hlt.
  destruct (first_cases _ (byteZ_range c)) as [[_ Hf]|[[Hge _]|[Hge _]]];
    [|unfold RuneSelf in *; lia..].
  unfold DecodeRuneInString. rewrite Hf. reflexivity.
Qed.

(** A decoding consumes at least one byte and no more than there are. *)
Lemma DecodeRuneInString_size (s : gostring) :
  s <> [] -> (1 <= snd (DecodeRuneInString s) <= length s)%nat.
Proof.
  intros Hne.
  destruct (DecodeRuneInString_cases s)
    as [[E _]|[(c & t & -> & _ & ->)|[(c & t & -> & _ & ->)|(r & n & Hn & -> & _)]]];
    [contradiction|cbn; lia..].
Qed.

(** On ASCII bytes [unicode.IsSpace] is the table [asciiSpace]. *)
Lemma IsSpace_ascii (c : ascii) :
  byteZ c < RuneSelf -> unicode.IsSpace (byteZ c) = strings.asciiSpace c.
Proof.
  intros H. destruct c as [[] [] [] [] [] [] [] []];
    first [reflexivity | vm_compute in H; discriminate].
Qed.

(** A rune that is a space is an ASCII space byte or a sequence whose
    decoding does not depend on what follows. *)
Lemma DecodeRuneInString_space (s : gostring) :
  unicode.IsSpace (fst (DecodeRuneInString s)) = true ->
  (exists c t, s = c :: t /\ byteZ c < RuneSelf /\ strings.asciiSpace c = true
               /\ DecodeRuneInString s = (byteZ c, 1%nat))
  \/ (exists r n, (2 <= n <= length s)%nat
                  /\ DecodeRuneInString s = (r, n)
                  /\ Forall high (take n s)
                  /\ forall v, DecodeRuneInString (take n s ++ v) = (r, n)).
Proof.
  intros Hsp.
  destruct (DecodeRuneInString_cases s)
    as [[_ E]|[(c & t & -> & Hc & E)|[(c & t & -> & _ & E)|H]]].
  - rewrite E in Hsp. discriminate.
  - left. exists c, t. rewrite E in Hsp. cbn [fst] in Hsp.
    rewrite IsSpace_ascii in Hsp by assumption. auto.
  - rewrite E in Hsp. discriminate.
  - right. exact H.
Qed.

(** A space rune is decoded the same with anything appended. *)
Lemma DecodeRuneInString_space_app (u v : gostring) :
  unicode.IsSpace (fst (DecodeRuneInString u)) = true ->
  DecodeRuneInString (u ++ v) = DecodeRuneInString u.
Proof.
  intros Hsp.
  destruct (DecodeRuneInString_space u Hsp)
    as [(c & t & -> & Hc & _ & E)|(r & n & Hn & E & _ & Hv)].
  - rewrite E. cbn [app]. apply DecodeRuneInString_ascii. exact Hc.
  - rewrite E. rewrite <- (take_drop n u) at 1. rewrite <- app_assoc. apply Hv.
Qed.

Lemma scanRuneStart_le (n : nat) (s : gostring) (lim start : Z) :
  scanRuneStart n s lim start <= start.
Proof.
  revert start. induction n as [|n IH]; intros start; cbn [scanRuneStart]; [lia|].
  destruct (start <? lim); [lia|].
  destruct (RuneStart (at_ s start)); [lia|].
  specialize (IH (start - 1)). lia.
Qed.

Lemma at_last (s0 : gostring) (z : ascii) :
  at_ (s0 ++ [z]) (Z.of_nat (length (s0 ++ [z])) - 1) = byteZ z.
Proof.
  unfold at_. rewrite length_app. cbn [length].
  replace (Z.to_nat (Z.of_nat (length s0 + 1) - 1)) with (length s0 + 0)%nat by lia.
  rewrite app_nth2_plus. reflexivity.
Qed.

(** Backwards, the last byte of a string that ends in ASCII is its last
    rune. *)
Lemma DecodeLastRuneInString_ascii (s0 : gostring) (z : ascii) :
  byteZ z < RuneSelf ->
  DecodeLastRuneInString (s0 ++ [z]) = (byteZ z, 1%nat).
Proof.
  intros Hz. unfold DecodeLastRuneInString.
  rewrite at_last.
  replace (Z.of_nat (length (s0 ++ [z])) =? 0) with false
    by (symmetry; apply Z.eqb_neq; rewrite length_app; cbn [length]; lia).
  replace (byteZ z <? RuneSelf) with true by (symmetry; apply Z.ltb_lt; exact Hz).
  reflexivity.
Qed.

(** Backwards, a rune that is a space is what the forward decoding finds
    at the place where it starts. *)
Lemma DecodeLastRuneInString_space (s : gostring) :
  unicode.IsSpace (fst (DecodeLastRuneInString s)) = true ->
  (1 <= snd (DecodeLastRuneInString s) <= length s)%nat
  /\ DecodeRuneInString (drop (length s - snd (DecodeLastRuneInString s)) s)
     = DecodeLastRuneInString s.
Proof.
  destruct (decide (s = [])) as [->|Hne]; [discriminate|].
  destruct (exists_last Hne) as (s0 & z & ->).
  unfold DecodeLastRuneInString. rewrite at_last.
  replace (Z.of_nat (length (s0 ++ [z])) =? 0) with false
    by (symmetry; apply Z.eqb_neq; rewrite length_app; cbn [length]; lia).
  destruct (byteZ z <? RuneSelf) eqn:Hz.
  - intros _. cbn [fst snd]. rewrite length_app. cbn [length]. split; [lia|].
    replace (length s0 + 1 - 1)%nat with (length s0) by lia.
    rewrite drop_app_length. apply DecodeRuneInString_ascii. apply Z.ltb_lt. exact Hz.
  - set (end_ := Z.of_nat (length (s0 ++ [z]))).
    set (lim := if end_ - UTFMax <? 0 then 0 else end_ - UTFMax).
    pose proof (scanRuneStart_le (Z.to_nat UTFMax) (s0 ++ [z]) lim (end_ - 1 - 1)) as Hle.
    set (st := scanRuneStart (Z.to_nat UTFMax) (s0 ++ [z]) lim (end_ - 1 - 1)) in *.
    set (start := if st <? 0 then 0 else st).
    assert (Hstart : 0 <= start < end_).
    { subst start end_. rewrite length_app. cbn [length].
      rewrite length_app in Hle. cbn [length] in Hle.
      destruct (st <? 0) eqn:E; [lia|]. apply Z.ltb_ge in E. lia. }
    destruct (DecodeRuneInString (drop (Z.to_nat start) (s0 ++ [z]))) as [r size] eqn:Hdec.
    destruct (start + Z.of_nat size =? end_) eqn:Hsz; cbn [negb]; [|discriminate].
    intros _. cbn [fst snd]. apply Z.eqb_eq in Hsz. split; [lia|].
    replace (length (s0 ++ [z]) - size)%nat with (Z.to_nat start) by lia.
    exact Hdec.
Qed.

(** Backwards too a decoding consumes at least one byte and no more than
    there are. *)
Lemma DecodeLastRuneInString_size (s : gostring) :
  s <> [] -> (1 <= snd (DecodeLastRuneInString s) <= length s)%nat.
Proof.
  intros Hne. destruct (exists_last Hne) as (s0 & z & ->).
  unfold DecodeLastRuneInString. rewrite at_last.
  replace (Z.of_nat (length (s0 ++ [z])) =? 0) with false
    by (symmetry; apply Z.eqb_neq; rewrite length_app; cbn [length]; lia).
  destruct (byteZ z <? RuneSelf) eqn:Hz.
  - cbn [snd]. rewrite length_app. cbn [length]. lia.
  - set (end_ := Z.of_nat (length (s0 ++ [z]))).
    set (lim := if end_ - UTFMax <? 0 then 0 else end_ - UTFMax).
    pose proof (scanRuneStart_le (Z.to_nat UTFMax) (s0 ++ [z]) lim (end_ - 1 - 1)) as Hle.
    set (st := scanRuneStart (Z.to_nat UTFMax) (s0 ++ [z]) lim (end_ - 1 - 1)) in *.
    set (start := if st <? 0 then 0 else st).
    assert (Hstart : 0 <= start < end_).
    { subst start end_. rewrite length_app. cbn [length].
      rewrite length_app in Hle. cbn [length] in Hle.
      destruct (st <? 0) eqn:E; [lia|]. apply Z.ltb_ge in E. lia. }
    destruct (DecodeRuneInString (drop (Z.to_nat start) (s0 ++ [z]))) as [r size] eqn:Hdec.
    assert (Hlen : 1 <= Z.of_nat (length (s0 ++ [z]))) by (rewrite length_app; cbn [length]; lia).
    destruct (start + Z.of_nat size =? end_) eqn:Hsz; cbn [negb snd]; [|lia].
    apply Z.eqb_eq in Hsz. lia.
Qed.

End utf8_facts.

(** ** Trimming *)

Section trim_facts.

Import utf8 strings.

Lemma endsNonSpace_nonempty (s : gostring) : endsNonSpace s -> s <> [].
Proof. intros (s0 & z & -> & _). destruct s0; discriminate. Qed.

Lemma eqb_false_r (b : bool) : eqb b false = negb b.
Proof. destruct b; reflexivity. Qed.

(** *** The walk forwards *)

Lemma indexFunc_go_found (n : nat) (s : gostring) (i j : nat) :
  indexFunc_go n unicode.IsSpace false s i = Some j ->
  exists k, j = (i + k)%nat /\ leadsNonSpace (drop k s).
Proof.
  revert s i. induction n as [|n IH]; intros s i H; [discriminate|].
  cbn [indexFunc_go] in H. destruct s as [|c t]; [discriminate|].
  destruct (DecodeRuneInString (c :: t)) as [r size] eqn:Hdec.
  rewrite eqb_false_r in H. destruct (unicode.IsSpace r) eqn:Hsp; cbn [negb] in H.
  - destruct (IH _ _ H) as (k & -> & Hk).
    exists (size + k)%nat. split; [lia|]. rewrite <- drop_drop. exact Hk.
  - injection H as <-. exists 0%nat. split; [lia|].
    rewrite drop_0. split; [discriminate|]. rewrite Hdec. exact Hsp.
Qed.

Lemma TrimLeftFunc_lead (s : gostring) :
  TrimLeftFunc s unicode.IsSpace = []
  \/ leadsNonSpace (TrimLeftFunc s unicode.IsSpace).
Proof.
  unfold TrimLeftFunc, indexFunc.
  destruct (indexFunc_go _ _ _ _ _) as [j|] eqn:H; [|left; reflexivity].
  right. destruct (indexFunc_go_found _ _ _ _ H) as (k & -> & Hk). exact Hk.
Qed.

Lemma TrimLeftFunc_id (s : gostring) :
  leadsNonSpace s -> TrimLeftFunc s unicode.IsSpace = s.
Proof.
  intros [Hne Hsp]. unfold TrimLeftFunc, indexFunc.
  destruct s as [|c t]; [contradiction|]. cbn [length indexFunc_go].
  destruct (DecodeRuneInString (c :: t)) as [r size]. cbn [fst] in Hsp.
  rewrite Hsp. reflexivity.
Qed.

Lemma indexFunc_go_ends (n : nat) (s : gostring) (i : nat) :
  (length s <= n)%nat -> endsNonSpace s ->
  exists k, indexFunc_go n unicode.IsSpace false s i = Some (i + k)%nat
            /\ endsNonSpace (drop k s).
Proof.
  revert s i. induction n as [|n IH]; intros s i Hlen Hends.
  { apply endsNonSpace_nonempty in Hends. destruct s; [contradiction|cbn in Hlen; lia]. }
  pose proof (endsNonSpace_nonempty _ Hends) as Hne.
  destruct s as [|c t]; [contradiction|]. cbn [indexFunc_go].
  destruct (DecodeRuneInString (c :: t)) as [r size] eqn:Hdec.
  rewrite eqb_false_r. destruct (unicode.IsSpace r) eqn:Hsp; cbn [negb].
  2:{ exists 0%nat. rewrite Nat.add_0_r, drop_0. auto. }
  assert (Hrest : (1 <= size)%nat /\ endsNonSpace (drop size (c :: t))).
  { destruct Hends as (s0 & z & E & Hz & Hzs).
    assert (Hsp' : unicode.IsSpace (fst (DecodeRuneInString (c :: t))) = true)
      by (rewrite Hdec; exact Hsp).
    destruct (DecodeRuneInString_space _ Hsp')
      as [(c' & t' & E' & Hc & Hcs & Hd)|(r' & m & Hm & Hd & Hhigh & _)];
      rewrite Hd in Hdec; injection Hdec as <- <-.
    - injection E' as <- <-. split; [lia|].
      destruct s0 as [|c0 s0]; cbn [app] in E; injection E as -> E.
      + congruence.
      + cbn [drop]. rewrite drop_0. exists s0, z. auto.
    - split; [lia|].
      destruct (decide (m <= length s0)%nat) as [Hle|Hgt].
      + rewrite E, drop_app_le by exact Hle. exists (drop m s0), z. auto.
      + rewrite E in Hm, Hhigh. rewrite length_app in Hm. cbn [length] in Hm.
        rewrite take_ge in Hhigh by (rewrite length_app; cbn [length]; lia).
        apply Forall_app in Hhigh as [_ Hz']. inversion Hz' as [|? ? Hh _]; subst.
        unfold high in Hh. lia. }
  destruct Hrest as [Hsize Hends'].
  destruct (IH (drop size (c :: t)) (i + size)%nat) as (k & Hk & Hkk).
  { rewrite length_drop. cbn [length] in *. lia. }
  { exact Hends'. }
  exists (size + k)%nat. rewrite Hk. split; [f_equal; lia|].
  rewrite <- drop_drop. exact Hkk.
Qed.

Lemma TrimLeftFunc_ends (s : gostring) :
  endsNonSpace s -> endsNonSpace (TrimLeftFunc s unicode.IsSpace).
Proof.
  intros H. unfold TrimLeftFunc, indexFunc.
  destruct (indexFunc_go_ends (length s) s 0 (Nat.le_refl _) H) as (k & -> & Hk).
  exact Hk.
Qed.

(** *** The walk backwards *)

Lemma lastIndexFunc_go_found (n : nat) (s : gostring) (i : nat) :
  leadsNonSpace s -> (0 < i <= length s)%nat -> (i <= n)%nat ->
  exists j, lastIndexFunc_go n unicode.IsSpace false s i = Some j.
Proof.
  intros [Hne Hlead]. revert i. induction n as [|n IH]; intros i Hi Hn; [lia|].
  cbn [lastIndexFunc_go].
  replace (0 <? i)%nat with true by (symmetry; apply Nat.ltb_lt; lia).
  destruct (DecodeLastRuneInString (take i s)) as [r size] eqn:Hdec.
  rewrite eqb_false_r. destruct (unicode.IsSpace r) eqn:Hsp; cbn [negb]; [|eauto].
  assert (Hsp' : unicode.IsSpace (fst (DecodeLastRuneInString (take i s))) = true)
    by (rewrite Hdec; exact Hsp).
  destruct (DecodeLastRuneInString_space _ Hsp') as [Hsize Hfwd].
  rewrite Hdec in Hsize, Hfwd. cbn [snd] in Hsize, Hfwd.
  rewrite length_take in Hsize, Hfwd.
  replace (i `min` length s)%nat with i in * by lia.
  destruct (decide (i - size = 0)%nat) as [Hz|Hnz].
  - exfalso. rewrite Hz, drop_0 in Hfwd.
    assert (E : DecodeRuneInString (take i s ++ drop i s) = DecodeRuneInString (take i s)).
    { apply DecodeRuneInString_space_app. rewrite Hfwd. exact Hsp. }
    rewrite take_drop, Hfwd in E. rewrite E in Hlead. cbn [fst] in Hlead. congruence.
  - apply IH; lia.
Qed.

Lemma TrimRightFunc_take (s : gostring) :
  exists k, TrimRightFunc s unicode.IsSpace = take k s.
Proof.
  unfold TrimRightFunc.
  destruct (lastIndexFunc _ _ _) as [i|]; [|eauto].
  destruct (RuneSelf <=? at_ s (Z.of_nat i)); [|eauto].
  destruct (DecodeRuneInString (drop i s)); eauto.
Qed.

Lemma TrimRightFunc_nonempty (s : gostring) :
  leadsNonSpace s -> TrimRightFunc s unicode.IsSpace <> [].
Proof.
  intros Hlead. pose proof Hlead as [Hne _].
  destruct s as [|c t]; [contradiction|].
  destruct (lastIndexFunc_go_found (length (c :: t)) (c :: t) (length (c :: t)) Hlead)
    as (j & Hj); [cbn [length]; lia..|].
  unfold TrimRightFunc, lastIndexFunc. rewrite Hj.
  destruct (RuneSelf <=? at_ (c :: t) (Z.of_nat j)) eqn:Hat.
  - destruct (DecodeRuneInString (drop j (c :: t))) as [r wid] eqn:Hdec.
    assert (Hd : drop j (c :: t) <> []).
    { intros E. apply Z.leb_le in Hat. unfold at_ in Hat.
      rewrite Nat2Z.id in Hat.
      rewrite nth_overflow in Hat
        by (apply (f_equal length) in E; rewrite length_drop in E; cbn [length] in *; lia).
      vm_compute in Hat. congruence. }
    pose proof (DecodeRuneInString_size _ Hd) as Hw. rewrite Hdec in Hw. cbn [snd] in Hw.
    destruct (j + wid)%nat eqn:E; [lia|]. discriminate.
  - replace (j + 1)%nat with (S j) by lia. discriminate.
Qed.

Lemma TrimRightFunc_ends (s : gostring) :
  endsNonSpace s -> TrimRightFunc s unicode.IsSpace = s.
Proof.
  intros (s0 & z & -> & Hz & Hzs).
  unfold TrimRightFunc, lastIndexFunc.
  rewrite length_app. cbn [length]. replace (length s0 + 1)%nat with (S (length s0)) by lia.
  cbn [lastIndexFunc_go Nat.ltb Nat.leb].
  rewrite take_ge by (rewrite length_app; cbn [length]; lia).
  rewrite DecodeLastRuneInString_ascii by exact Hz.
  rewrite eqb_false_r, IsSpace_ascii, Hzs by exact Hz. cbn [negb].
  replace (S (length s0) - 1)%nat with (length s0) by lia.
  replace (at_ (s0 ++ [z]) (Z.of_nat (length s0))) with (byteZ z).
  2:{ rewrite <- (at_last s0 z). f_equal. rewrite length_app. cbn [length]. lia. }
  replace (RuneSelf <=? byteZ z) with false by (symmetry; apply Z.leb_gt; exact Hz).
  apply take_ge. rewrite length_app. cbn [length]. lia.
Qed.

(** *** The bounds on the two walks

    Each step of a walk consumes at least one byte, so the length of the
    string bounds the number of steps: with any larger bound the walks
    give the same result. *)

Lemma indexFunc_go_fuel (n m : nat) (f : Z -> bool) (truth : bool)
    (s : gostring) (i : nat) :
  (length s <= n)%nat -> (length s <= m)%nat ->
  indexFunc_go n f truth s i = indexFunc_go m f truth s i.
Proof.
  revert m s i. induction n as [|n IH]; intros [|m] s i Hn Hm;
    destruct s as [|c t]; cbn [length] in *; try lia; try reflexivity.
  cbn [indexFunc_go].
  pose proof (DecodeRuneInString_size (c :: t)) as Hsize.
  destruct (DecodeRuneInString (c :: t)) as [r size]. cbn [snd length] in Hsize.
  destruct (eqb (f r) truth); [reflexivity|].
  apply IH; rewrite length_drop; cbn [length]; specialize (Hsize ltac:(discriminate)); lia.
Qed.

Lemma lastIndexFunc_go_fuel (n m : nat) (f : Z -> bool) (truth : bool)
    (s : gostring) (i : nat) :
  (i <= length s)%nat -> (i <= n)%nat -> (i <= m)%nat ->
  lastIndexFunc_go n f truth s i = lastIndexFunc_go m f truth s i.
Proof.
  revert m i. induction n as [|n IH]; intros [|m] i Hs Hn Hm;
    try (replace i with 0%nat by lia; destruct n, m; reflexivity);
    try (replace i with 0%nat by lia; reflexivity).
  cbn [lastIndexFunc_go].
  destruct (0 <? i)%nat eqn:Hi; [|reflexivity]. apply Nat.ltb_lt in Hi.
  pose proof (DecodeLastRuneInString_size (take i s)) as Hsize.
  destruct (DecodeLastRuneInString (take i s)) as [r size]. cbn [snd] in Hsize.
  destruct (eqb (f r) truth); [reflexivity|].
  assert (Hne : take i s <> []).
  { intros E. apply (f_equal length) in E. rewrite length_take in E. cbn in E. lia. }
  specialize (Hsize Hne). apply IH; lia.
Qed.

End trim_facts.

(** ** [strings.TrimSpace] *)

Section TrimSpace_facts.

Import utf8 strings.

(** A non-empty prefix of a string that starts with a rune that is not a
    space starts with such a rune: a space would be decoded the same in
    the longer string. *)
Lemma leadsNonSpace_take (v : gostring) (k : nat) :
  leadsNonSpace v -> take k v <> [] -> leadsNonSpace (take k v).
Proof.
  intros [_ Hv] Hne. split; [exact Hne|].
  destruct (unicode.IsSpace (fst (DecodeRuneInString (take k v)))) eqn:Hsp; [|reflexivity].
  pose proof (DecodeRuneInString_space_app (take k v) (drop k v) Hsp) as E.
  rewrite take_drop in E. rewrite E in Hv. congruence.
Qed.

(** Nor does a space byte appended to the string turn its first rune into
    a space: a space byte completes no sequence. *)
Lemma leadsNonSpace_app_space (u rest : gostring) :
  leadsNonSpace u -> leadsNonSpace (u ++ " "%char :: rest).
Proof.
  intros [Hne Hu]. split; [destruct u; [contradiction|discriminate]|].
  destruct (unicode.IsSpace (fst (DecodeRuneInString (u ++ " "%char :: rest)))) eqn:Hsp;
    [exfalso|reflexivity].
  destruct (DecodeRuneInString_space _ Hsp)
    as [(c & t & E & Hc & Hcs & Hd)|(r & n & Hn & Hd & Hhigh & Hv)].
  - destruct u as [|c0 u]; [contradiction|]. cbn [app] in E. injection E as -> _.
    rewrite DecodeRuneInString_ascii in Hu by exact Hc. cbn [fst] in Hu.
    rewrite IsSpace_ascii in Hu by exact Hc. congruence.
  - rewrite Hd in Hsp. cbn [fst] in Hsp.
    destruct (decide (n <= length u)%nat) as [Hle|Hgt].
    + rewrite take_app_le in Hv by exact Hle.
      specialize (Hv (drop n u)). rewrite take_drop in Hv.
      rewrite Hv in Hu. cbn [fst] in Hu. congruence.
    + rewrite take_app_ge in Hhigh by lia.
      apply Forall_app in Hhigh as [_ Hh].
      destruct (n - length u)%nat eqn:E; [lia|].
      rewrite firstn_cons in Hh. inversion Hh as [|? ? Hsp' _]; subst.
      vm_compute in Hsp'. congruence.
Qed.

(** The second loop of [TrimSpace] keeps the first rune. *)
Lemma TrimSpace_stop_lead (r : gostring) :
  leadsNonSpace (reverse r) -> leadsNonSpace (TrimSpace_stop r).
Proof.
  induction r as [|x r IH]; intros Hlead; [destruct Hlead as [[] _]; reflexivity|].
  cbn [TrimSpace_stop].
  destruct (RuneSelf <=? byteZ x) eqn:Hx.
  { destruct (TrimRightFunc_take (reverse (x :: r))) as [k Hk].
    pose proof (TrimRightFunc_nonempty _ Hlead) as Hne.
    rewrite Hk in Hne |- *. apply leadsNonSpace_take; assumption. }
  destruct (asciiSpace x) eqn:Hxs; [|exact Hlead].
  apply Z.leb_gt in Hx.
  apply IH. rewrite reverse_cons in Hlead.
  destruct (decide (reverse r = [])) as [E|Hne].
  - exfalso. rewrite E in Hlead. destruct Hlead as [_ Hl]. cbn [app] in Hl.
    rewrite DecodeRuneInString_ascii in Hl by exact Hx. cbn [fst] in Hl.
    rewrite IsSpace_ascii in Hl by exact Hx. congruence.
  - replace (reverse r) with (take (length (reverse r)) (reverse r ++ [x]))
      by (rewrite take_app_le by lia; apply take_ge; lia).
    apply leadsNonSpace_take; [exact Hlead|].
    rewrite take_app_le by lia. rewrite take_ge by lia. exact Hne.
Qed.

Lemma TrimFunc_nil : TrimFunc [] unicode.IsSpace = [].
Proof. reflexivity. Qed.

(** What [TrimSpace] leaves, if anything, starts with a rune that is not
    a space. *)
Lemma TrimSpace_lead (s : gostring) :
  TrimSpace s <> [] -> leadsNonSpace (TrimSpace s).
Proof.
  unfold TrimSpace. induction s as [|c t IH]; [intros []; reflexivity|].
  cbn [TrimSpace_start].
  destruct (RuneSelf <=? byteZ c) eqn:Hc.
  { unfold TrimFunc. intros Hne.
    destruct (TrimLeftFunc_lead (c :: t)) as [E|Hlead].
    - rewrite E in Hne. contradiction.
    - destruct (TrimRightFunc_take (TrimLeftFunc (c :: t) unicode.IsSpace)) as [k Hk].
      rewrite Hk in Hne |- *. apply leadsNonSpace_take; assumption. }
  destruct (asciiSpace c) eqn:Hcs; [exact IH|].
  intros _. apply TrimSpace_stop_lead. rewrite reverse_involutive.
  apply Z.leb_gt in Hc. split; [discriminate|].
  rewrite DecodeRuneInString_ascii by exact Hc. cbn [fst].
  rewrite IsSpace_ascii by exact Hc. exact Hcs.
Qed.

(** A string that starts with a rune that is not a space is not blank. *)
Lemma TrimSpace_nonempty (s : gostring) :
  leadsNonSpace s -> TrimSpace s <> [].
Proof.
  intros Hlead. pose proof Hlead as [Hne Hsp].
  destruct s as [|c t]; [contradiction|].
  unfold TrimSpace. cbn [TrimSpace_start].
  destruct (RuneSelf <=? byteZ c) eqn:Hc.
  { unfold TrimFunc. rewrite TrimLeftFunc_id by exact Hlead.
    apply TrimRightFunc_nonempty. exact Hlead. }
  apply Z.leb_gt in Hc.
  rewrite DecodeRuneInString_ascii in Hsp by exact Hc. cbn [fst] in Hsp.
  rewrite IsSpace_ascii in Hsp by exact Hc. rewrite Hsp.
  apply TrimSpace_stop_lead. rewrite reverse_involutive. exact Hlead.
Qed.

(** A string that ends with an ASCII byte that is not a space is not
    blank. *)
Lemma TrimSpace_ends (s : gostring) :
  endsNonSpace s -> TrimSpace s <> [].
Proof.
  unfold TrimSpace. induction s as [|c t IH]; intros Hends.
  { apply endsNonSpace_nonempty in Hends. contradiction. }
  cbn [TrimSpace_start].
  destruct (RuneSelf <=? byteZ c) eqn:Hc.
  { unfold TrimFunc. apply TrimLeftFunc_ends in Hends.
    rewrite TrimRightFunc_ends by exact Hends.
    apply endsNonSpace_nonempty. exact Hends. }
  destruct Hends as (s0 & z & E & Hz & Hzs).
  destruct (asciiSpace c) eqn:Hcs.
  - apply IH. destruct s0 as [|c0 s0]; cbn [app] in E; injection E as -> E.
    + congruence.
    + exists s0, z. auto.
  - rewrite E, reverse_snoc. cbn [TrimSpace_stop].
    replace (RuneSelf <=? byteZ z) with false by (symmetry; apply Z.leb_gt; exact Hz).
    rewrite Hzs, reverse_cons, reverse_involutive.
    destruct s0; discriminate.
Qed.

Lemma TrimSpace_space (s : gostring) :
  TrimSpace (" "%char :: s) = TrimSpace s.
Proof. reflexivity. Qed.

(** The query built from a title and a performer is not empty when one
    of the two, trimmed, is not. *)
Lemma TrimSpace_joined (title performer : gostring) :
  TrimSpace title <> [] \/ TrimSpace performer <> [] ->
  TrimSpace (TrimSpace title ++ str " " ++ TrimSpace performer) <> [].
Proof.
  intros H.
  destruct (decide (TrimSpace title = [])) as [E|Hne].
  - destruct H as [H|H]; [contradiction|].
    rewrite E. cbn [app str list_ascii_of_string]. rewrite TrimSpace_space.
    apply TrimSpace_nonempty, TrimSpace_lead, H.
  - apply TrimSpace_nonempty. cbn [app str list_ascii_of_string].
    apply leadsNonSpace_app_space, TrimSpace_lead, Hne.
Qed.

(** A string with a given suffix, in terms of [HasSuffix]. *)
Lemma HasSuffix_inv (s suffix : gostring) :
  HasSuffix s suffix = true ->
  s = take (length s - length suffix) s ++ suffix.
Proof.
  unfold HasSuffix. intros H. apply andb_true_iff in H as [_ H].
  apply bool_decide_eq_true_1 in H.
  rewrite <- (take_drop (length s - length suffix) s) at 1. f_equal. exact H.
Qed.

Lemma TrimSuffix_app (stem suffix : gostring) :
  TrimSuffix (stem ++ suffix) suffix = stem.
Proof.
  unfold TrimSuffix, HasSuffix. rewrite length_app.
  replace (length stem + length suffix - length suffix)%nat with (length stem) by lia.
  rewrite drop_app_length, take_app_length.
  replace (length suffix <=? length stem + length suffix)%nat with true
    by (symmetry; apply Nat.leb_le; lia).
  rewrite bool_decide_eq_true_2 by reflexivity. reflexivity.
Qed.

(** A blank file name does not end in [.mp3]: nothing is cut off it. *)
Lemma TrimSuffix_blank (s : gostring) :
  TrimSpace s = [] -> TrimSuffix s (str ".mp3") = s.
Proof.
  intros Hb. unfold TrimSuffix.
  destruct (HasSuffix s (str ".mp3")) eqn:H; [exfalso|reflexivity].
  apply HasSuffix_inv in H. revert Hb. apply TrimSpace_ends.
  exists (take (length s - length (str ".mp3")) s ++ str ".mp"), "3"%char.
  split; [|split; reflexivity].
  rewrite <- app_assoc. exact H.
Qed.

End TrimSpace_facts.

(** ** The query of an audio attachment *)

Lemma Sprintf_title_performer (title performer : gostring) :
  fmt.Sprintf (str "%s %s") [title; performer] = title ++ str " " ++ performer.
Proof. cbn. rewrite app_nil_r. reflexivity. Qed.

(** C1. When the trimmed title or the trimmed performer is not empty, the
    query is the trimmed title, a space and the trimmed performer, trimmed
    again; it is not empty, so the file name plays no part. *)
Theorem audioQuery_metadata (a : gotgbot.Audio.t) :
  strings.TrimSpace (gotgbot.Audio.Title a) <> []
  \/ strings.TrimSpace (gotgbot.Audio.Performer a) <> [] ->
  audioQuery a
    = strings.TrimSpace (strings.TrimSpace (gotgbot.Audio.Title a) ++ str " "
                           ++ strings.TrimSpace (gotgbot.Audio.Performer a))
  /\ audioQuery a <> [].
Proof.
  intros H. apply TrimSpace_joined in H.
  unfold audioQuery. rewrite Sprintf_title_performer.
  rewrite bool_decide_eq_false_2 by exact H. split; [reflexivity|exact H].
Qed.

Lemma audioQuery_metadata_witness :
  audioQuery sample.imagine = str "Imagine John Lennon".
Proof.
  destruct (audioQuery_metadata sample.imagine) as [E _].
  - left. vm_compute. discriminate.
  - rewrite E. vm_compute. reflexivity.
Defined.

Lemma audioQuery_blank_metadata (a : gotgbot.Audio.t) :
  blank (gotgbot.Audio.Title a) -> blank (gotgbot.Audio.Performer a) ->
  audioQuery a
  = strings.TrimSpace (strings.TrimSuffix (gotgbot.Audio.FileName a) (str ".mp3")).
Proof.
  unfold blank, audioQuery. intros -> ->. reflexivity.
Qed.

(** C2, as the code has it.  With a blank title and a blank performer the
    query is the file name without a final [.mp3] -- these four bytes, in
    lower case; no other suffix is cut -- and then trimmed.  In
    particular the query of [stem ++ ".mp3"] is the trimmed [stem]. *)
Theorem audioQuery_filename (a : gotgbot.Audio.t) (stem : gostring) :
  blank (gotgbot.Audio.Title a) -> blank (gotgbot.Audio.Performer a) ->
  audioQuery a
    = strings.TrimSpace (strings.TrimSuffix (gotgbot.Audio.FileName a) (str ".mp3"))
  /\ audioQuery (gotgbot.Audio.mk (gotgbot.Audio.Title a) (gotgbot.Audio.Performer a)
                                  (stem ++ str ".mp3"))
     = strings.TrimSpace stem.
Proof.
  intros Ht Hp. split; [apply (audioQuery_blank_metadata a Ht Hp)|].
  rewrite audioQuery_blank_metadata by assumption.
  cbn [gotgbot.Audio.FileName]. rewrite TrimSuffix_app. reflexivity.
Qed.

Lemma audioQuery_filename_witness :
  audioQuery sample.mySong = str "My Song"
  /\ audioQuery (gotgbot.Audio.mk [] [] (str " Live at Budokan .mp3")) = str "Live at Budokan".
Proof.
  destruct (audioQuery_filename sample.mySong (str " Live at Budokan ")) as [E1 E2];
    [reflexivity | reflexivity | ].
  split; [rewrite E1; reflexivity|].
  transitivity (strings.TrimSpace (str " Live at Budokan ")); [exact E2 | reflexivity].
Defined.

(** C2 as the specification words it fails: the suffixes [.wav] and
    [.MP3] are conventional audio-file suffixes, the title and the
    performer are blank and the file name is not, yet the query keeps the
    suffix. *)
Lemma audioQuery_suffix_counterexample :
  (blank (gotgbot.Audio.Title sample.mySongWav)
   /\ blank (gotgbot.Audio.Performer sample.mySongWav)
   /\ ~ blank (gotgbot.Audio.FileName sample.mySongWav)
   /\ gotgbot.Audio.FileName sample.mySongWav = str "My Song" ++ str ".wav"
   /\ audioSuffix (str ".wav") = true
   /\ audioQuery sample.mySongWav = str "My Song.wav"
   /\ audioQuery sample.mySongWav <> strings.TrimSpace (str "My Song"))
  /\ (audioSuffix (str ".MP3") = true
      /\ audioQuery (gotgbot.Audio.mk [] [] (str "My Song.MP3")) = str "My Song.MP3"
      /\ audioQuery (gotgbot.Audio.mk [] [] (str "My Song.MP3"))
         <> strings.TrimSpace (str "My Song")).
Proof.
  unfold blank. repeat split; try (vm_compute; congruence).
Qed.

(** ** The audio handler, branch by branch *)

Section handler_runs.

Context (w : World) (ctx : ext.Context.t) (msg : gotgbot.Message.t)
  (a : gotgbot.Audio.t) (tr : list Event).
Hypothesis Hmsg : ext.Context.EffectiveMessage ctx = Some msg.
Hypothesis Haudio : gotgbot.Message.Audio msg = Some a.

Lemma Sprintf_no_result (query : gostring) :
  fmt.Sprintf (str "No results found on Spotify by query `%s`") [query]
  = noResultText query.
Proof. reflexivity. Qed.

Lemma handleAudioMessage_empty :
  audioQuery a = [] ->
  handleAudioMessage w ctx tr
  = (Returned (Some EmptyQuery),
     tr ++ Replied msg missingText None :: sendLog (sendError w msg missingText None)).
Proof.
  intros Hq. unfold handleAudioMessage, bind, deref, ret. rewrite Hmsg, Haudio, Hq.
  cbn. unfold bind, emit, ret, checkSendMsgErr, sendLog, missingText.
  unfold sendError. destruct (sendMessage w msg _ None); cbn; rewrite <- ?app_assoc; reflexivity.
Qed.

Lemma handleAudioMessage_search_failed (err : gostring) :
  audioQuery a <> [] ->
  spotifySearch w (audioQuery a) = Failure err ->
  handleAudioMessage w ctx tr
  = (Returned (Some (errorString err)),
     tr ++ Searched (audioQuery a) :: Replied msg failedText None
        :: sendLog (sendError w msg failedText None)).
Proof.
  intros Hq Hs. unfold handleAudioMessage, bind, deref, ret. rewrite Hmsg, Haudio.
  rewrite bool_decide_eq_false_2 by exact Hq.
  unfold searchSpotify, Reply, bind, emit, ret. rewrite Hs. cbn [toResult].
  unfold checkSendMsgErr, sendLog, failedText, emit, ret.
  unfold sendError. destruct (sendMessage w msg _ None); cbn; rewrite <- ?app_assoc; reflexivity.
Qed.

Lemma handleAudioMessage_no_tracks (results : spotify.SearchResult.t)
    (page : spotify.FullTrackPage.t) :
  audioQuery a <> [] ->
  spotifySearch w (audioQuery a) = Answer results ->
  spotify.SearchResult.Tracks results = Some page ->
  spotify.FullTrackPage.Total page = 0 ->
  handleAudioMessage w ctx tr
  = (Returned (sendError w msg (noResultText (audioQuery a))
                 (Some (noResultOpts (audioQuery a)))),
     tr ++ [Searched (audioQuery a);
            Replied msg (noResultText (audioQuery a)) (Some (noResultOpts (audioQuery a)))]).
Proof.
  intros Hq Hs Hp Ht. unfold handleAudioMessage, bind, deref, ret. rewrite Hmsg, Haudio.
  rewrite bool_decide_eq_false_2 by exact Hq.
  unfold searchSpotify, Reply, bind, emit, ret. rewrite Hs. cbn [toResult]. rewrite Hp, Ht, Sprintf_no_result.
  cbn [Z.eqb]. rewrite <- app_assoc. reflexivity.
Qed.

Lemma handleAudioMessage_track (results : spotify.SearchResult.t)
    (page : spotify.FullTrackPage.t) (track : spotify.FullTrack.t)
    (rest : list spotify.FullTrack.t) :
  audioQuery a <> [] ->
  spotifySearch w (audioQuery a) = Answer results ->
  spotify.SearchResult.Tracks results = Some page ->
  spotify.FullTrackPage.Total page <> 0 ->
  spotify.FullTrackPage.Tracks page = track :: rest ->
  handleAudioMessage w ctx tr
  = (Returned (sendError w msg (resultText track) (Some (trackOpts (audioQuery a)))),
     tr ++ [Searched (audioQuery a);
            Replied msg (resultText track) (Some (trackOpts (audioQuery a)))]).
Proof.
  intros Hq Hs Hp Ht Hl. unfold handleAudioMessage, bind, deref, ret. rewrite Hmsg, Haudio.
  rewrite bool_decide_eq_false_2 by exact Hq.
  unfold searchSpotify, Reply, index, bind, emit, ret. rewrite Hs. cbn [toResult]. rewrite Hp, Hl.
  replace (spotify.FullTrackPage.Total page =? 0) with false
    by (symmetry; apply Z.eqb_neq; exact Ht).
  cbn [lookup list_lookup]. rewrite buildResultText_eq, <- app_assoc. reflexivity.
Qed.

End handler_runs.

Lemma replies_app (tr1 tr2 : list Event) : replies (tr1 ++ tr2) = replies tr1 ++ replies tr2.
Proof. apply omap_app. Qed.

Lemma searches_app (tr1 tr2 : list Event) : searches (tr1 ++ tr2) = searches tr1 ++ searches tr2.
Proof. apply omap_app. Qed.

Lemma replies_sendLog (err : option error) : replies (sendLog err) = [].
Proof. destruct err; reflexivity. Qed.

Lemma searches_sendLog (err : option error) : searches (sendLog err) = [].
Proof. destruct err; reflexivity. Qed.

Lemma audioQuery_blank (a : gotgbot.Audio.t) :
  blank (gotgbot.Audio.Title a) -> blank (gotgbot.Audio.Performer a) ->
  blank (gotgbot.Audio.FileName a) ->
  audioQuery a = [].
Proof.
  intros Ht Hp Hf. rewrite (audioQuery_blank_metadata a Ht Hp).
  rewrite TrimSuffix_blank by exact Hf. exact Hf.
Qed.

(** C3. With a blank title, a blank performer and a blank file name there
    is no query: the handler returns the error [EmptyQuery], the one reply
    it sends is the text about the missing metadata, and the catalog is
    not searched. *)
Theorem handleAudioMessage_empty_query (w : World) (ctx : ext.Context.t)
    (msg : gotgbot.Message.t) (a : gotgbot.Audio.t) (tr : list Event) :
  ext.Context.EffectiveMessage ctx = Some msg ->
  gotgbot.Message.Audio msg = Some a ->
  blank (gotgbot.Audio.Title a) ->
  blank (gotgbot.Audio.Performer a) ->
  blank (gotgbot.Audio.FileName a) ->
  audioQuery a = []
  /\ fst (handleAudioMessage w ctx tr) = Returned (Some EmptyQuery)
  /\ replies (snd (handleAudioMessage w ctx tr))
     = replies tr ++ [(str "Audio metadata or filename is missing.", None)]
  /\ searches (snd (handleAudioMessage w ctx tr)) = searches tr.
Proof.
  intros Hmsg Haudio Ht Hp Hf.
  pose proof (audioQuery_blank a Ht Hp Hf) as Hq.
  rewrite (handleAudioMessage_empty w ctx msg a tr Hmsg Haudio Hq). cbn [fst snd].
  repeat split; [exact Hq|..].
  - rewrite replies_app. change (Replied msg missingText None :: ?l)
      with ([Replied msg missingText None] ++ l).
    rewrite replies_app, replies_sendLog, app_nil_r. reflexivity.
  - rewrite searches_app. change (Replied msg missingText None :: ?l)
      with ([Replied msg missingText None] ++ l).
    rewrite searches_app, searches_sendLog. cbn [searches omap app]. apply app_nil_r.
Qed.

Lemma handleAudioMessage_empty_query_witness :
  fst (handleAudioMessage (sample.world (Answer sample.found))
         (ext.NewContext (sample.update (sample.audioMessage sample.nothing))) [])
    = Returned (Some EmptyQuery)
  /\ replies (snd (handleAudioMessage (sample.world (Answer sample.found))
         (ext.NewContext (sample.update (sample.audioMessage sample.nothing))) []))
     = [(str "Audio metadata or filename is missing.", None)].
Proof.
  destruct (handleAudioMessage_empty_query (sample.world (Answer sample.found))
              (ext.NewContext (sample.update (sample.audioMessage sample.nothing)))
              (sample.audioMessage sample.nothing) sample.nothing [])
    as (_ & E1 & E2 & _); [reflexivity..|].
  split; [exact E1|exact E2].
Defined.





(** ** The dispatcher *)

Lemma dispatcher_handlers :
  ext.Dispatcher.handlers dispatcher
  = [(-1, [HandleAnything.handler]); (0, [audioHandler; unknownHandler])].
Proof. reflexivity. Qed.

Lemma observer_run (w : World) (u : gotgbot.Update.t) (tr : list Event) :
  observerFails w u = false ->
  HandleAnything.HandleUpdate w (ext.NewContext u) tr
  = (Returned (Some ContinueGroups), tr ++ observerLog w u).
Proof.
  unfold observerFails, observerLog, HandleAnything.HandleUpdate.
  cbn [ext.NewContext ext.Context.Update].
  destruct (debugEnabled w); cbn [andb].
  - destruct (jsonMarshal w u); [intros _|discriminate]. reflexivity.
  - intros _. unfold ret. rewrite app_nil_r. reflexivity.
Qed.

(** The observer's group done, the dispatcher goes on to group 0. *)
Lemma dispatch_after_observer (w : World) (u : gotgbot.Update.t) (tr : list Event) :
  observerFails w u = false ->
  ext.iterateOverHandlerGroups dispatcher w (ext.NewContext u) tr
  = ext.iterateGroups dispatcher w (ext.NewContext u)
      [(0, [audioHandler; unknownHandler])] (tr ++ observerLog w u).
Proof.
  intros Hobs. unfold ext.iterateOverHandlerGroups. rewrite dispatcher_handlers.
  cbn [ext.iterateGroups ext.iterateGroup HandleAnything.handler
       ext.Handler.CheckUpdate ext.Handler.HandleUpdate HandleAnything.CheckUpdate negb].
  unfold bind at 1 2. rewrite (observer_run w u tr Hobs). reflexivity.
Qed.

(** C8, as the code has it.  When the observer does not fail -- debug
    logging is off, or the update is encoded -- it logs the update if
    debug logging is on and returns [ContinueGroups], and the dispatcher
    goes on to the group of the audio and the catch-all handler. *)
Theorem observer_continues (w : World) (u : gotgbot.Update.t) (tr : list Event) :
  observerFails w u = false ->
  HandleAnything.HandleUpdate w (ext.NewContext u) tr
    = (Returned (Some ContinueGroups), tr ++ observerLog w u)
  /\ ext.iterateOverHandlerGroups dispatcher w (ext.NewContext u) tr
     = ext.iterateGroups dispatcher w (ext.NewContext u)
         [(0, [audioHandler; unknownHandler])] (tr ++ observerLog w u).
Proof.
  intros Hobs. split; [apply observer_run | apply dispatch_after_observer]; exact Hobs.
Qed.

Lemma observer_continues_witness :
  HandleAnything.HandleUpdate (sample.world (Answer sample.found))
    (ext.NewContext (sample.update (sample.audioMessage sample.imagine))) []
  = (Returned (Some ContinueGroups), [LoggedDebug (str "Handling update") (str "{}")]).
Proof.
  destruct (observer_continues (sample.world (Answer sample.found))
              (sample.update (sample.audioMessage sample.imagine)) [])
    as [E _]; [reflexivity|].
  rewrite E. reflexivity.
Defined.

(** C8 as the specification words it fails: debug logging is on, the
    update cannot be encoded, and the observer returns an error that is
    not [ContinueGroups]; the error callback of [main] ends the dispatch,
    so the audio handler, which matches the update, never runs. *)
Lemma observer_stops_counterexample :
  fst (HandleAnything.HandleUpdate (sample.worldMarshalFails (Answer sample.found))
         (ext.NewContext (sample.update (sample.audioMessage sample.imagine))) [])
    = Returned (Some (wrapError (str "failed to marshal update: json: unsupported value")
                                (errorString (str "json: unsupported value"))))
  /\ ext.Handler.CheckUpdate audioHandler
       (ext.NewContext (sample.update (sample.audioMessage sample.imagine))) = true
  /\ ext.ProcessUpdate dispatcher (sample.worldMarshalFails (Answer sample.found))
       (sample.update (sample.audioMessage sample.imagine)) []
     = (None,
        [LoggedError (str "An error occurred while handling update")
           (wrapError (str "failed to marshal update: json: unsupported value")
                      (errorString (str "json: unsupported value")))]).
Proof. repeat split; vm_compute; reflexivity. Qed.

Lemma plainError_sendError (w : World) (msg : gotgbot.Message.t) (text : gostring)
    (opts : option gotgbot.SendMessageOpts.t) :
  plainError (sendError w msg text opts).
Proof.
  unfold sendError. destruct (sendMessage w msg text opts); [right|left]; eauto.
Qed.

(** A matching handler that returns a plain error settles its group: the
    dispatcher sends nothing more. *)
Lemma iterateGroups_settled (w : World) (ctx : ext.Context.t) (h : ext.Handler.t)
    (hs : list ext.Handler.t) (g : Z) (tr tr' : list Event) (err : option error) :
  ext.Handler.CheckUpdate h ctx = true ->
  ext.Handler.HandleUpdate h w ctx tr = (Returned err, tr') ->
  plainError err ->
  exists tr'', ext.iterateGroups dispatcher w ctx [(g, h :: hs)] tr = (Returned None, tr'')
               /\ replies tr'' = replies tr'.
Proof.
  intros Hc Hrun Herr.
  cbn [ext.iterateGroups ext.iterateGroup]. rewrite Hc. cbn [negb].
  unfold bind at 1 2. rewrite Hrun.
  destruct Herr as [->|[s ->]].
  - exists tr'. split; reflexivity.
  - exists (tr' ++ [LoggedError (str "An error occurred while handling update") (errorString s)]).
    split; [reflexivity|]. rewrite replies_app. apply app_nil_r.
Qed.

(** Every branch of the audio handler that returns sends one reply. *)
Lemma handleAudioMessage_one_reply (w : World) (ctx : ext.Context.t)
    (msg : gotgbot.Message.t) (a : gotgbot.Audio.t) (tr : list Event) :
  ext.Context.EffectiveMessage ctx = Some msg ->
  gotgbot.Message.Audio msg = Some a ->
  (forall q r, spotifySearch w q = Answer r -> wellFormedResult r) ->
  exists err tr' text opts,
    handleAudioMessage w ctx tr = (Returned err, tr')
    /\ plainError err
    /\ replies tr' = replies tr ++ [(text, opts)]
    /\ (text = missingText \/ text = failedText \/ text = noResultText (audioQuery a)
        \/ exists track, text = resultText track).
Proof.
  intros Hmsg Haudio Hwf.
  destruct (decide (audioQuery a = [])) as [Hq|Hq].
  { eexists _, _, missingText, None.
    split; [apply (handleAudioMessage_empty w ctx msg a tr Hmsg Haudio Hq)|].
    split; [right; eexists; reflexivity|]. split; [|auto].
    rewrite replies_app.
    change (Replied msg missingText None :: ?l) with ([Replied msg missingText None] ++ l).
    rewrite replies_app, replies_sendLog, app_nil_r. reflexivity. }
  destruct (spotifySearch w (audioQuery a)) as [results|e] eqn:Hs.
  2:{ eexists _, _, failedText, None.
      split; [apply (handleAudioMessage_search_failed w ctx msg a tr Hmsg Haudio e Hq Hs)|].
      split; [right; eexists; reflexivity|]. split; [|auto].
      rewrite replies_app.
      change (Searched ?q :: Replied msg failedText None :: ?l)
        with ([Searched q; Replied msg failedText None] ++ l).
      rewrite replies_app, replies_sendLog, app_nil_r. reflexivity. }
  destruct (Hwf _ _ Hs) as (page & Hp & Hc).
  destruct (decide (spotify.FullTrackPage.Total page = 0)) as [Ht|Ht].
  { eexists _, _, (noResultText (audioQuery a)), _.
    split; [apply (handleAudioMessage_no_tracks w ctx msg a tr Hmsg Haudio results page
                     Hq Hs Hp Ht)|].
    split; [apply plainError_sendError|]. split; [|auto].
    rewrite replies_app. reflexivity. }
  destruct (spotify.FullTrackPage.Tracks page) as [|track rest] eqn:Hl.
  { exfalso. apply Ht, Hc. exact Hl. }
  eexists _, _, (resultText track), _.
  split; [apply (handleAudioMessage_track w ctx msg a tr Hmsg Haudio results page track rest
                   Hq Hs Hp Ht Hl)|].
  split; [apply plainError_sendError|]. split; [|eauto].
  rewrite replies_app. reflexivity.
Qed.

Lemma handleUnknownMessage_run (w : World) (ctx : ext.Context.t)
    (msg : gotgbot.Message.t) (tr : list Event) :
  ext.Context.EffectiveMessage ctx = Some msg ->
  handleUnknownMessage w ctx tr
  = (Returned (sendError w msg (str "Send me an audio file to search on Spotify.") None),
     tr ++ [Replied msg (str "Send me an audio file to search on Spotify.") None]).
Proof.
  intros Hmsg. unfold handleUnknownMessage, bind, deref, ret. rewrite Hmsg. reflexivity.
Qed.

Lemma replies_observerLog (w : World) (u : gotgbot.Update.t) :
  replies (observerLog w u) = [].
Proof.
  unfold observerLog. destruct (debugEnabled w); [|reflexivity].
  destruct (jsonMarshal w u); reflexivity.
Qed.

(** C7, as the code has it.  For an update that carries a new message,
    when the observer does not fail and the catalog answers with well
    formed results, the dispatch sends exactly one reply: for a message
    without audio the text that asks for an audio file, for a message with
    audio the text of the branch the audio handler takes. *)
Theorem dispatch_one_reply (w : World) (u : gotgbot.Update.t)
    (msg : gotgbot.Message.t) (tr : list Event) :
  gotgbot.Update.Message u = Some msg ->
  observerFails w u = false ->
  (forall q r, spotifySearch w q = Answer r -> wellFormedResult r) ->
  exists text opts,
    replies (snd (ext.ProcessUpdate dispatcher w u tr)) = replies tr ++ [(text, opts)]
    /\ match gotgbot.Message.Audio msg with
       | None => text = str "Send me an audio file to search on Spotify." /\ opts = None
       | Some a =>
         text = missingText \/ text = failedText \/ text = noResultText (audioQuery a)
         \/ exists track, text = resultText track
       end.
Proof.
  intros Hm Hobs Hwf.
  assert (Heff : ext.Context.EffectiveMessage (ext.NewContext u) = Some msg)
    by (cbn; rewrite Hm; reflexivity).
  unfold ext.ProcessUpdate. rewrite (dispatch_after_observer w u tr Hobs).
  destruct (gotgbot.Message.Audio msg) as [a|] eqn:Ha.
  - destruct (handleAudioMessage_one_reply w (ext.NewContext u) msg a
                (tr ++ observerLog w u) Heff Ha Hwf)
      as (err & tr' & text & opts & Hrun & Herr & Hrep & Htext).
    destruct (iterateGroups_settled w (ext.NewContext u) audioHandler [unknownHandler] 0
                (tr ++ observerLog w u) tr' err) as (tr'' & -> & Hrep'').
    + cbn. rewrite Hm. unfold message.Audio. rewrite Ha. reflexivity.
    + exact Hrun.
    + exact Herr.
    + exists text, opts. cbn [snd]. split; [|exact Htext].
      rewrite Hrep'', Hrep, replies_app, replies_observerLog, app_nil_r. reflexivity.
  - cbn [ext.iterateGroups ext.iterateGroup].
    replace (ext.Handler.CheckUpdate audioHandler (ext.NewContext u)) with false
      by (cbn; rewrite Hm; unfold message.Audio; rewrite Ha; reflexivity).
    cbn [negb].
    destruct (iterateGroups_settled w (ext.NewContext u) unknownHandler [] 0
                (tr ++ observerLog w u)
                ((tr ++ observerLog w u)
                   ++ [Replied msg (str "Send me an audio file to search on Spotify.") None])
                (sendError w msg (str "Send me an audio file to search on Spotify.") None))
      as (tr'' & E & Hrep'').
    + cbn. rewrite Hm. reflexivity.
    + apply handleUnknownMessage_run. exact Heff.
    + apply plainError_sendError.
    + cbn [ext.iterateGroups ext.iterateGroup] in E. rewrite E.
      eexists _, _. cbn [snd]. split; [|split; reflexivity].
      rewrite Hrep'', !replies_app, replies_observerLog, app_nil_r. reflexivity.
Qed.

Lemma dispatch_one_reply_witness :
  replies (snd (ext.ProcessUpdate dispatcher (sample.world (Answer sample.found))
                  (sample.update sample.textMessage) []))
  = [(str "Send me an audio file to search on Spotify.", None)].
Proof.
  destruct (dispatch_one_reply (sample.world (Answer sample.found))
              (sample.update sample.textMessage) sample.textMessage [])
    as (text & opts & E & Htext & Hopts).
  - reflexivity.
  - reflexivity.
  - intros q r Hs. injection Hs as <-. eexists. split; [reflexivity|].
    split; discriminate.
  - rewrite E, Htext, Hopts. reflexivity.
Defined.

(** C7 as the specification words it fails: a text message matches the
    catch-all handler, yet when debug logging is on and the update cannot
    be encoded the dispatch ends at the observer and no reply is sent. *)
Lemma dispatch_no_reply_counterexample :
  ext.Handler.CheckUpdate unknownHandler (ext.NewContext (sample.update sample.textMessage))
    = true
  /\ replies (snd (ext.ProcessUpdate dispatcher (sample.worldMarshalFails (Answer sample.found))
                     (sample.update sample.textMessage) []))
     = [].
Proof. split; vm_compute; reflexivity. Qed.

(** A page that reports a total but lists no track is not consistent: on
    it the handler indexes an empty slice and panics, the dispatcher
    recovers, and no reply is sent. *)
Example dispatch_inconsistent_page :
  ext.ProcessUpdate dispatcher
    (sample.world (Answer (spotify.SearchResult.mk (Some (spotify.FullTrackPage.mk 1 [])))))
    (sample.update (sample.audioMessage sample.imagine)) []
  = (Some (wrapError (str "panic recovered: runtime error: index out of range")
                     ext.ErrPanicRecovered),
     [LoggedDebug (str "Handling update") (str "{}"); Searched (str "Imagine John Lennon")]).
Proof. vm_compute. reflexivity. Qed.

(** ** The audio handler: the branches that panic, and all branches together *)

Section handler_panics.

Context (w : World) (ctx : ext.Context.t) (msg : gotgbot.Message.t)
  (a : gotgbot.Audio.t) (tr : list Event).
Hypothesis Hmsg : ext.Context.EffectiveMessage ctx = Some msg.
Hypothesis Haudio : gotgbot.Message.Audio msg = Some a.

Lemma handleAudioMessage_nil_page (results : spotify.SearchResult.t) :
  audioQuery a <> [] ->
  spotifySearch w (audioQuery a) = Answer results ->
  spotify.SearchResult.Tracks results = None ->
  handleAudioMessage w ctx tr = (Panicked nilDereference, tr ++ [Searched (audioQuery a)]).
Proof.
  intros Hq Hs Hp. unfold handleAudioMessage, bind, deref, ret. rewrite Hmsg, Haudio.
  rewrite bool_decide_eq_false_2 by exact Hq.
  unfold searchSpotify, bind, emit, ret. rewrite Hs. cbn [toResult]. rewrite Hp.
  reflexivity.
Qed.

Lemma handleAudioMessage_empty_page (results : spotify.SearchResult.t)
    (page : spotify.FullTrackPage.t) :
  audioQuery a <> [] ->
  spotifySearch w (audioQuery a) = Answer results ->
  spotify.SearchResult.Tracks results = Some page ->
  spotify.FullTrackPage.Total page <> 0 ->
  spotify.FullTrackPage.Tracks page = [] ->
  handleAudioMessage w ctx tr = (Panicked indexOutOfRange, tr ++ [Searched (audioQuery a)]).
Proof.
  intros Hq Hs Hp Ht Hl. unfold handleAudioMessage, bind, deref, ret. rewrite Hmsg, Haudio.
  rewrite bool_decide_eq_false_2 by exact Hq.
  unfold searchSpotify, index, bind, emit, ret. rewrite Hs. cbn [toResult]. rewrite Hp, Hl.
  replace (spotify.FullTrackPage.Total page =? 0) with false
    by (symmetry; apply Z.eqb_neq; exact Ht).
  reflexivity.
Qed.

End handler_panics.

(** The run of the audio handler, branch by branch: in each of the six
    goals the run is rewritten to its outcome and its trace. *)
Ltac audio_cases w ctx msg a tr Hmsg Haudio :=
  let Hq := fresh "Hq" in
  let Hs := fresh "Hs" in
  let Hp := fresh "Hp" in
  let Ht := fresh "Ht" in
  let Hl := fresh "Hl" in
  let results := fresh "results" in
  let page := fresh "page" in
  let track := fresh "track" in
  let rest := fresh "rest" in
  let e := fresh "e" in
  destruct (decide (audioQuery a = [])) as [Hq|Hq];
  [ rewrite (handleAudioMessage_empty w ctx msg a tr Hmsg Haudio Hq)
  | destruct (spotifySearch w (audioQuery a)) as [results|e] eqn:Hs;
    [ destruct (spotify.SearchResult.Tracks results) as [page|] eqn:Hp;
      [ destruct (decide (spotify.FullTrackPage.Total page = 0)) as [Ht|Ht];
        [ rewrite (handleAudioMessage_no_tracks w ctx msg a tr Hmsg Haudio results page
                     Hq Hs Hp Ht)
        | destruct (spotify.FullTrackPage.Tracks page) as [|track rest] eqn:Hl;
          [ rewrite (handleAudioMessage_empty_page w ctx msg a tr Hmsg Haudio results page
                       Hq Hs Hp Ht Hl)
          | rewrite (handleAudioMessage_track w ctx msg a tr Hmsg Haudio results page
                       track rest Hq Hs Hp Ht Hl) ] ]
      | rewrite (handleAudioMessage_nil_page w ctx msg a tr Hmsg Haudio results Hq Hs Hp) ]
    | rewrite (handleAudioMessage_search_failed w ctx msg a tr Hmsg Haudio e Hq Hs) ] ].

(** X1. The audio handler panics exactly when the query is not empty and
    the catalog answers with a result that holds no page of tracks, or
    with a page that reports a total and lists no track; it has searched
    by then and has sent no reply. *)
Theorem handleAudioMessage_panics_iff (w : World) (ctx : ext.Context.t)
    (msg : gotgbot.Message.t) (a : gotgbot.Audio.t) (tr : list Event) :
  ext.Context.EffectiveMessage ctx = Some msg ->
  gotgbot.Message.Audio msg = Some a ->
  ((exists m, fst (handleAudioMessage w ctx tr) = Panicked m)
   <-> audioQuery a <> []
       /\ exists results, spotifySearch w (audioQuery a) = Answer results
                          /\ brokenResult results)
  /\ ((exists m, fst (handleAudioMessage w ctx tr) = Panicked m) ->
      snd (handleAudioMessage w ctx tr) = tr ++ [Searched (audioQuery a)]).
Proof.
  intros Hmsg Haudio. unfold brokenResult.
  audio_cases w ctx msg a tr Hmsg Haudio; cbn [fst snd].
  - split; [split|]; [intros [m E]; discriminate | intros [Hne _]; contradiction
                     | intros [m E]; discriminate].
  - split; [split|]; [intros [m E]; discriminate | | intros [m E]; discriminate].
    intros (_ & r & E & Hb). injection E as <-. rewrite Hp in Hb. destruct Hb; contradiction.
  - split; [split|]; [intros _ | eauto | reflexivity].
    split; [exact Hq|]. exists results. rewrite Hp. auto.
  - split; [split|]; [intros [m E]; discriminate | | intros [m E]; discriminate].
    intros (_ & r & E & Hb). injection E as <-. rewrite Hp, Hl in Hb. destruct Hb; discriminate.
  - split; [split|]; [intros _ | eauto | reflexivity].
    split; [exact Hq|]. exists results. rewrite Hp. auto.
  - split; [split|]; [intros [m E]; discriminate | | intros [m E]; discriminate].
    intros (_ & r & E & _). discriminate.
Qed.

Lemma handleAudioMessage_panics_iff_witness :
  snd (handleAudioMessage (sample.world (Answer sample2.noPage))
         (ext.NewContext (sample.update (sample.audioMessage sample.imagine))) [])
  = [Searched (str "Imagine John Lennon")].
Proof.
  destruct (handleAudioMessage_panics_iff (sample.world (Answer sample2.noPage))
              (ext.NewContext (sample.update (sample.audioMessage sample.imagine)))
              (sample.audioMessage sample.imagine) sample.imagine [])
    as [_ E]; [reflexivity | reflexivity | ].
  rewrite E; [vm_compute; reflexivity|]. eexists. vm_compute. reflexivity.
Defined.

(** X2. Whatever the catalog and Telegram answer, the audio handler
    searches at most once and sends at most one reply; the query it
    searches for starts with a rune that is not white space, and it does
    not search exactly when the query is empty. *)
Theorem handleAudioMessage_searches_once (w : World) (ctx : ext.Context.t)
    (msg : gotgbot.Message.t) (a : gotgbot.Audio.t) (tr : list Event) :
  ext.Context.EffectiveMessage ctx = Some msg ->
  gotgbot.Message.Audio msg = Some a ->
  exists evs,
    snd (handleAudioMessage w ctx tr) = tr ++ evs
    /\ searches evs = (if decide (audioQuery a = []) then [] else [audioQuery a])
    /\ Forall leadsNonSpace (searches evs)
    /\ (length (replies evs) <= 1)%nat.
Proof.
  intros Hmsg Haudio.
  assert (Hlead : audioQuery a <> [] -> leadsNonSpace (audioQuery a)).
  { unfold audioQuery. case_bool_decide; intros Hne; apply TrimSpace_lead; exact Hne. }
  audio_cases w ctx msg a tr Hmsg Haudio; cbn [snd]; eexists; (split; [reflexivity|]);
    rewrite ?decide_True by assumption; rewrite ?decide_False by assumption;
    change (Replied ?m ?t ?o :: ?l) with ([Replied m t o] ++ l);
    change (Searched ?q :: ?l) with ([Searched q] ++ l);
    rewrite ?searches_app, ?replies_app, ?searches_sendLog, ?replies_sendLog;
    unfold searches, replies; cbn [omap list_omap app length];
    (split; [reflexivity|]); (split; [|lia]); auto using Forall_nil_2.
Qed.

Lemma handleAudioMessage_searches_once_witness :
  exists evs,
    snd (handleAudioMessage (sample.world (Answer sample.found))
           (ext.NewContext (sample.update (sample.audioMessage sample.imagine))) []) = evs
    /\ searches evs = [str "Imagine John Lennon"].
Proof.
  destruct (handleAudioMessage_searches_once (sample.world (Answer sample.found))
              (ext.NewContext (sample.update (sample.audioMessage sample.imagine)))
              (sample.audioMessage sample.imagine) sample.imagine [])
    as (evs & E1 & E2 & _); [reflexivity | reflexivity | ].
  exists evs. split; [exact E1|]. rewrite E2. vm_compute. reflexivity.
Defined.

(** ** The dispatcher, update by update *)

(** A matching handler that returns settles its group; the error it
    returns, which is no sentinel, is logged by the error callback. *)
Lemma iterateGroups_returned (w : World) (ctx : ext.Context.t) (h : ext.Handler.t)
    (hs : list ext.Handler.t) (g : Z) (tr tr' : list Event) (err : option error) :
  ext.Handler.CheckUpdate h ctx = true ->
  ext.Handler.HandleUpdate h w ctx tr = (Returned err, tr') ->
  plainError err ->
  ext.iterateGroups dispatcher w ctx [(g, h :: hs)] tr
  = (Returned None, tr' ++ dispatchLog err).
Proof.
  intros Hc Hrun Herr.
  cbn [ext.iterateGroups ext.iterateGroup]. rewrite Hc. cbn [negb].
  unfold bind at 1 2. rewrite Hrun.
  destruct Herr as [->|[s ->]]; [|reflexivity].
  cbn [dispatchLog]. rewrite app_nil_r. reflexivity.
Qed.

Lemma iterateGroups_panicked (w : World) (ctx : ext.Context.t) (h : ext.Handler.t)
    (hs : list ext.Handler.t) (g : Z) (tr tr' : list Event) (m : gostring) :
  ext.Handler.CheckUpdate h ctx = true ->
  ext.Handler.HandleUpdate h w ctx tr = (Panicked m, tr') ->
  ext.iterateGroups dispatcher w ctx [(g, h :: hs)] tr = (Panicked m, tr').
Proof.
  intros Hc Hrun.
  cbn [ext.iterateGroups ext.iterateGroup]. rewrite Hc. cbn [negb].
  unfold bind at 1 2. rewrite Hrun. reflexivity.
Qed.

(** The audio handler never returns a sentinel of the dispatcher. *)
Lemma handleAudioMessage_plain (w : World) (ctx : ext.Context.t)
    (msg : gotgbot.Message.t) (a : gotgbot.Audio.t) (tr : list Event) (err : option error) :
  ext.Context.EffectiveMessage ctx = Some msg ->
  gotgbot.Message.Audio msg = Some a ->
  fst (handleAudioMessage w ctx tr) = Returned err ->
  plainError err.
Proof.
  intros Hmsg Haudio.
  audio_cases w ctx msg a tr Hmsg Haudio; cbn [fst]; intros E;
    try discriminate; injection E as <-;
    first [apply plainError_sendError | right; eexists; reflexivity].
Qed.

Lemma audioHandler_matches (u : gotgbot.Update.t) (msg : gotgbot.Message.t) :
  gotgbot.Update.Message u = Some msg ->
  ext.Handler.CheckUpdate audioHandler (ext.NewContext u)
  = bool_decide (gotgbot.Message.Audio msg <> None).
Proof. intros Hm. cbn. rewrite Hm. reflexivity. Qed.

Lemma unknownHandler_matches (u : gotgbot.Update.t) (msg : gotgbot.Message.t) :
  gotgbot.Update.Message u = Some msg ->
  ext.Handler.CheckUpdate unknownHandler (ext.NewContext u) = true.
Proof. intros Hm. cbn. rewrite Hm. reflexivity. Qed.

Lemma EffectiveMessage_new (u : gotgbot.Update.t) (msg : gotgbot.Message.t) :
  gotgbot.Update.Message u = Some msg ->
  ext.Context.EffectiveMessage (ext.NewContext u) = Some msg.
Proof. intros Hm. cbn. rewrite Hm. reflexivity. Qed.

(** The dispatch of a message with audio, in terms of the audio handler. *)
Lemma dispatch_audio (w : World) (u : gotgbot.Update.t) (msg : gotgbot.Message.t)
    (a : gotgbot.Audio.t) (tr : list Event) :
  gotgbot.Update.Message u = Some msg ->
  gotgbot.Message.Audio msg = Some a ->
  observerFails w u = false ->
  ext.ProcessUpdate dispatcher w u tr
  = match handleAudioMessage w (ext.NewContext u) (tr ++ observerLog w u) with
    | (Returned err, tr') => (None, tr' ++ dispatchLog err)
    | (Panicked m, tr') => (Some (recovered m), tr')
    end.
Proof.
  intros Hm Ha Hobs.
  assert (Hc : ext.Handler.CheckUpdate audioHandler (ext.NewContext u) = true).
  { rewrite (audioHandler_matches u msg Hm), Ha. reflexivity. }
  unfold ext.ProcessUpdate. rewrite (dispatch_after_observer w u tr Hobs).
  destruct (handleAudioMessage w (ext.NewContext u) (tr ++ observerLog w u))
    as [[err|m] tr'] eqn:Hrun.
  - rewrite (iterateGroups_returned w (ext.NewContext u) audioHandler [unknownHandler] 0
               (tr ++ observerLog w u) tr' err Hc Hrun); [reflexivity|].
    apply (handleAudioMessage_plain w (ext.NewContext u) msg a (tr ++ observerLog w u));
      [apply EffectiveMessage_new; exact Hm | exact Ha | rewrite Hrun; reflexivity].
  - rewrite (iterateGroups_panicked w (ext.NewContext u) audioHandler [unknownHandler] 0
               (tr ++ observerLog w u) tr' m Hc Hrun).
    reflexivity.
Qed.

Lemma dispatch_text (w : World) (u : gotgbot.Update.t) (msg : gotgbot.Message.t)
    (tr : list Event) :
  gotgbot.Update.Message u = Some msg ->
  gotgbot.Message.Audio msg = None ->
  observerFails w u = false ->
  ext.ProcessUpdate dispatcher w u tr
  = (None,
     tr ++ observerLog w u
        ++ Replied msg (str "Send me an audio file to search on Spotify.") None
        :: dispatchLog (sendError w msg (str "Send me an audio file to search on Spotify.")
                          None)).
Proof.
  intros Hm Ha Hobs.
  unfold ext.ProcessUpdate. rewrite (dispatch_after_observer w u tr Hobs).
  cbn [ext.iterateGroups ext.iterateGroup].
  rewrite (audioHandler_matches u msg Hm), Ha. cbn [bool_decide decide_rel negb].
  rewrite bool_decide_eq_false_2 by (intros H; apply H; reflexivity). cbn [negb].
  pose proof (iterateGroups_returned w (ext.NewContext u) unknownHandler [] 0
                (tr ++ observerLog w u) _ _ (unknownHandler_matches u msg Hm)
                (handleUnknownMessage_run w (ext.NewContext u) msg (tr ++ observerLog w u)
                   (EffectiveMessage_new u msg Hm))
                (plainError_sendError w msg _ None)) as E.
  cbn [ext.iterateGroups ext.iterateGroup] in E. rewrite E.
  rewrite <- !app_assoc. reflexivity.
Qed.

Lemma dispatch_other (w : World) (u : gotgbot.Update.t) (tr : list Event) :
  gotgbot.Update.Message u = None ->
  observerFails w u = false ->
  ext.ProcessUpdate dispatcher w u tr = (None, tr ++ observerLog w u).
Proof.
  intros Hm Hobs.
  unfold ext.ProcessUpdate. rewrite (dispatch_after_observer w u tr Hobs).
  cbn [ext.iterateGroups ext.iterateGroup].
  replace (ext.Handler.CheckUpdate audioHandler (ext.NewContext u)) with false
    by (cbn; rewrite Hm; reflexivity).
  replace (ext.Handler.CheckUpdate unknownHandler (ext.NewContext u)) with false
    by (cbn; rewrite Hm; reflexivity).
  reflexivity.
Qed.

Lemma Errorf_marshal (m : gostring) :
  Errorf_w (str "failed to marshal update") (errorString m)
  = wrapError (str "failed to marshal update: " ++ m) (errorString m).
Proof. unfold Errorf_w. cbn. rewrite app_nil_r. reflexivity. Qed.

Lemma dispatch_observer_fails (w : World) (u : gotgbot.Update.t) (tr : list Event)
    (m : gostring) :
  debugEnabled w = true ->
  jsonMarshal w u = Failure m ->
  ext.ProcessUpdate dispatcher w u tr
  = (None,
     tr ++ [LoggedError (str "An error occurred while handling update")
              (wrapError (str "failed to marshal update: " ++ m) (errorString m))]).
Proof.
  intros Hd Hj. unfold ext.ProcessUpdate, ext.iterateOverHandlerGroups.
  rewrite dispatcher_handlers.
  cbn [ext.iterateGroups ext.iterateGroup HandleAnything.handler
       ext.Handler.CheckUpdate ext.Handler.HandleUpdate HandleAnything.CheckUpdate negb].
  unfold bind at 1 2. unfold HandleAnything.HandleUpdate.
  cbn [ext.NewContext ext.Context.Update]. rewrite Hd, Hj. cbn [toResult].
  rewrite Errorf_marshal. reflexivity.
Qed.

Lemma searches_observerLog (w : World) (u : gotgbot.Update.t) :
  searches (observerLog w u) = [].
Proof.
  unfold observerLog. destruct (debugEnabled w); [|reflexivity].
  destruct (jsonMarshal w u); reflexivity.
Qed.

Lemma replies_dispatchLog (err : option error) : replies (dispatchLog err) = [].
Proof. destruct err; reflexivity. Qed.

Lemma searches_dispatchLog (err : option error) : searches (dispatchLog err) = [].
Proof. destruct err; reflexivity. Qed.

Lemma observerFails_cases (w : World) (u : gotgbot.Update.t) :
  observerFails w u = false
  \/ exists m, debugEnabled w = true /\ jsonMarshal w u = Failure m.
Proof.
  unfold observerFails. destruct (debugEnabled w); [|left; reflexivity].
  destruct (jsonMarshal w u) as [raw|m]; [left; reflexivity|right; eauto].
Qed.

(** Splits a trace into its events, one list for each, and computes the
    replies and the searches among them. *)
Ltac count_events :=
  repeat match goal with
         | |- context [?e :: ?l] =>
           lazymatch l with
           | [] => fail
           | _ => change (e :: l) with ([e] ++ l)
           end
         end;
  rewrite ?searches_app, ?replies_app, ?searches_sendLog, ?replies_sendLog,
    ?searches_dispatchLog, ?replies_dispatchLog, ?searches_observerLog,
    ?replies_observerLog;
  unfold searches, replies; cbn [omap list_omap app length].

(** X3. A new message with audio matches both handlers of group 0, the
    audio handler and the catch-all handler, and only the first of them
    runs: the dispatch is the run of the audio handler after the observer.
    An error the handler returns is logged by the error callback and not
    returned; a panic of the handler is recovered and returned as an
    error. *)
Theorem dispatch_audio_message (w : World) (u : gotgbot.Update.t)
    (msg : gotgbot.Message.t) (a : gotgbot.Audio.t) (tr : list Event) :
  gotgbot.Update.Message u = Some msg ->
  gotgbot.Message.Audio msg = Some a ->
  observerFails w u = false ->
  ext.Handler.CheckUpdate audioHandler (ext.NewContext u) = true
  /\ ext.Handler.CheckUpdate unknownHandler (ext.NewContext u) = true
  /\ ext.ProcessUpdate dispatcher w u tr
     = match handleAudioMessage w (ext.NewContext u) (tr ++ observerLog w u) with
       | (Returned err, tr') => (None, tr' ++ dispatchLog err)
       | (Panicked m, tr') => (Some (recovered m), tr')
       end.
Proof.
  intros Hm Ha Hobs. split; [|split].
  - rewrite (audioHandler_matches u msg Hm), Ha. reflexivity.
  - apply (unknownHandler_matches u msg Hm).
  - apply (dispatch_audio w u msg a tr Hm Ha Hobs).
Qed.

Lemma dispatch_audio_message_witness :
  ext.ProcessUpdate dispatcher (sample2.worldSendFails (Answer sample.notFound))
    (sample.update (sample.audioMessage sample.imagine)) []
  = (None,
     [Searched (str "Imagine John Lennon");
      Replied (sample.audioMessage sample.imagine)
        (str "No results found on Spotify by query `Imagine John Lennon`")
        (Some (noResultOpts (str "Imagine John Lennon")));
      LoggedError (str "An error occurred while handling update")
        (errorString (str "Forbidden: bot was blocked by the user"))]).
Proof.
  destruct (dispatch_audio_message (sample2.worldSendFails (Answer sample.notFound))
              (sample.update (sample.audioMessage sample.imagine))
              (sample.audioMessage sample.imagine) sample.imagine [])
    as (_ & _ & E); [reflexivity | reflexivity | reflexivity | ].
  rewrite E. vm_compute. reflexivity.
Defined.

(** X4. A message without audio gets the text that asks for an audio
    file and nothing else: the catalog is not searched, and when the reply
    cannot be sent the error is logged by the error callback, once, and
    the reply is not sent again. *)
Theorem dispatch_text_message (w : World) (u : gotgbot.Update.t)
    (msg : gotgbot.Message.t) (tr : list Event) :
  gotgbot.Update.Message u = Some msg ->
  gotgbot.Message.Audio msg = None ->
  observerFails w u = false ->
  ext.ProcessUpdate dispatcher w u tr
    = (None,
       tr ++ observerLog w u
          ++ Replied msg (str "Send me an audio file to search on Spotify.") None
          :: match sendMessage w msg (str "Send me an audio file to search on Spotify.")
                     None with
             | Some m => [LoggedError (str "An error occurred while handling update")
                            (errorString m)]
             | None => []
             end)
  /\ searches (snd (ext.ProcessUpdate dispatcher w u tr)) = searches tr.
Proof.
  intros Hm Ha Hobs. rewrite (dispatch_text w u msg tr Hm Ha Hobs). cbn [snd]. split.
  - unfold sendError. destruct (sendMessage w msg _ None); reflexivity.
  - count_events. rewrite !app_nil_r. reflexivity.
Qed.

Lemma dispatch_text_message_witness :
  ext.ProcessUpdate dispatcher (sample2.worldSendFails (Answer sample.found))
    (sample.update sample.textMessage) []
  = (None,
     [Replied sample.textMessage (str "Send me an audio file to search on Spotify.") None;
      LoggedError (str "An error occurred while handling update")
        (errorString (str "Forbidden: bot was blocked by the user"))]).
Proof.
  destruct (dispatch_text_message (sample2.worldSendFails (Answer sample.found))
              (sample.update sample.textMessage) sample.textMessage [])
    as [E _]; [reflexivity | reflexivity | reflexivity | ].
  rewrite E. reflexivity.
Defined.

(** X5. An update that carries no new message -- an edited message, a
    channel post, with audio or without -- matches neither message
    handler: the observer logs it, no reply is sent and the catalog is not
    searched. *)
Theorem dispatch_not_a_message (w : World) (u : gotgbot.Update.t) (tr : list Event) :
  gotgbot.Update.Message u = None ->
  observerFails w u = false ->
  ext.ProcessUpdate dispatcher w u tr = (None, tr ++ observerLog w u)
  /\ replies (snd (ext.ProcessUpdate dispatcher w u tr)) = replies tr
  /\ searches (snd (ext.ProcessUpdate dispatcher w u tr)) = searches tr.
Proof.
  intros Hm Hobs. rewrite (dispatch_other w u tr Hm Hobs). cbn [snd].
  rewrite replies_app, searches_app, replies_observerLog, searches_observerLog, !app_nil_r.
  auto.
Qed.

Lemma dispatch_not_a_message_witness :
  ext.ProcessUpdate dispatcher (sample.world (Answer sample.found))
    (sample2.edited (sample.audioMessage sample.imagine)) []
  = (None, [LoggedDebug (str "Handling update") (str "{}")]).
Proof.
  destruct (dispatch_not_a_message (sample.world (Answer sample.found))
              (sample2.edited (sample.audioMessage sample.imagine)) [])
    as [E _]; [reflexivity | reflexivity | ].
  rewrite E. reflexivity.
Defined.

(** X6. When debug logging is on and the update cannot be encoded, the
    dispatch of any update ends at the observer: the wrapped encoding
    error is logged by the error callback, no handler of group 0 runs, and
    [ProcessUpdate] returns no error. *)
Theorem dispatch_observer_failure (w : World) (u : gotgbot.Update.t) (tr : list Event)
    (m : gostring) :
  debugEnabled w = true ->
  jsonMarshal w u = Failure m ->
  ext.ProcessUpdate dispatcher w u tr
    = (None,
       tr ++ [LoggedError (str "An error occurred while handling update")
                (wrapError (str "failed to marshal update: " ++ m) (errorString m))])
  /\ errors_Is (wrapError (str "failed to marshal update: " ++ m) (errorString m))
       (errorString m) = true
  /\ replies (snd (ext.ProcessUpdate dispatcher w u tr)) = replies tr
  /\ searches (snd (ext.ProcessUpdate dispatcher w u tr)) = searches tr.
Proof.
  intros Hd Hj. rewrite (dispatch_observer_fails w u tr m Hd Hj). cbn [snd].
  rewrite replies_app, searches_app.
  repeat split; [|apply app_nil_r..].
  cbn [errors_Is]. rewrite (bool_decide_eq_true_2 (errorString m = errorString m)) by reflexivity.
  apply orb_true_r.
Qed.

Lemma dispatch_observer_failure_witness :
  ext.ProcessUpdate dispatcher (sample.worldMarshalFails (Answer sample.found))
    (sample2.edited sample.textMessage) []
  = (None,
     [LoggedError (str "An error occurred while handling update")
        (wrapError (str "failed to marshal update: json: unsupported value")
                   (errorString (str "json: unsupported value")))]).
Proof.
  destruct (dispatch_observer_failure (sample.worldMarshalFails (Answer sample.found))
              (sample2.edited sample.textMessage) [] (str "json: unsupported value"))
    as [E _]; [reflexivity | reflexivity | ].
  rewrite E. reflexivity.
Defined.

(** X7. When the search fails, the sender is told so in a plain reply,
    the error of the search is what the handler returns and the error
    callback logs, and a reply that cannot be sent is only logged: the
    search is not made again and [ProcessUpdate] returns no error. *)
Theorem dispatch_search_failed (w : World) (u : gotgbot.Update.t)
    (msg : gotgbot.Message.t) (a : gotgbot.Audio.t) (tr : list Event) (e : gostring) :
  gotgbot.Update.Message u = Some msg ->
  gotgbot.Message.Audio msg = Some a ->
  observerFails w u = false ->
  audioQuery a <> [] ->
  spotifySearch w (audioQuery a) = Failure e ->
  ext.ProcessUpdate dispatcher w u tr
  = (None,
     tr ++ observerLog w u
        ++ [Searched (audioQuery a); Replied msg (str "Failed to search Spotify.") None]
        ++ match sendMessage w msg (str "Failed to search Spotify.") None with
           | Some m => [LoggedError (str "Failed to send message") (errorString m)]
           | None => []
           end
        ++ [LoggedError (str "An error occurred while handling update") (errorString e)]).
Proof.
  intros Hm Ha Hobs Hq Hs. rewrite (dispatch_audio w u msg a tr Hm Ha Hobs).
  rewrite (handleAudioMessage_search_failed w (ext.NewContext u) msg a
             (tr ++ observerLog w u) (EffectiveMessage_new u msg Hm) Ha e Hq Hs).
  unfold sendError, failedText.
  destruct (sendMessage w msg _ None); cbn [fmap option_fmap option_map sendLog dispatchLog app];
    rewrite <- !app_assoc; reflexivity.
Qed.

Lemma dispatch_search_failed_witness :
  ext.ProcessUpdate dispatcher
    (sample2.worldSendFails (Failure (str "spotify: rate limit exceeded")))
    (sample.update (sample.audioMessage sample.imagine)) []
  = (None,
     [Searched (str "Imagine John Lennon");
      Replied (sample.audioMessage sample.imagine) (str "Failed to search Spotify.") None;
      LoggedError (str "Failed to send message")
        (errorString (str "Forbidden: bot was blocked by the user"));
      LoggedError (str "An error occurred while handling update")
        (errorString (str "spotify: rate limit exceeded"))]).
Proof.
  rewrite (dispatch_search_failed
             (sample2.worldSendFails (Failure (str "spotify: rate limit exceeded")))
             (sample.update (sample.audioMessage sample.imagine))
             (sample.audioMessage sample.imagine) sample.imagine []
             (str "spotify: rate limit exceeded"));
    [vm_compute; reflexivity | reflexivity | reflexivity | reflexivity
    | vm_compute; discriminate | reflexivity].
Defined.

(** X8. [ProcessUpdate] returns an error exactly when the audio handler
    panics: the observer does not fail, the update carries a new message
    with audio whose query is not empty, and the catalog answers with a
    result that holds no page, or a page with a total and no track.  All
    other errors are logged and not returned. *)
Theorem dispatch_error_iff_panic (w : World) (u : gotgbot.Update.t) (tr : list Event) :
  fst (ext.ProcessUpdate dispatcher w u tr) <> None
  <-> exists msg a results,
        gotgbot.Update.Message u = Some msg
        /\ gotgbot.Message.Audio msg = Some a
        /\ observerFails w u = false
        /\ audioQuery a <> []
        /\ spotifySearch w (audioQuery a) = Answer results
        /\ brokenResult results.
Proof.
  destruct (observerFails_cases w u) as [Hobs|(m & Hd & Hj)].
  2:{ rewrite (dispatch_observer_fails w u tr m Hd Hj). cbn [fst].
      split; [intros H; contradiction|].
      intros (msg & a & results & _ & _ & Hobs & _). unfold observerFails in Hobs.
      rewrite Hd, Hj in Hobs. discriminate. }
  destruct (gotgbot.Update.Message u) as [msg|] eqn:Hm.
  2:{ rewrite (dispatch_other w u tr Hm Hobs). cbn [fst].
      split; [intros H; contradiction|].
      intros (msg & a & results & E & _). discriminate. }
  destruct (gotgbot.Message.Audio msg) as [a|] eqn:Ha.
  2:{ rewrite (dispatch_text w u msg tr Hm Ha Hobs). cbn [fst].
      split; [intros H; contradiction|].
      intros (msg' & a & results & E & Ha' & _). injection E as <-.
      rewrite Ha in Ha'. discriminate. }
  rewrite (dispatch_audio w u msg a tr Hm Ha Hobs).
  pose proof (EffectiveMessage_new u msg Hm) as Heff.
  unfold brokenResult.
  audio_cases w (ext.NewContext u) msg a (tr ++ observerLog w u) Heff Ha; cbn [fst].
  - split; [intros H; contradiction|].
    intros (msg' & a' & r & E & Ha' & _ & Hne & _).
    injection E as <-. rewrite Ha in Ha'. injection Ha' as <-. contradiction.
  - split; [intros H; contradiction|].
    intros (msg' & a' & r & E & Ha' & _ & _ & Hs' & Hb).
    injection E as <-. rewrite Ha in Ha'. injection Ha' as <-.
    rewrite Hs in Hs'. injection Hs' as <-. rewrite Hp in Hb. destruct Hb; contradiction.
  - split; [intros _|discriminate].
    exists msg, a, results. rewrite Hp. auto 10.
  - split; [intros H; contradiction|].
    intros (msg' & a' & r & E & Ha' & _ & _ & Hs' & Hb).
    injection E as <-. rewrite Ha in Ha'. injection Ha' as <-.
    rewrite Hs in Hs'. injection Hs' as <-. rewrite Hp, Hl in Hb. destruct Hb; discriminate.
  - split; [intros _|discriminate].
    exists msg, a, results. rewrite Hp. auto 10.
  - split; [intros H; contradiction|].
    intros (msg' & a' & r & E & Ha' & _ & _ & Hs' & _).
    injection E as <-. rewrite Ha in Ha'. injection Ha' as <-.
    rewrite Hs in Hs'. discriminate.
Qed.

(** X9. Whatever the update and whatever Telegram, the encoder and the
    catalog answer, one dispatch keeps the trace it starts from, sends at
    most one reply and searches at most once, for a query that starts with
    a rune that is not white space. *)
Theorem dispatch_at_most_once (w : World) (u : gotgbot.Update.t) (tr : list Event) :
  exists evs,
    snd (ext.ProcessUpdate dispatcher w u tr) = tr ++ evs
    /\ (length (replies evs) <= 1)%nat
    /\ (length (searches evs) <= 1)%nat
    /\ Forall leadsNonSpace (searches evs).
Proof.
  destruct (observerFails_cases w u) as [Hobs|(m & Hd & Hj)].
  2:{ rewrite (dispatch_observer_fails w u tr m Hd Hj). cbn [snd].
      eexists. split; [reflexivity|]. cbn. auto using Forall_nil_2. }
  destruct (gotgbot.Update.Message u) as [msg|] eqn:Hm.
  2:{ rewrite (dispatch_other w u tr Hm Hobs). cbn [snd].
      eexists. split; [reflexivity|].
      rewrite replies_observerLog, searches_observerLog. cbn. auto using Forall_nil_2. }
  destruct (gotgbot.Message.Audio msg) as [a|] eqn:Ha.
  2:{ rewrite (dispatch_text w u msg tr Hm Ha Hobs). cbn [snd].
      eexists. split; [reflexivity|]. count_events.
      repeat split; [lia..|apply Forall_nil_2]. }
  assert (Hlead : audioQuery a <> [] -> leadsNonSpace (audioQuery a)).
  { unfold audioQuery. case_bool_decide; intros Hne; apply TrimSpace_lead; exact Hne. }
  rewrite (dispatch_audio w u msg a tr Hm Ha Hobs).
  pose proof (EffectiveMessage_new u msg Hm) as Heff.
  audio_cases w (ext.NewContext u) msg a (tr ++ observerLog w u) Heff Ha; cbn [snd];
    rewrite <- ?app_assoc; (eexists; split; [reflexivity|]); count_events;
    (repeat split; [lia..|]); auto using Forall_nil_2.
Qed.

(** X10. The handler decides on the total of the page, not on the tracks
    it lists: with a total of zero the reply is the text about no result,
    with its search button, even when the page lists a track. *)
Theorem handleAudioMessage_total_zero (w : World) (ctx : ext.Context.t)
    (msg : gotgbot.Message.t) (a : gotgbot.Audio.t) (tr : list Event)
    (results : spotify.SearchResult.t) (page : spotify.FullTrackPage.t) :
  ext.Context.EffectiveMessage ctx = Some msg ->
  gotgbot.Message.Audio msg = Some a ->
  audioQuery a <> [] ->
  spotifySearch w (audioQuery a) = Answer results ->
  spotify.SearchResult.Tracks results = Some page ->
  spotify.FullTrackPage.Total page = 0 ->
  replies (snd (handleAudioMessage w ctx tr))
  = replies tr
      ++ [(str "No results found on Spotify by query `" ++ audioQuery a ++ str "`",
           Some (noResultOpts (audioQuery a)))].
Proof.
  intros Hmsg Haudio Hq Hs Hp Ht.
  rewrite (handleAudioMessage_no_tracks w ctx msg a tr Hmsg Haudio results page Hq Hs Hp Ht).
  cbn [snd]. rewrite replies_app. reflexivity.
Qed.

Lemma handleAudioMessage_total_zero_witness :
  spotify.FullTrackPage.Tracks (spotify.FullTrackPage.mk 0 [sample.track]) <> []
  /\ replies (snd (handleAudioMessage (sample.world (Answer sample2.zeroTotal))
         (ext.NewContext (sample.update (sample.audioMessage sample.imagine))) []))
     = [(str "No results found on Spotify by query `Imagine John Lennon`",
         Some (noResultOpts (str "Imagine John Lennon")))].
Proof.
  split; [discriminate|].
  rewrite (handleAudioMessage_total_zero (sample.world (Answer sample2.zeroTotal))
             (ext.NewContext (sample.update (sample.audioMessage sample.imagine)))
             (sample.audioMessage sample.imagine) sample.imagine []
             sample2.zeroTotal (spotify.FullTrackPage.mk 0 [sample.track]));
    [vm_compute; reflexivity | reflexivity | reflexivity | vm_compute; discriminate
    | reflexivity | reflexivity | reflexivity].
Defined.

(** ** The query of ASCII metadata *)

Section query_facts.

Import utf8 strings.

Lemma TrimSpace_stop_ends (s : gostring) :
  endsNonSpace s -> TrimSpace_stop (reverse s) = s.
Proof.
  intros (s0 & z & -> & Hz & Hzs). rewrite reverse_snoc. cbn [TrimSpace_stop].
  replace (RuneSelf <=? byteZ z) with false by (symmetry; apply Z.leb_gt; exact Hz).
  rewrite Hzs, <- reverse_snoc. apply reverse_involutive.
Qed.

Lemma leadsNonSpace_ascii (c : ascii) (t : gostring) :
  byteZ c < RuneSelf -> leadsNonSpace (c :: t) -> asciiSpace c = false.
Proof.
  intros Hc [_ Hsp]. rewrite DecodeRuneInString_ascii in Hsp by exact Hc.
  cbn [fst] in Hsp. rewrite IsSpace_ascii in Hsp by exact Hc. exact Hsp.
Qed.

(** A string that starts with a rune that is not a space and ends with
    an ASCII byte that is not a space is left as it is. *)
Lemma TrimSpace_fixed (s : gostring) :
  leadsNonSpace s -> endsNonSpace s -> TrimSpace s = s.
Proof.
  intros Hlead Hends. destruct s as [|c t]; [destruct Hlead as [[] _]; reflexivity|].
  unfold TrimSpace. cbn [TrimSpace_start].
  destruct (RuneSelf <=? byteZ c) eqn:Hc.
  - unfold TrimFunc. rewrite TrimLeftFunc_id by exact Hlead.
    apply TrimRightFunc_ends. exact Hends.
  - apply Z.leb_gt in Hc. rewrite (leadsNonSpace_ascii c t Hc Hlead).
    apply TrimSpace_stop_ends. exact Hends.
Qed.

Lemma TrimRightFunc_trailing_space (s : gostring) :
  endsNonSpace s -> TrimRightFunc (s ++ [" "%char]) unicode.IsSpace = s.
Proof.
  intros (s0 & z & -> & Hz & Hzs).
  unfold TrimRightFunc, lastIndexFunc.
  rewrite !length_app. cbn [length].
  replace (length s0 + 1 + 1)%nat with (S (S (length s0))) by lia.
  cbn [lastIndexFunc_go Nat.ltb Nat.leb].
  rewrite take_ge by (rewrite !length_app; cbn [length]; lia).
  rewrite (DecodeLastRuneInString_ascii (s0 ++ [z]) " "%char) by reflexivity.
  change (eqb (unicode.IsSpace (byteZ " "%char)) false) with false. cbn iota.
  replace (S (S (length s0)) - 1)%nat with (length (s0 ++ [z]))
    by (rewrite length_app; cbn [length]; lia).
  rewrite take_app_length.
  rewrite (DecodeLastRuneInString_ascii s0 z) by exact Hz.
  rewrite eqb_false_r, IsSpace_ascii, Hzs by exact Hz. cbn [negb].
  replace (length (s0 ++ [z]) - 1)%nat with (length s0)
    by (rewrite length_app; cbn [length]; lia).
  replace (match length (s0 ++ [z]) with 0%nat => false | S _ => true end) with true
    by (rewrite length_app; cbn [length]; destruct (length s0 + 1)%nat eqn:E;
        [lia|reflexivity]).
  cbn iota.
  replace (at_ ((s0 ++ [z]) ++ [" "%char]) (Z.of_nat (length s0))) with (byteZ z).
  2:{ unfold at_. rewrite Nat2Z.id, <- app_assoc.
      replace (length s0) with (length s0 + 0)%nat at 1 by lia.
      rewrite app_nth2_plus. reflexivity. }
  replace (RuneSelf <=? byteZ z) with false by (symmetry; apply Z.leb_gt; exact Hz).
  apply take_app_length'. rewrite length_app. cbn [length]. lia.
Qed.

(** The space that follows such a string is trimmed away. *)
Lemma TrimSpace_trailing_space (s : gostring) :
  leadsNonSpace s -> endsNonSpace s -> TrimSpace (s ++ [" "%char]) = s.
Proof.
  intros Hlead Hends. destruct s as [|c t]; [destruct Hlead as [[] _]; reflexivity|].
  unfold TrimSpace. cbn [app TrimSpace_start].
  destruct (RuneSelf <=? byteZ c) eqn:Hc.
  - unfold TrimFunc. change (c :: t ++ [" "%char]) with ((c :: t) ++ [" "%char]).
    rewrite TrimLeftFunc_id by (apply leadsNonSpace_app_space; exact Hlead).
    apply TrimRightFunc_trailing_space. exact Hends.
  - apply Z.leb_gt in Hc. rewrite (leadsNonSpace_ascii c t Hc Hlead).
    change (c :: t ++ [" "%char]) with ((c :: t) ++ [" "%char]).
    rewrite reverse_snoc. cbn [TrimSpace_stop].
    change (RuneSelf <=? byteZ " "%char) with false.
    change (asciiSpace " "%char) with true. cbn iota.
    apply TrimSpace_stop_ends. exact Hends.
Qed.

End query_facts.

(** X11. When the trimmed title and the trimmed performer end, if they
    are not empty, with an ASCII byte, the query is the one of them that
    is not empty, or the trimmed title, one space and the trimmed
    performer: the space of the format does not stay at either end of the
    query. *)
Theorem audioQuery_fields (a : gotgbot.Audio.t) :
  strings.TrimSpace (gotgbot.Audio.Title a) = []
  \/ endsNonSpace (strings.TrimSpace (gotgbot.Audio.Title a)) ->
  strings.TrimSpace (gotgbot.Audio.Performer a) = []
  \/ endsNonSpace (strings.TrimSpace (gotgbot.Audio.Performer a)) ->
  strings.TrimSpace (gotgbot.Audio.Title a) <> []
  \/ strings.TrimSpace (gotgbot.Audio.Performer a) <> [] ->
  audioQuery a
  = if decide (strings.TrimSpace (gotgbot.Audio.Performer a) = []) then
      strings.TrimSpace (gotgbot.Audio.Title a)
    else if decide (strings.TrimSpace (gotgbot.Audio.Title a) = []) then
      strings.TrimSpace (gotgbot.Audio.Performer a)
    else strings.TrimSpace (gotgbot.Audio.Title a) ++ str " "
           ++ strings.TrimSpace (gotgbot.Audio.Performer a).
Proof.
  intros HT HP Hne. pose proof (TrimSpace_joined _ _ Hne) as Hq.
  unfold audioQuery. rewrite Sprintf_title_performer.
  rewrite bool_decide_eq_false_2 by exact Hq. clear Hq.
  set (T := strings.TrimSpace (gotgbot.Audio.Title a)) in *.
  set (P := strings.TrimSpace (gotgbot.Audio.Performer a)) in *.
  assert (HTl : T <> [] -> leadsNonSpace T) by apply TrimSpace_lead.
  assert (HPl : P <> [] -> leadsNonSpace P) by apply TrimSpace_lead.
  destruct (decide (P = [])) as [EP|NP].
  - rewrite EP. destruct Hne as [NT|NP]; [|contradiction].
    destruct HT as [ET|HT]; [contradiction|].
    apply TrimSpace_trailing_space; auto.
  - destruct HP as [EP|HP]; [contradiction|].
    destruct (decide (T = [])) as [ET|NT].
    + rewrite ET. cbn [app str list_ascii_of_string]. rewrite TrimSpace_space.
      apply TrimSpace_fixed; auto.
    + apply TrimSpace_fixed.
      * cbn [app str list_ascii_of_string]. apply leadsNonSpace_app_space. auto.
      * destruct HP as (s0 & z & E & Hz & Hzs). exists (T ++ str " " ++ s0), z.
        rewrite E, <- !app_assoc. auto.
Qed.

Lemma audioQuery_fields_witness :
  audioQuery (gotgbot.Audio.mk (str "  Imagine ") (str "   ") (str "track01.mp3"))
  = str "Imagine".
Proof.
  rewrite audioQuery_fields; [vm_compute; reflexivity | right | left; reflexivity
                             | left; vm_compute; discriminate].
  exists (str "Imagin"), "e"%char. repeat split; vm_compute; reflexivity.
Defined.

(** ** The search link is one path segment *)

Lemma segmentByte_kept (c : ascii) :
  url.shouldEscape c url.encodePathSegment = false -> segmentByte c = true.
Proof. destruct c as [[] [] [] [] [] [] [] []]; vm_compute; congruence. Qed.

Lemma segmentByte_hex (c : ascii) :
  segmentByte (url.hexdigit url.upperhex (Z.shiftr (byteZ c) 4)) = true
  /\ segmentByte (url.hexdigit url.upperhex (Z.land (byteZ c) 15)) = true.
Proof. destruct c as [[] [] [] [] [] [] [] []]; vm_compute; auto. Qed.

Lemma escape_write_segment (s : gostring) :
  forallb segmentByte (url.escape_write s url.encodePathSegment) = true
  /\ (length s <= length (url.escape_write s url.encodePathSegment) <= 3 * length s)%nat.
Proof.
  induction s as [|c s [IH1 IH2]]; [split; [reflexivity|cbn; lia]|].
  cbn [url.escape_write]. rewrite andb_false_r.
  destruct (url.shouldEscape c url.encodePathSegment) eqn:Hc.
  - destruct (segmentByte_hex c) as [H1 H2].
    cbn [forallb length]. rewrite H1, H2, IH1. split; [reflexivity|lia].
  - cbn [forallb length]. rewrite (segmentByte_kept c Hc), IH1. split; [reflexivity|lia].
Qed.

(** X12. The search link is the fixed prefix followed by bytes that are
    letters, digits, marks among [-_.~$&+:=@] or bytes of a percent
    escape: the query adds no [/], no [?] and no [#] to the link, so
    it stays one path segment, and the link is at most three times as long
    as the query. *)
Theorem search_url_one_segment (query : gostring) :
  exists segment,
    buildSpotifyUserSearchURL query = str "https://open.spotify.com/search/" ++ segment
    /\ forallb segmentByte segment = true
    /\ ("/"%char ∉ segment) /\ ("?"%char ∉ segment) /\ ("#"%char ∉ segment)
    /\ (length query <= length segment <= 3 * length query)%nat.
Proof.
  exists (url.PathEscape query). split; [apply buildSpotifyUserSearchURL_eq|].
  rewrite PathEscape_escape_write.
  destruct (escape_write_segment query) as [H1 H2]. split; [exact H1|].
  rewrite forallb_forall in H1.
  repeat split; try apply H2;
    intros Hin; apply list_elem_of_In, H1 in Hin; discriminate.
Qed.

(** ** The result text of a plain track, and of a track with an unsafe URL *)

(** X13. A track whose URL has a safe scheme and is made of the bytes
    that the URL normaliser keeps, and whose name and artists hold none of
    the seven bytes the HTML escaper replaces, is rendered byte for byte:
    the link target is the URL, the link text the name, the bold text the
    artists. *)
Theorem buildResultText_plain (track : spotify.FullTrack.t) :
  plainTrack track ->
  buildResultText track
  = (str "<a href=" ++ [dquote] ++ trackURL track ++ [dquote] ++ str ">"
       ++ spotify.FullTrack.Name track ++ str "</a>" ++ ["010"%char]
       ++ str "by <b>" ++ artistLine track ++ str "</b>",
     None).
Proof.
  intros (Hsafe & Hurl & Hname & Hartists).
  rewrite buildResultText_eq. unfold resultText, template.htmlEscaper.
  rewrite (hrefEscape_plain _ Hsafe Hurl), (htmlReplacer_plain _ Hname),
    (htmlReplacer_plain _ Hartists).
  reflexivity.
Qed.

Lemma buildResultText_plain_witness :
  buildResultText
    (spotify.FullTrack.mk (str "Imagine (Live)")
       [spotify.SimpleArtist.mk (str "John Lennon"); spotify.SimpleArtist.mk (str "Yoko Ono")]
       {[ str "spotify" := str "https://open.spotify.com/track/7pKfPomDEeI4TPT6EOYjn9" ]})
  = (str "<a href=" ++ [dquote]
       ++ str "https://open.spotify.com/track/7pKfPomDEeI4TPT6EOYjn9" ++ [dquote]
       ++ str ">Imagine (Live)</a>" ++ ["010"%char]
       ++ str "by <b>John Lennon, Yoko Ono</b>",
     None).
Proof.
  rewrite buildResultText_plain; [reflexivity|].
  repeat split; vm_compute; reflexivity.
Defined.

(** X14. A URL that the URL filter does not hold for safe -- it has a
    scheme, and the scheme is not [http], [https] or [mailto] in any
    case -- does not reach the reply: the link target is the fail-safe
    text of the template engine, and no error is returned. *)
Theorem buildResultText_unsafe_url (track : spotify.FullTrack.t) :
  template.isSafeURL (trackURL track) = false ->
  buildResultText track
  = (str "<a href=" ++ [dquote] ++ str "#ZgotmplZ" ++ [dquote] ++ str ">"
       ++ template.htmlEscaper (spotify.FullTrack.Name track) ++ str "</a>" ++ ["010"%char]
       ++ str "by <b>" ++ template.htmlEscaper (artistLine track) ++ str "</b>",
     None).
Proof.
  intros Hsafe. rewrite buildResultText_eq. unfold resultText, hrefEscape, template.urlFilter.
  rewrite Hsafe. reflexivity.
Qed.

Lemma buildResultText_unsafe_url_witness :
  fst (buildResultText
         (spotify.FullTrack.mk (str "Click") []
            {[ str "spotify" := str "JavaScript:alert(1)" ]}))
  = str "<a href=" ++ [dquote] ++ str "#ZgotmplZ" ++ [dquote] ++ str ">Click</a>"
      ++ ["010"%char] ++ str "by <b></b>".
Proof.
  rewrite buildResultText_unsafe_url; [reflexivity|vm_compute; reflexivity].
Defined.

(** ** The reply text determines what it shows *)

Lemma readReferences_step (c : ascii) (rest : gostring) :
  c <> "000"%char ->
  readReferences
    ((if bool_decide (template.htmlReplacementTable c = []) then [c]
      else template.htmlReplacementTable c) ++ rest)
  = c :: readReferences rest.
Proof.
  destruct c as [[] [] [] [] [] [] [] []]; intros Hc;
    first [reflexivity | contradiction Hc; reflexivity].
Qed.

(** Reading the references back gives the text that was escaped, when
    the text holds no NUL byte (which the escaper replaces by U+FFFD). *)
Lemma readReferences_htmlReplacer (s : gostring) :
  "000"%char ∉ s -> readReferences (template.htmlReplacer s) = s.
Proof.
  induction s as [|c s IH]; intros Hs; [reflexivity|].
  cbn [template.htmlReplacer]. apply not_elem_of_cons in Hs as [Hc Hs].
  rewrite readReferences_step by (intros E; apply Hc; symmetry; exact E).
  rewrite (IH Hs). reflexivity.
Qed.

Lemma htmlReplacer_inj (s t : gostring) :
  "000"%char ∉ s -> "000"%char ∉ t ->
  template.htmlReplacer s = template.htmlReplacer t -> s = t.
Proof.
  intros Hs Ht E. apply (f_equal readReferences) in E.
  rewrite !readReferences_htmlReplacer in E by assumption. exact E.
Qed.

(** The escaper writes no double quote and no [<]. *)
Lemma htmlReplacer_delimiters (s : gostring) :
  (dquote ∉ template.htmlReplacer s) /\ ("<"%char ∉ template.htmlReplacer s).
Proof.
  induction s as [|c s [IH1 IH2]]; [split; apply not_elem_of_nil|].
  cbn [template.htmlReplacer]. rewrite !not_elem_of_app. repeat split; try assumption;
    destruct c as [[] [] [] [] [] [] [] []]; vm_compute; intros H;
    repeat (apply elem_of_cons in H as [H|H]; [discriminate|]);
    apply elem_of_nil in H; exact H.
Qed.

(** Two texts cut at the first occurrence of a byte are cut alike. *)
Lemma app_cut_inj (c : ascii) (a1 a2 r1 r2 : gostring) :
  c ∉ a1 -> c ∉ a2 -> a1 ++ c :: r1 = a2 ++ c :: r2 -> a1 = a2 /\ r1 = r2.
Proof.
  revert a2. induction a1 as [|x a1 IH]; intros [|y a2] H1 H2 E; cbn [app] in E.
  - injection E as <-. auto.
  - injection E as <- _. exfalso. apply H2. left.
  - injection E as -> _. exfalso. apply H1. left.
  - injection E as <- E. apply not_elem_of_cons in H1 as [_ H1], H2 as [_ H2].
    destruct (IH a2 H1 H2 E) as [-> ->]. auto.
Qed.

(** X15. The reply text for a track determines what it shows: two tracks
    whose names and joined artists hold no NUL byte and whose reply texts
    are equal have the same link target, the same name and the same line
    of artists.  Escaping loses nothing, and no field can pass for a part
    of another. *)
Theorem buildResultText_injective (track1 track2 : spotify.FullTrack.t) :
  "000"%char ∉ spotify.FullTrack.Name track1 ->
  "000"%char ∉ spotify.FullTrack.Name track2 ->
  "000"%char ∉ artistLine track1 ->
  "000"%char ∉ artistLine track2 ->
  fst (buildResultText track1) = fst (buildResultText track2) ->
  hrefEscape (trackURL track1) = hrefEscape (trackURL track2)
  /\ spotify.FullTrack.Name track1 = spotify.FullTrack.Name track2
  /\ artistLine track1 = artistLine track2.
Proof.
  intros Hn1 Hn2 Ha1 Ha2 E. rewrite !buildResultText_eq in E. cbn [fst] in E.
  unfold resultText in E. apply app_inv_head in E.
  cbn [app] in E. injection E as E.
  apply app_cut_inj in E as [Eu E];
    [|apply (htmlReplacer_delimiters (template.urlNormalizer _))..].
  split; [exact Eu|].
  cbn [app str list_ascii_of_string] in E. injection E as E.
  apply app_cut_inj in E as [En E]; [|apply htmlReplacer_delimiters..].
  split; [apply htmlReplacer_inj; assumption|].
  apply (app_inv_head (str "/a>" ++ ["010"%char] ++ str "by <b>")) in E.
  apply app_cut_inj in E as [Ea _]; [|apply htmlReplacer_delimiters..].
  apply htmlReplacer_inj; assumption.
Qed.

Lemma buildResultText_injective_witness :
  spotify.FullTrack.Artists sample2.duo <> spotify.FullTrack.Artists sample2.duoJoined
  /\ artistLine sample2.duo = artistLine sample2.duoJoined.
Proof.
  split; [discriminate|].
  destruct (buildResultText_injective sample2.duo sample2.duoJoined) as (_ & _ & E);
    [vm_compute; intros H; repeat (apply elem_of_cons in H as [H|H]; [discriminate|]);
     apply elem_of_nil in H; exact H ..
    | vm_compute; reflexivity | exact E].
Defined.

(** ** The start of the program *)

Lemma requiredVariables_all (env : gmap gostring gostring) :
  Forall (fun key => os.Getenv env key <> []) requiredVariables
  <-> os.Getenv env (str "TELEGRAM_TOKEN") <> []
      /\ os.Getenv env (str "SPOTIFY_CLIENT_ID") <> []
      /\ os.Getenv env (str "SPOTIFY_CLIENT_SECRET") <> [].
Proof.
  unfold requiredVariables. rewrite !Forall_cons. rewrite Forall_nil. tauto.
Qed.

Lemma andThen_pair (e : MainEvent) (l : list MainEvent) (x : Ending) :
  andThen e (l, x) = (e :: l, x).
Proof. reflexivity. Qed.

Lemma logThen_pair (logger level : logrus.Level) (msg : gostring) (err : option gostring)
    (l : list MainEvent) (x : Ending) :
  logThen logger level msg err (l, x) = (logEntry logger level msg err ++ l, x).
Proof. unfold logThen, logEntry. destruct (logrus.IsLevelEnabled logger level); reflexivity. Qed.

Lemma fatal_pair (logger : logrus.Level) (msg err : gostring) :
  fatal logger msg err = (logEntry logger logrus.FatalLevel msg (Some err), Exited 1).
Proof. unfold fatal. rewrite logThen_pair, app_nil_r. reflexivity. Qed.

Lemma formatter_pair (b : bool) (l : list MainEvent) (x : Ending) :
  (if b then andThen SetTextFormatter else fun k => k) (l, x)
  = ((if b then [SetTextFormatter] else []) ++ l, x).
Proof. destruct b; reflexivity. Qed.

Lemma Sprintf_unknown_level (lvl : gostring) :
  fmt.Sprintf (str "Unknown log level: %s") [lvl] = str "Unknown log level: " ++ lvl.
Proof. cbn. rewrite app_nil_r. reflexivity. Qed.

Lemma getEnvOrFatal_missing (env : gmap gostring gostring) (key : gostring)
    (k : gostring -> Run) :
  os.Getenv env key = [] ->
  getEnvOrFatal env key k
  = ([WroteStderr (str "Environment variable not set: " ++ key)], Exited 1).
Proof.
  intros H. unfold getEnvOrFatal. rewrite H. cbn [bool_decide decide_rel].
  unfold exit. cbn. rewrite app_nil_r. reflexivity.
Qed.

Lemma getEnvOrFatal_set (env : gmap gostring gostring) (key : gostring)
    (k : gostring -> Run) :
  os.Getenv env key <> [] ->
  getEnvOrFatal env key k = k (os.Getenv env key).
Proof.
  intros H. unfold getEnvOrFatal. rewrite bool_decide_eq_false_2 by exact H. reflexivity.
Qed.

(** Every run of [main] is one of the runs of [MainRun]. *)
Lemma main_run (flags : Flags) (o : Outside) : MainRun flags o (main flags o).
Proof.
  unfold main.
  destruct (timeout flags <? 0) eqn:Ht; [apply Z.ltb_lt in Ht; apply RunTimeout; exact Ht|].
  apply Z.ltb_ge in Ht.
  destruct (logrus.ParseLevel (logLevel flags)) as [level|e] eqn:Hl.
  2:{ unfold exit. rewrite Sprintf_unknown_level. apply (RunLevel _ _ e); assumption. }
  destruct (godotenv.Load (environ o) (dotenvFile o)) as [env|e] eqn:Hd.
  2:{ rewrite fatal_pair, andThen_pair. apply RunDotenv; assumption. }
  fold (environmentOf env).
  destruct (decide (os.Getenv env (str "TELEGRAM_TOKEN") = [])) as [H1|H1].
  { rewrite (getEnvOrFatal_missing _ _ _ H1), logThen_pair, formatter_pair, andThen_pair.
    rewrite app_assoc. apply (RunMissing _ _ level env); try assumption.
    cbn [find requiredVariables]. rewrite bool_decide_eq_true_2 by exact H1. reflexivity. }
  rewrite (getEnvOrFatal_set _ _ _ H1).
  destruct (decide (os.Getenv env (str "SPOTIFY_CLIENT_ID") = [])) as [H2|H2].
  { rewrite (getEnvOrFatal_missing _ _ _ H2), logThen_pair, formatter_pair, andThen_pair.
    rewrite app_assoc. apply (RunMissing _ _ level env); try assumption.
    cbn [find requiredVariables]. rewrite bool_decide_eq_false_2 by exact H1.
    rewrite bool_decide_eq_true_2 by exact H2. reflexivity. }
  rewrite (getEnvOrFatal_set _ _ _ H2).
  destruct (decide (os.Getenv env (str "SPOTIFY_CLIENT_SECRET") = [])) as [H3|H3].
  { rewrite (getEnvOrFatal_missing _ _ _ H3), logThen_pair, formatter_pair, andThen_pair.
    rewrite app_assoc. apply (RunMissing _ _ level env); try assumption.
    cbn [find requiredVariables]. rewrite bool_decide_eq_false_2 by exact H1.
    rewrite bool_decide_eq_false_2 by exact H2.
    rewrite bool_decide_eq_true_2 by exact H3. reflexivity. }
  rewrite (getEnvOrFatal_set _ _ _ H3).
  assert (Hall : Forall (fun key => os.Getenv env key <> []) requiredVariables)
    by (apply requiredVariables_all; auto).
  destruct (newBot o (os.Getenv env (str "TELEGRAM_TOKEN"))) as [username|e] eqn:Hb.
  2:{ rewrite fatal_pair, andThen_pair, logThen_pair, formatter_pair, andThen_pair.
      rewrite app_assoc. apply RunNewBot; assumption. }
  destruct (spotifyToken o (os.Getenv env (str "SPOTIFY_CLIENT_ID"))
              (os.Getenv env (str "SPOTIFY_CLIENT_SECRET"))) as [e|] eqn:Hk.
  { rewrite fatal_pair, !andThen_pair, logThen_pair, formatter_pair, andThen_pair.
    rewrite app_assoc. apply (RunToken _ _ level env username); assumption. }
  destruct (startPolling o (timeout flags) (requestTimeout (timeout flags))) as [e|] eqn:Hp.
  { rewrite fatal_pair, !andThen_pair, logThen_pair, formatter_pair, andThen_pair.
    rewrite app_assoc. apply (RunPolling _ _ level env username); assumption. }
  replace (if bool_decide (environmentOf env = EnvProduction)
           then andThen InstalledSignalHandler ([], Idle) else ([], Idle))
    with ((if bool_decide (environmentOf env = EnvProduction)
           then [InstalledSignalHandler] else []), Idle)
    by (destruct (bool_decide (environmentOf env = EnvProduction)); reflexivity).
  rewrite logThen_pair, !andThen_pair, logThen_pair, formatter_pair, andThen_pair.
  rewrite app_assoc. apply (RunIdle _ _ level env username); assumption.
Qed.

Lemma network_logEntry (logger level : logrus.Level) (msg : gostring) (err : option gostring) :
  existsb isNetwork (logEntry logger level msg err) = false.
Proof. unfold logEntry. destruct (logrus.IsLevelEnabled logger level); reflexivity. Qed.

Lemma network_prelude (level : logrus.Level) (env : gmap gostring gostring) :
  existsb isNetwork (prelude level env) = false.
Proof.
  unfold prelude. cbn [existsb isNetwork orb]. rewrite existsb_app, network_logEntry.
  destruct (bool_decide (environmentOf env <> EnvProduction)); reflexivity.
Qed.

Lemma In_logEntry (e : MainEvent) (logger level : logrus.Level) (msg : gostring)
    (err : option gostring) :
  In e (logEntry logger level msg err) ->
  e = Logged level msg err /\ logrus.IsLevelEnabled logger level = true.
Proof.
  unfold logEntry. destruct (logrus.IsLevelEnabled logger level); [|intros []].
  intros [<-|[]]. auto.
Qed.

Lemma In_prelude (e : MainEvent) (level : logrus.Level) (env : gmap gostring gostring) :
  In e (prelude level env) ->
  e = SetLevel level
  \/ (e = SetTextFormatter /\ environmentOf env <> EnvProduction)
  \/ (e = Logged logrus.DebugLevel (str "Environment: " ++ environmentOf env) None
      /\ logrus.IsLevelEnabled level logrus.DebugLevel = true).
Proof.
  unfold prelude. intros [<-|H]; [auto|]. apply in_app_or in H as [H|H].
  - case_bool_decide; [|destruct H]. destruct H as [<-|[]]. auto.
  - apply In_logEntry in H. auto.
Qed.

Lemma find_missing (env : gmap gostring gostring) (key : gostring) :
  find (fun key => bool_decide (os.Getenv env key = [])) requiredVariables = Some key ->
  ~ Forall (fun key => os.Getenv env key <> []) requiredVariables.
Proof.
  intros H Hall. apply find_some in H as [Hin Hk]. apply bool_decide_eq_true_1 in Hk.
  rewrite Forall_forall in Hall. apply (Hall key); [|exact Hk].
  apply list_elem_of_In. exact Hin.
Qed.

Lemma environmentOf_production (env : gmap gostring gostring) :
  environmentOf env = EnvProduction <-> os.Getenv env (str "ENVIRONMENT") = str "PROD".
Proof.
  unfold environmentOf. case_bool_decide as H; [|reflexivity].
  rewrite H. split; discriminate.
Qed.

(** Replaces the run of [main] by each of the runs of [MainRun], with the
    facts of the run as hypotheses. *)
Ltac main_runs flags o :=
  let r := fresh "r" in
  let Hr := fresh "Hr" in
  pose proof (main_run flags o) as Hr;
  remember (main flags o) as r eqn:Er; clear Er;
  destruct Hr as [Ht | e Ht Hl | level e Ht Hl Hd | level env key Ht Hl Hd Hf
                 | level env e Ht Hl Hd Hall Hb
                 | level env username e Ht Hl Hd Hall Hb Hk
                 | level env username e Ht Hl Hd Hall Hb Hk Hp
                 | level env username Ht Hl Hd Hall Hb Hk Hp];
  cbn [fst snd].

(** Computes [touchesNetwork] on a run of [MainRun]. *)
Ltac network :=
  unfold touchesNetwork; cbn [fst snd];
  rewrite ?existsb_app; cbn [existsb isNetwork orb];
  rewrite ?network_prelude, ?network_logEntry; cbn [orb].

(** X16. [main] reaches Telegram or Spotify exactly when it is
    configured: the timeout is not negative (zero is accepted), the log
    level is one that logrus knows, the file [.env] is read, and the
    environment with the file's variables holds a token, a client id and a
    client secret that are not empty. *)
Theorem main_network_iff_configured (flags : Flags) (o : Outside) :
  touchesNetwork (main flags o) = true <-> configured flags o.
Proof.
  unfold configured. main_runs flags o; network.
  - split; [discriminate|]. intros (H0 & _). lia.
  - split; [discriminate|]. intros (_ & [lv Hlv] & _). congruence.
  - split; [discriminate|]. intros (_ & _ & env & E & _). congruence.
  - split; [discriminate|]. intros (_ & _ & env' & E & Hall).
    rewrite Hd in E. injection E as <-. exfalso. exact (find_missing env key Hf Hall).
  - split; [intros _|reflexivity]. eauto 10.
  - split; [intros _|reflexivity]. eauto 10.
  - split; [intros _|reflexivity]. eauto 10.
  - split; [intros _|reflexivity]. eauto 10.
Qed.




(** X19. The three variables are read in the order [TELEGRAM_TOKEN],
    [SPOTIFY_CLIENT_ID], [SPOTIFY_CLIENT_SECRET]: the first of them that
    is empty once [.env] is loaded is the one the run reports, and the run
    ends there, whatever the later ones hold. *)
Theorem main_first_missing_variable (flags : Flags) (o : Outside)
    (lvl : logrus.Level) (vars : gmap gostring gostring) (name : gostring) :
  0 <= timeout flags ->
  logrus.ParseLevel (logLevel flags) = Ok lvl ->
  godotenv.Load (environ o) (dotenvFile o) = Answer vars ->
  find (fun key => bool_decide (os.Getenv vars key = [])) requiredVariables = Some name ->
  last (fst (main flags o)) = Some (WroteStderr (str "Environment variable not set: " ++ name))
  /\ snd (main flags o) = Exited 1
  /\ touchesNetwork (main flags o) = false.
Proof.
  intros H0 Hlevel Hload Hfind.
  main_runs flags o; network; try lia; try congruence.
  - rewrite Hd in Hload. injection Hload as <-. rewrite Hf in Hfind. injection Hfind as <-.
    rewrite last_snoc. auto.
  - rewrite Hd in Hload. injection Hload as <-. destruct (find_missing env name Hfind Hall).
  - rewrite Hd in Hload. injection Hload as <-. destruct (find_missing env name Hfind Hall).
  - rewrite Hd in Hload. injection Hload as <-. destruct (find_missing env name Hfind Hall).
  - rewrite Hd in Hload. injection Hload as <-. destruct (find_missing env name Hfind Hall).
Qed.

Lemma main_first_missing_variable_witness :
  last (fst (main defaultFlags
               (sample3.outside sample3.environment
                  (Answer {[ str "SPOTIFY_CLIENT_SECRET" := str "secret" ]}))))
  = Some (WroteStderr (str "Environment variable not set: SPOTIFY_CLIENT_ID")).
Proof.
  destruct (main_first_missing_variable defaultFlags
              (sample3.outside sample3.environment
                 (Answer {[ str "SPOTIFY_CLIENT_SECRET" := str "secret" ]}))
              logrus.DebugLevel
              (sample3.environment ∪ {[ str "SPOTIFY_CLIENT_SECRET" := str "secret" ]})
              (str "SPOTIFY_CLIENT_ID"))
    as (E & _); [vm_compute; discriminate | reflexivity | reflexivity
                | vm_compute; reflexivity | exact E].
Defined.

(** A variable of the process environment is not changed by [.env]. *)
Lemma Getenv_Load (environ0 : gmap gostring gostring)
    (file : answer (gmap gostring gostring)) (env : gmap gostring gostring)
    (key value : gostring) :
  godotenv.Load environ0 file = Answer env ->
  environ0 !! key = Some value ->
  os.Getenv env key = value.
Proof.
  unfold godotenv.Load, os.Getenv. destruct file as [vars|e]; [|discriminate].
  intros E Hk. injection E as <-.
  rewrite (lookup_union_Some_l environ0 vars key value Hk). reflexivity.
Qed.

(** The events of a run that reach Telegram or Spotify, and what the run
    holds by then. *)
Lemma main_network_events (flags : Flags) (o : Outside) (ev : MainEvent) :
  In ev (fst (main flags o)) ->
  isNetwork ev = true ->
  exists level env,
    0 <= timeout flags
    /\ logrus.ParseLevel (logLevel flags) = Ok level
    /\ godotenv.Load (environ o) (dotenvFile o) = Answer env
    /\ Forall (fun key => os.Getenv env key <> []) requiredVariables
    /\ (ev = CalledNewBot (os.Getenv env (str "TELEGRAM_TOKEN"))
        \/ (ev = RequestedToken (os.Getenv env (str "SPOTIFY_CLIENT_ID"))
                  (os.Getenv env (str "SPOTIFY_CLIENT_SECRET"))
            /\ exists username,
                 newBot o (os.Getenv env (str "TELEGRAM_TOKEN")) = Answer username)
        \/ (ev = StartedPolling (timeout flags) (requestTimeout (timeout flags))
            /\ (exists username,
                  newBot o (os.Getenv env (str "TELEGRAM_TOKEN")) = Answer username)
            /\ spotifyToken o (os.Getenv env (str "SPOTIFY_CLIENT_ID"))
                 (os.Getenv env (str "SPOTIFY_CLIENT_SECRET")) = None)).
Proof.
  assert (Hpre : forall level env, In ev (prelude level env) -> isNetwork ev = true -> False).
  { intros level env Hin Hn. apply In_prelude in Hin as [->|[[-> _]|[-> _]]]; discriminate. }
  assert (Hlog : forall logger level msg err,
             In ev (logEntry logger level msg err) -> isNetwork ev = true -> False).
  { intros logger level msg err Hin Hn. apply In_logEntry in Hin as [-> _]. discriminate. }
  main_runs flags o; intros Hin Hn.
  - destruct Hin as [<-|[]]. discriminate.
  - destruct Hin as [<-|[]]. discriminate.
  - destruct Hin as [<-|Hin]; [discriminate|]. destruct (Hlog _ _ _ _ Hin Hn).
  - apply in_app_or in Hin as [Hin|[<-|[]]]; [destruct (Hpre _ _ Hin Hn)|discriminate].
  - exists level, env. repeat (split; [assumption|]).
    apply in_app_or in Hin as [Hin|[<-|Hin]];
      [destruct (Hpre _ _ Hin Hn) | auto | destruct (Hlog _ _ _ _ Hin Hn)].
  - exists level, env. repeat (split; [assumption|]).
    apply in_app_or in Hin as [Hin|[<-|[<-|Hin]]];
      [destruct (Hpre _ _ Hin Hn) | eauto.. | destruct (Hlog _ _ _ _ Hin Hn)].
  - exists level, env. repeat (split; [assumption|]).
    apply in_app_or in Hin as [Hin|[<-|[<-|[<-|Hin]]]];
      [destruct (Hpre _ _ Hin Hn) | eauto 6.. | destruct (Hlog _ _ _ _ Hin Hn)].
  - exists level, env. repeat (split; [assumption|]).
    apply in_app_or in Hin as [Hin|[<-|[<-|[<-|Hin]]]];
      [destruct (Hpre _ _ Hin Hn) | eauto 6.. | ].
    apply in_app_or in Hin as [Hin|Hin]; [destruct (Hlog _ _ _ _ Hin Hn)|].
    case_bool_decide; [destruct Hin as [<-|[]]; discriminate|destruct Hin].
Qed.

(** X20. A variable that the process environment sets is not replaced by
    the file [.env]: the bot is created with the token of the process
    environment, and when that token is set to the empty string no bot is
    created, whatever token the file holds. *)
Theorem main_environment_wins (flags : Flags) (o : Outside) (value token : gostring) :
  environ o !! str "TELEGRAM_TOKEN" = Some value ->
  In (CalledNewBot token) (fst (main flags o)) ->
  token = value /\ value <> [].
Proof.
  intros Hv Hin.
  destruct (main_network_events flags o _ Hin eq_refl)
    as (level & env & _ & _ & Hd & Hall & [E|[[E _]|[E _]]]); try discriminate.
  assert (Et : token = os.Getenv env (str "TELEGRAM_TOKEN"))
    by (injection E; intros H; exact H).
  subst token. apply requiredVariables_all in Hall as [Hall _].
  rewrite (Getenv_Load _ _ _ _ _ Hd Hv) in Hall |- *. auto.
Qed.

Lemma main_environment_wins_witness :
  In (CalledNewBot (str "123:abc"))
     (fst (main defaultFlags (sample3.outside sample3.environment (Answer sample3.dotenv))))
  /\ sample3.dotenv !! str "TELEGRAM_TOKEN" = Some (str "999:zzz")
  /\ str "123:abc" <> [].
Proof.
  assert (H : In (CalledNewBot (str "123:abc"))
                (fst (main defaultFlags
                        (sample3.outside sample3.environment (Answer sample3.dotenv)))))
    by (vm_compute; right; right; right; left; reflexivity).
  split; [exact H|]. split; [reflexivity|].
  apply (main_environment_wins defaultFlags
           (sample3.outside sample3.environment (Answer sample3.dotenv))
           (str "123:abc") (str "123:abc")); [reflexivity|exact H].
Defined.

(** X21. Polling starts only after Telegram has accepted a token that is
    not empty and Spotify has granted a token for a client id and a secret
    that are not empty, in this order; it starts with the timeout of the
    flags, which is not negative, and with the request timeout computed
    from it. *)
Theorem main_polling_after_credentials (flags : Flags) (o : Outside) (p r : Z) :
  In (StartedPolling p r) (fst (main flags o)) ->
  p = timeout flags /\ 0 <= p /\ r = requestTimeout p
  /\ exists token id secret,
       token <> [] /\ id <> [] /\ secret <> []
       /\ (exists username, newBot o token = Answer username)
       /\ spotifyToken o id secret = None
       /\ [CalledNewBot token; RequestedToken id secret; StartedPolling p r]
            `sublist_of` fst (main flags o).
Proof.
  intros Hin.
  destruct (main_network_events flags o _ Hin eq_refl)
    as (lvl & vars & H0 & Hlvl & Hload & Hvars & [E|[[E _]|[E [Hb' Hk']]]]);
    try discriminate.
  assert (Ep : p = timeout flags /\ r = requestTimeout (timeout flags))
    by (injection E; auto).
  destruct Ep as [-> ->]. repeat (split; [auto|]).
  pose proof (proj1 (requiredVariables_all vars) Hvars) as (H1 & H2 & H3).
  exists (os.Getenv vars (str "TELEGRAM_TOKEN")),
    (os.Getenv vars (str "SPOTIFY_CLIENT_ID")),
    (os.Getenv vars (str "SPOTIFY_CLIENT_SECRET")).
  repeat (split; [assumption|]).
  clear Hin. destruct Hb' as [u Hb'].
  main_runs flags o; try lia; try congruence;
    rewrite Hd in Hload; injection Hload as <-; try congruence.
  - destruct (find_missing env key Hf Hvars).
  - apply sublist_inserts_l. repeat apply sublist_skip. apply sublist_nil_l.
  - apply sublist_inserts_l. repeat apply sublist_skip. apply sublist_nil_l.
Qed.

Lemma main_polling_after_credentials_witness :
  In (StartedPolling 30 40000000000)
     (fst (main (mkFlags (str "info") 30)
             (sample3.outside sample3.environment (Answer sample3.dotenv))))
  /\ 40000000000 = requestTimeout 30.
Proof.
  assert (H : In (StartedPolling 30 40000000000)
                (fst (main (mkFlags (str "info") 30)
                        (sample3.outside sample3.environment (Answer sample3.dotenv)))))
    by (vm_compute; do 4 right; left; reflexivity).
  split; [exact H|].
  destruct (main_polling_after_credentials (mkFlags (str "info") 30)
              (sample3.outside sample3.environment (Answer sample3.dotenv))
              30 40000000000 H)
    as (_ & _ & E & _).
  exact E.
Defined.

Lemma int64_range (z : Z) : - 2 ^ 63 <= int64 z < 2 ^ 63.
Proof. unfold int64. pose proof (Z.mod_pos_bound (z + 2 ^ 63) (2 ^ 64)). lia. Qed.

Lemma int64_small (z : Z) : - 2 ^ 63 <= z < 2 ^ 63 -> int64 z = z.
Proof. intros H. unfold int64. rewrite Z.mod_small by lia. lia. Qed.

(** X22. The request timeout is ten seconds more than the polling
    timeout, in nanoseconds, exactly when the timeout is at most
    9223372026 seconds; above that the product does not fit an [int64] and
    wraps around. *)
Theorem requestTimeout_exact_iff (t : Z) :
  0 <= t < 2 ^ 63 ->
  requestTimeout t = (t + 10) * 1000000000 <-> t <= 9223372026.
Proof.
  intros Ht. unfold requestTimeout, Second. split.
  - intros E. pose proof (int64_range (1000000000 * int64 (t + 10))) as Hr.
    rewrite E in Hr. lia.
  - intros Hle. rewrite (int64_small (t + 10)) by lia.
    rewrite int64_small by lia. lia.
Qed.

Lemma requestTimeout_exact_iff_witness :
  requestTimeout 9223372026 = 9223372036000000000
  /\ requestTimeout 9223372027 = -9223372036709551616.
Proof.
  split.
  - apply (requestTimeout_exact_iff 9223372026); lia.
  - pose proof (requestTimeout_exact_iff 9223372027 ltac:(lia)) as [_ H].
    reflexivity.
Defined.

(** X23. The handler of the shutdown signals is installed exactly in the
    runs that reach the idle loop with [ENVIRONMENT] equal to [PROD],
    byte for byte; the text formatter of development is set exactly when
    the flags are valid and [ENVIRONMENT] is anything else, the empty
    string included.  No run does both. *)
Theorem main_production (flags : Flags) (o : Outside) (vars : gmap gostring gostring) :
  godotenv.Load (environ o) (dotenvFile o) = Answer vars ->
  (In InstalledSignalHandler (fst (main flags o))
   <-> snd (main flags o) = Idle /\ os.Getenv vars (str "ENVIRONMENT") = str "PROD")
  /\ (In SetTextFormatter (fst (main flags o))
      <-> 0 <= timeout flags
          /\ (exists lvl, logrus.ParseLevel (logLevel flags) = Ok lvl)
          /\ os.Getenv vars (str "ENVIRONMENT") <> str "PROD").
Proof.
  intros Hload.
  assert (Hpre : forall level,
             (In InstalledSignalHandler (prelude level vars) -> False)
             /\ (In SetTextFormatter (prelude level vars)
                 <-> os.Getenv vars (str "ENVIRONMENT") <> str "PROD")).
  { intros level. rewrite <- environmentOf_production. split.
    - intros Hin. apply In_prelude in Hin as [E|[[E _]|[E _]]]; discriminate.
    - split.
      + intros Hin.
        apply In_prelude in Hin as [E|[[_ H]|[E _]]]; [discriminate|exact H|discriminate].
      + intros H. unfold prelude. right. apply in_or_app. left.
        rewrite bool_decide_eq_true_2 by exact H. left. reflexivity. }
  assert (Hlog : forall ev logger level msg err,
             In ev (logEntry logger level msg err) ->
             ev <> InstalledSignalHandler /\ ev <> SetTextFormatter).
  { intros ev logger level msg err Hin. apply In_logEntry in Hin as [-> _].
    split; discriminate. }
  main_runs flags o; try congruence;
    [ | | rewrite Hd in Hload; injection Hload as <-; destruct (Hpre level) as [Hp1 Hp2];
          rewrite ?in_app_iff; cbn [In]; rewrite ?in_app_iff, Hp2 .. ].
  - split; (split; [intros [E|[]]; discriminate|]); [intros [E _]; discriminate|].
    intros (H & _). lia.
  - split; (split; [intros [E|[]]; discriminate|]); [intros [E _]; discriminate|].
    intros (_ & [lvl H] & _). congruence.
  - split; [split; [|intros [E _]; discriminate]|].
    + intros [H|[E|[]]]; [destruct (Hp1 H)|discriminate].
    + split; [intros [H|[E|[]]]; [eauto|discriminate]|]. intros (_ & _ & H). auto.
  - split; [split; [|intros [E _]; discriminate]|].
    + intros [H|[E|H]]; [destruct (Hp1 H)|discriminate|].
      apply Hlog in H as [H _]. contradiction.
    + split; [intros [H|[E|H]]; [eauto|discriminate|]|intros (_ & _ & H); auto].
      apply Hlog in H as [_ H]. contradiction.
  - split; [split; [|intros [E _]; discriminate]|].
    + intros [H|[E|[E|H]]]; [destruct (Hp1 H)|discriminate..|].
      apply Hlog in H as [H _]. contradiction.
    + split; [intros [H|[E|[E|H]]]; [eauto|discriminate..|]|intros (_ & _ & H); auto].
      apply Hlog in H as [_ H]. contradiction.
  - split; [split; [|intros [E _]; discriminate]|].
    + intros [H|[E|[E|[E|H]]]]; [destruct (Hp1 H)|discriminate..|].
      apply Hlog in H as [H _]. contradiction.
    + split; [intros [H|[E|[E|[E|H]]]]; [eauto|discriminate..|]|intros (_ & _ & H); auto].
      apply Hlog in H as [_ H]. contradiction.
  - rewrite <- environmentOf_production. split; split.
    + intros [H|[E|[E|[E|[H|H]]]]]; [destruct (Hp1 H)|discriminate..| |].
      * apply Hlog in H as [H _]. contradiction.
      * case_bool_decide; [auto|destruct H].
    + intros [_ H]. do 4 right. right. rewrite bool_decide_eq_true_2 by exact H.
      left. reflexivity.
    + intros [H|[E|[E|[E|[H|H]]]]]; [eauto|discriminate..| |].
      * apply Hlog in H as [_ H]. contradiction.
      * case_bool_decide; [destruct H as [E|[]]; discriminate|destruct H].
    + intros (_ & _ & H). left. exact H.
Qed.

Lemma main_production_witness :
  In InstalledSignalHandler
     (fst (main defaultFlags
             (sample3.outside (<[ str "ENVIRONMENT" := str "PROD" ]> sample3.environment)
                (Answer sample3.dotenv))))
  /\ ~ In InstalledSignalHandler
       (fst (main defaultFlags
               (sample3.outside (<[ str "ENVIRONMENT" := str "prod" ]> sample3.environment)
                  (Answer sample3.dotenv)))).
Proof.
  split.
  - destruct (main_production defaultFlags
                (sample3.outside (<[ str "ENVIRONMENT" := str "PROD" ]> sample3.environment)
                   (Answer sample3.dotenv))
                (<[ str "ENVIRONMENT" := str "PROD" ]> sample3.environment ∪ sample3.dotenv))
      as [[_ H] _]; [reflexivity|].
    apply H. split; vm_compute; reflexivity.
  - destruct (main_production defaultFlags
                (sample3.outside (<[ str "ENVIRONMENT" := str "prod" ]> sample3.environment)
                   (Answer sample3.dotenv))
                (<[ str "ENVIRONMENT" := str "prod" ]> sample3.environment ∪ sample3.dotenv))
      as [[H _] _]; [reflexivity|].
    intros Hin. apply H in Hin as [_ E]. vm_compute in E. discriminate.
Defined.

(** X24. A run writes a log entry only at a level that the level of the
    flags enables.  So with the level [panic] no run logs anything: a
    failure that is fatal ends the process with status 1 and leaves no
    message. *)
Theorem main_logs_enabled_levels (flags : Flags) (o : Outside) (l : logrus.Level)
    (msg : gostring) (err : option gostring) :
  In (Logged l msg err) (fst (main flags o)) ->
  exists lvl,
    logrus.ParseLevel (logLevel flags) = Ok lvl
    /\ logrus.levelNum l <= logrus.levelNum lvl
    /\ (l = logrus.FatalLevel /\ snd (main flags o) = Exited 1 /\ err <> None
        \/ l = logrus.DebugLevel \/ l = logrus.InfoLevel).
Proof.
  assert (Hlog : forall logger level m e,
             In (Logged l msg err) (logEntry logger level m e) ->
             l = level /\ err = e /\ logrus.levelNum l <= logrus.levelNum logger).
  { intros logger level m e Hin. apply In_logEntry in Hin as [E Hen].
    injection E as -> -> ->. repeat split. apply Z.leb_le. exact Hen. }
  assert (Hpre : forall level env,
             In (Logged l msg err) (prelude level env) ->
             l = logrus.DebugLevel /\ logrus.levelNum l <= logrus.levelNum level).
  { intros level env Hin. apply In_prelude in Hin as [E|[[E _]|[E Hen]]]; try discriminate.
    injection E as -> -> ->. split; [reflexivity|]. apply Z.leb_le. exact Hen. }
  main_runs flags o; rewrite ?in_app_iff; cbn [In]; rewrite ?in_app_iff.
  - intros [E|[]]. discriminate.
  - intros [E|[]]. discriminate.
  - intros [E|H]; [discriminate|]. apply Hlog in H as (-> & -> & H).
    exists level. repeat split; [assumption..|]. left. repeat split. discriminate.
  - intros [H|[E|[]]]; [|discriminate]. apply Hpre in H as [-> H]. eauto 6.
  - intros [H|[E|H]]; [apply Hpre in H as [-> H]; eauto 6|discriminate|].
    apply Hlog in H as (-> & -> & H).
    exists level. repeat split; [assumption..|]. left. repeat split. discriminate.
  - intros [H|[E|[E|H]]]; [apply Hpre in H as [-> H]; eauto 6|discriminate..|].
    apply Hlog in H as (-> & -> & H).
    exists level. repeat split; [assumption..|]. left. repeat split. discriminate.
  - intros [H|[E|[E|[E|H]]]]; [apply Hpre in H as [-> H]; eauto 6|discriminate..|].
    apply Hlog in H as (-> & -> & H).
    exists level. repeat split; [assumption..|]. left. repeat split. discriminate.
  - intros [H|[E|[E|[E|[H|H]]]]]; [apply Hpre in H as [-> H]; eauto 6|discriminate..| |].
    + apply Hlog in H as (-> & -> & H). eauto 6.
    + case_bool_decide; [destruct H as [E|[]]; discriminate|destruct H].
Qed.

Lemma main_logs_enabled_levels_witness :
  logrus.levelNum logrus.FatalLevel <= logrus.levelNum logrus.ErrorLevel.
Proof.
  destruct (main_logs_enabled_levels (mkFlags (str "ERROR") 0)
              (sample3.outside sample3.environment (Failure (str "open .env: no such file")))
              logrus.FatalLevel (str "Error loading .env file")
              (Some (str "open .env: no such file")))
    as (lvl & E & H & _); [vm_compute; right; left; reflexivity|].
  vm_compute in E. injection E as <-. exact H.
Defined.
